(** * Call analytics and case-check triage: a shallow embedding

    This development embeds the pure and the stateful logic of three Lambda
    sources of the call summariser:

    - [summariser/extract_metrics/app.py]: [parse_timestamp],
      [parse_vtt_segments], [get_vtt_duration], [parse_vtt_with_speakers],
      [extract_metrics], [save_metrics_to_s3], [load_metrics_from_s3] and
      the [lambda_handler] of the metrics step;
    - [summariser/case_check/app.py]: [get_vtt_duration],
      [calculate_call_analytics] and the [lambda_handler] pipeline
      (idempotency check, fallback computation of [overall], evidence-span
      resolution, final flags, persistence);
    - [summariser/initiate_case_check/app.py]: the completed-check fast
      path, [_mark_queued], [_start_step_function] and the part of the
      [lambda_handler] that follows the validation of the request, with
      the branches taken under SAM local and when DynamoDB or Step
      Functions fail.

    Modelling conventions.

    - A Python [str] is a Rocq [string]; one [ascii] is one code point below
      256, so [len] is [String.length].  The character classes
      ([str.isspace], [str.isdigit], the [re] classes [\s] and [\d]) and
      [str.lower] are the Unicode ones restricted to that range.
    - A Python [float] is read as the rational number ([Q]) it stands for
      and, as a rule, float arithmetic is exact; results are compared with
      [Qeq].  Two computations are modelled more closely, because what
      they return depends on it: the pass rate of the fallback [overall]
      is computed with every operation rounded to binary64 ([rnd64]), and
      [parse_timestamp] returns a [number], which can be an infinity or
      NaN, and raises [OverflowError] where the conversion of an integer
      to a float does.
    - A raised exception is an explicit error result.
    - JSON-like values (the classifier's tool input, stored objects) are the
      inductive type [json]; a [dict] is an association list in insertion
      order. *)

From Stdlib Require Import ZArith QArith Qround String Ascii List Bool Lia.
From Stdlib Require Import DecimalString DecimalN Lqa.
From stdpp Require Import gmap strings.

Import ListNotations.
Set Warnings "-register-all".
#[local] Arguments String.append !s1 s2 : simpl nomatch.
Local Open Scope string_scope.
Local Open Scope Z_scope.

(** ** Python text primitives *)

Module Py.

Definition code (c : ascii) : nat := nat_of_ascii c.

Definition in_range (lo hi : nat) (c : ascii) : bool :=
  (Nat.leb lo (code c)) && (Nat.leb (code c) hi).

(** [str.isspace] on one character: TAB..CR, FS..US, SPACE, NEL, NBSP. *)
Definition isspace (c : ascii) : bool :=
  in_range 9 13 c || in_range 28 32 c
  || Nat.eqb (code c) 133 || Nat.eqb (code c) 160.

(** The [re] class [\d] and the digits accepted by [int()] and [float()]. *)
Definition is_decimal (c : ascii) : bool := in_range 48 57 c.

(** [str.isdigit] on one character: it also accepts the superscripts
    U+00B2, U+00B3 and U+00B9. *)
Definition isdigit_char (c : ascii) : bool :=
  is_decimal c || Nat.eqb (code c) 178 || Nat.eqb (code c) 179
  || Nat.eqb (code c) 185.

Definition digit_value (c : ascii) : Z := Z.of_nat (code c) - 48.

Fixpoint all_chars (p : ascii -> bool) (s : string) : bool :=
  match s with
  | EmptyString => true
  | String c s' => p c && all_chars p s'
  end.

(** [s.isdigit()]: non-empty and every character a digit. *)
Definition isdigit (s : string) : bool :=
  match s with
  | EmptyString => false
  | _ => all_chars isdigit_char s
  end.

Fixpoint lstrip (s : string) : string :=
  match s with
  | String c s' => if isspace c then lstrip s' else s
  | EmptyString => EmptyString
  end.

(** Removes trailing whitespace: a character is dropped when it is a space
    and everything after it has been dropped. *)
Fixpoint rstrip (s : string) : string :=
  match s with
  | EmptyString => EmptyString
  | String c s' =>
      match rstrip s' with
      | EmptyString => if isspace c then EmptyString else String c EmptyString
      | r => String c r
      end
  end.

(** [s.strip()] *)
Definition strip (s : string) : string := rstrip (lstrip s).

(** [s.lower()] on one character: A..Z and the Latin-1 capitals. *)
Definition lower_char (c : ascii) : ascii :=
  if in_range 65 90 c || in_range 192 214 c || in_range 216 222 c
  then ascii_of_nat (code c + 32) else c.

Fixpoint lower (s : string) : string :=
  match s with
  | EmptyString => EmptyString
  | String c s' => String (lower_char c) (lower s')
  end.

(** [s.split(sep)] for a one-character separator: always at least one
    part. *)
Fixpoint split_on (sep : ascii) (s : string) : list string :=
  match s with
  | EmptyString => [EmptyString]
  | String c s' =>
      if Ascii.eqb c sep then EmptyString :: split_on sep s'
      else match split_on sep s' with
           | p :: ps => String c p :: ps
           | [] => [String c EmptyString]
           end
  end.

(** [s.replace(a, b)] for one-character [a] and [b]. *)
Fixpoint replace_char (a b : ascii) (s : string) : string :=
  match s with
  | EmptyString => EmptyString
  | String c s' =>
      String (if Ascii.eqb c a then b else c) (replace_char a b s')
  end.

(** [s.replace('\r\n', '\n')] *)
Fixpoint replace_crlf (s : string) : string :=
  match s with
  | String "013" (String "010" s') => String "010" (replace_crlf s')
  | String c s' => String c (replace_crlf s')
  | EmptyString => EmptyString
  end.

(** [len(s.split())]: the number of maximal runs of non-space characters.
    [inword] tells whether the previous character was part of a word. *)
Fixpoint count_words_from (inword : bool) (s : string) : nat :=
  match s with
  | EmptyString => 0%nat
  | String c s' =>
      if isspace c then count_words_from false s'
      else if inword then count_words_from true s'
      else S (count_words_from true s')
  end.

Definition count_words (s : string) : nat := count_words_from false s.

(** [' '.join(parts)] *)
Fixpoint join_space (parts : list string) : string :=
  match parts with
  | [] => EmptyString
  | [p] => p
  | p :: ps => p ++ String " " (join_space ps)
  end.

(** [hay.find(needle)]: the lowest index at which [needle] occurs;
    [None] stands for the result [-1]. *)
Fixpoint find (hay needle : string) : option nat :=
  if String.prefix needle hay then Some 0%nat
  else match hay with
       | EmptyString => None
       | String _ hay' => option_map S (find hay' needle)
       end.

(** [needle in hay] *)
Definition contains (hay needle : string) : bool :=
  match find hay needle with Some _ => true | None => false end.

(** [s[:n]] *)
Definition take (n : nat) (s : string) : string := String.substring 0 n s.

(** Truthiness of a string: [if s] *)
Definition nonempty (s : string) : bool :=
  match s with EmptyString => false | _ => true end.

End Py.

(** ** Results of code that can raise *)

Inductive exn :=
| ValueError
| TypeError
| AttributeError
| KeyError
| NoSuchKey
| ServiceError
| PydanticValidationError
| OverflowError.

Inductive res (A : Type) :=
| Ok (a : A)
| Raise (e : exn).
Arguments Ok {A} a.
Arguments Raise {A} e.

Definition bind {A B} (r : res A) (k : A -> res B) : res B :=
  match r with
  | Ok a => k a
  | Raise e => Raise e
  end.

Notation "'let*' x ':=' r 'in' k" := (bind r (fun x => k))
  (at level 10, x name, r at level 100, k at level 200).

(** ** The fragment of [re] used by the sources

    A backtracking matcher: [run r s] lists, in the order in which Python's
    engine tries them, the ways [r] can match a prefix of [s]; each entry
    holds the groups captured so far and the input that is left.
    Repetition is greedy and is only ever applied to a character class, as
    in the patterns of the sources. *)

Module Re.

Inductive re :=
| Chr (p : ascii -> bool)                         (* one character of a class *)
| Rep (p : ascii -> bool) (lo : nat) (hi : option nat)   (* p{lo,hi}, greedy *)
| Cat (r1 r2 : re)
| Grp (r : re)                                    (* a capturing group *)
| Eos.                                            (* $ *)

Definition allows (hi : option nat) : bool :=
  match hi with Some O => false | _ => true end.

Definition dec (hi : option nat) : option nat :=
  match hi with Some n => Some (Nat.pred n) | None => None end.

(** All ways to consume at most [hi] leading characters of class [p],
    longest first, with the number consumed. *)
Fixpoint rep_rests (p : ascii -> bool) (hi : option nat) (s : string)
  : list (nat * string) :=
  match s with
  | String c s' =>
      if p c && allows hi
      then (map (fun kr => (S (fst kr), snd kr)) (rep_rests p (dec hi) s')
            ++ [(0%nat, s)])%list
      else [(0%nat, s)]
  | EmptyString => [(0%nat, s)]
  end.

Fixpoint run (r : re) (s : string) : list (list string * string) :=
  match r with
  | Chr p =>
      match s with
      | String c s' => if p c then [([], s')] else []
      | EmptyString => []
      end
  | Rep p lo hi =>
      map (fun kr => ([], snd kr))
          (List.filter (fun kr => Nat.leb lo (fst kr)) (rep_rests p hi s))
  | Cat r1 r2 =>
      flat_map (fun m1 =>
                  map (fun m2 => ((fst m1 ++ fst m2)%list, snd m2))
                      (run r2 (snd m1)))
               (run r1 s)
  | Grp r1 =>
      map (fun m =>
             ((fst m ++ [Py.take (String.length s - String.length (snd m)) s])%list,
              snd m))
          (run r1 s)
  | Eos =>
      match s with
      | EmptyString => [([], s)]
      | String "010" EmptyString => [([], s)]
      | _ => []
      end
  end.

(** [pattern.match(s)]: the groups of the first successful attempt. *)
Definition rmatch (r : re) (s : string) : option (list string) :=
  match run r s with
  | m :: _ => Some (fst m)
  | [] => None
  end.

Definition within (hi : option nat) (k : nat) : Prop :=
  match hi with Some h => (k <= h)%nat | None => True end.

Definition Lit (c : ascii) : re := Chr (Ascii.eqb c).
Definition any_of (cs : list ascii) (c : ascii) : bool :=
  existsb (Ascii.eqb c) cs.
Fixpoint seq (rs : list re) : re :=
  match rs with
  | [] => Rep (fun _ => false) 0 (Some 0%nat)
  | [r] => r
  | r :: rs' => Cat r (seq rs')
  end.

End Re.

(** ** [extract_metrics]: timestamps *)

(** One group of decimal digits, with single underscores allowed between
    digits: the value read so far, the number of digits, and the rest. *)
Fixpoint digits_from (acc : Z) (n : nat) (s : string) : Z * nat * string :=
  match s with
  | String c s' =>
      if Py.is_decimal c
      then digits_from (acc * 10 + Py.digit_value c) (S n) s'
      else if Ascii.eqb c "_" then
        match s' with
        | String d s'' =>
            if Py.is_decimal d
            then digits_from (acc * 10 + Py.digit_value d) (S n) s''
            else (acc, n, s)
        | EmptyString => (acc, n, s)
        end
      else (acc, n, s)
  | EmptyString => (acc, n, s)
  end.

Definition digit_group (s : string) : option (Z * nat * string) :=
  match s with
  | String c s' =>
      if Py.is_decimal c then Some (digits_from (Py.digit_value c) 1 s')
      else None
  | EmptyString => None
  end.

(** An optional sign: the factor and the rest. *)
Definition read_sign (s : string) : Z * string :=
  match s with
  | String "+" s' => (1, s')
  | String "-" s' => (-1, s')
  | _ => (1, s)
  end.

(** CPython's default limit on the number of digits of a decimal string
    that [int] converts ([sys.int_info.default_max_str_digits]): with more
    digits [int] raises [ValueError]. *)
Definition max_str_digits : nat := 4300.

(** [int(s)] for a string, base 10; [None] is [ValueError]. *)
Definition int_of_str (s : string) : option Z :=
  let (sg, t) := read_sign (Py.strip s) in
  match digit_group t with
  | Some (v, n, EmptyString) =>
      if (max_str_digits <? n)%nat then None else Some (sg * v)
  | _ => None
  end.

(** The exponent part of a float literal, if any: the exponent and the
    rest; [None] when an exponent mark is not followed by digits. *)
Definition read_exponent (s : string) : option (Z * string) :=
  match s with
  | String c s' =>
      if Ascii.eqb c "e" || Ascii.eqb c "E" then
        let (sg, t) := read_sign s' in
        match digit_group t with
        | Some (v, _, r) => Some (sg * v, r)
        | None => None
        end
      else Some (0, s)
  | EmptyString => Some (0, s)
  end.

(** The value of a string holding a decimal literal of [float]; [None]
    when the string is no such literal. *)
Definition float_of_str (s : string) : option Q :=
  let (sg, t) := read_sign (Py.strip s) in
  let '(ip, ni, t1) :=
    match digit_group t with
    | Some x => x
    | None => (0, 0%nat, t)
    end in
  let '(fp, nf, t2) :=
    match t1 with
    | String "." t' =>
        match digit_group t' with
        | Some x => x
        | None => (0, 0%nat, t')
        end
    | _ => (0, 0%nat, t1)
    end in
  if Nat.eqb (ni + nf) 0 then None
  else
    match read_exponent t2 with
    | Some (e, EmptyString) =>
        Some (inject_Z (sg * (ip * 10 ^ Z.of_nat nf + fp))
              / inject_Z (10 ^ Z.of_nat nf) * Qpower (inject_Z 10) e)%Q
    | _ => None
    end.

Definition py_int (s : string) : res Z :=
  match int_of_str s with Some z => Ok z | None => Raise ValueError end.

(** [float(s)] where the value is stored or compared as a number: the
    decimal literals, with their rational value.  The literals [inf],
    [infinity] and [nan] have no rational value and are rejected here;
    [float_number] below is [float(s)] with them. *)
Definition py_float (s : string) : res Q :=
  match float_of_str s with Some q => Ok q | None => Raise ValueError end.

(** A float: a finite one, read as the rational it stands for, an infinity
    or NaN. *)
Inductive number :=
| Finite (q : Q)
| PosInf
| NegInf
| NaN.

(** The least magnitude that binary64 rounds to infinity: the midpoint
    between the largest float, [2^1024 - 2^971], and [2^1024]. *)
Definition float_overflow : Z := 2 ^ 1024 - 2 ^ 970.

(** The float that a decimal literal or a sum of floats of this value
    yields: an infinity when the value is out of range. *)
Definition to_float (q : Q) : number :=
  if Qle_bool (inject_Z float_overflow) q then PosInf
  else if Qle_bool q (inject_Z (- float_overflow)) then NegInf
  else Finite q.

(** The words that [float] accepts besides the decimal literals, in any
    case and with an optional sign: [inf], [infinity] and [nan]. *)
Definition special_float (s : string) : option number :=
  let (sg, t) := read_sign (Py.strip s) in
  let t := Py.lower t in
  if String.eqb t "inf" || String.eqb t "infinity"
  then Some (if sg =? 1 then PosInf else NegInf)
  else if String.eqb t "nan" then Some NaN
  else None.

(** [float(s)] for a string: a literal out of range gives an infinity, no
    error. *)
Definition float_number (s : string) : res number :=
  match special_float s with
  | Some x => Ok x
  | None =>
      match float_of_str s with
      | Some q => Ok (to_float q)
      | None => Raise ValueError
      end
  end.

(** [i + x] for an int and a float: the int is converted to a float first,
    which raises [OverflowError] when it is too large; the sum of two
    floats then overflows to an infinity without an error. *)
Definition int_plus_float (i : Z) (x : number) : res number :=
  if float_overflow <=? Z.abs i then Raise OverflowError
  else Ok (match x with
           | Finite q => to_float (inject_Z i + q)
           | _ => x
           end).

(** [parse_timestamp(ts)] *)
Definition parse_timestamp (ts : string) : res number :=
  let ts := Py.strip (Py.replace_char "," "." ts) in
  let parts := Py.split_on ":" ts in
  match parts with
  | [h; m; s] =>
      let* h' := py_int h in
      let* m' := py_int m in
      let* s' := float_number s in
      int_plus_float (h' * 3600 + m' * 60) s'
  | [m; s] =>
      let* m' := py_int m in
      let* s' := float_number s in
      int_plus_float (m' * 60) s'
  | _ => Ok (Finite 0)
  end.

(** ** [extract_metrics]: caption segments *)

Import Re.

Definition nl : ascii := "010".
Definition cr : ascii := "013".

(** [\d{1,2}:\d{2}:\d{2}[.,]\d+] *)
Definition stamp_re : re :=
  seq [Rep Py.is_decimal 1 (Some 2%nat); Lit ":";
       Rep Py.is_decimal 2 (Some 2%nat); Lit ":";
       Rep Py.is_decimal 2 (Some 2%nat); Chr (any_of ["."; ","]%char);
       Rep Py.is_decimal 1 None].

(** [(\d{1,2}:\d{2}:\d{2}[.,]\d+)\s*-->\s*(\d{1,2}:\d{2}:\d{2}[.,]\d+)] *)
Definition timestamp_pattern : re :=
  seq [Grp stamp_re; Rep Py.isspace 0 None;
       Lit "-"; Lit "-"; Lit ">";
       Rep Py.isspace 0 None; Grp stamp_re].

(** A segment is the tuple [(start_sec, end_sec, text)].  Its two times
    are finite floats: the cue pattern captures one or two digits, two
    digits, and two digits with a fraction, on which [parse_timestamp]
    returns a finite value ([parse_timestamp_stamp] below); [finite] reads
    that value. *)
Definition segment : Type := Q * Q * string.

Definition finite (x : number) : Q :=
  match x with
  | Finite q => q
  | _ => 0%Q
  end.

Definition is_cue (line : string) : bool :=
  match rmatch timestamp_pattern line with Some _ => true | None => false end.

(** The test that ends the text of a cue, on a stripped line:
    [not text_line or timestamp_pattern.match(text_line) or
    text_line.isdigit()]. *)
Definition ends_text (text_line : string) : bool :=
  negb (Py.nonempty text_line) || is_cue text_line || Py.isdigit text_line.

(** [if text_lines: segments.append(...)], in front of what the rest of the
    scan produces. *)
Definition emit (start_sec end_sec : Q) (text_lines : list string)
    (later : res (list segment)) : res (list segment) :=
  match text_lines with
  | [] => later
  | _ =>
      let* segs := later in
      Ok ((start_sec, end_sec, Py.join_space text_lines) :: segs)
  end.

(** The [while i < len(lines)] loop, from line [i] on.  The inner loop
    [collect] gathers the text lines of a cue; when it stops at a line, the
    outer loop goes on from that same line. *)
Fixpoint scan (lines : list string) : res (list segment) :=
  match lines with
  | [] => Ok []
  | l :: rest =>
      match rmatch timestamp_pattern (Py.strip l) with
      | Some groups =>
          let* start_sec := parse_timestamp (nth 0 groups "") in
          let* end_sec := parse_timestamp (nth 1 groups "") in
          (fix collect (text_lines : list string) (ls : list string)
               {struct ls} : res (list segment) :=
             match ls with
             | [] => emit (finite start_sec) (finite end_sec) text_lines (Ok [])
             | t :: ls' =>
                 if ends_text (Py.strip t)
                 then emit (finite start_sec) (finite end_sec) text_lines
                        (scan ls)
                 else collect (text_lines ++ [Py.strip t])%list ls'
             end) [] rest
      | None => scan rest
      end
  end.

(** [parse_vtt_segments(vtt_content)]; [None] is a missing caption file. *)
Definition parse_vtt_segments (vtt_content : option string)
  : res (list segment) :=
  match vtt_content with
  | None => Ok []
  | Some EmptyString => Ok []
  | Some content =>
      let content := Py.replace_char cr nl (Py.replace_crlf content) in
      scan (Py.split_on nl content)
  end.

(** ** [extract_metrics]: speaker attribution *)

(** The speaker pattern: a first group [[^:]{2,50}] anchored at the start,
    a colon, [\s*], a second group of any characters but a newline (greedy
    dot-star), and [$]. *)
Definition speaker_pattern : re :=
  seq [Grp (Rep (fun c => negb (Ascii.eqb c ":")) 2 (Some 50%nat));
       Lit ":"; Rep Py.isspace 0 None;
       Grp (Rep (fun c => negb (Ascii.eqb c nl)) 0 None); Eos].

(** The dict returned by [parse_vtt_with_speakers]. *)
Record timing := {
  coach_duration_sec : Q;
  client_duration_sec : Q;
  coach_words : nat;
  client_words : nat
}.

Definition no_timing : timing :=
  {| coach_duration_sec := 0; client_duration_sec := 0;
     coach_words := 0; client_words := 0 |}.

Definition add_coach (t : timing) (d : Q) (w : nat) : timing :=
  {| coach_duration_sec := (coach_duration_sec t + d)%Q;
     client_duration_sec := client_duration_sec t;
     coach_words := coach_words t + w;
     client_words := client_words t |}.

Definition add_client (t : timing) (d : Q) (w : nat) : timing :=
  {| coach_duration_sec := coach_duration_sec t;
     client_duration_sec := (client_duration_sec t + d)%Q;
     coach_words := coach_words t;
     client_words := client_words t + w |}.

(** [len(text.split()) if text else 0] *)
Definition word_count (text : string) : nat :=
  if Py.nonempty text then Py.count_words text else 0%nat.

(** The body of [for start_sec, end_sec, vtt_text in segments]. *)
Definition attribute_segment (coach_name_lower : string) (t : timing)
    (seg : segment) : timing :=
  let '(start_sec, end_sec, vtt_text) := seg in
  let segment_duration := (end_sec - start_sec)%Q in
  match rmatch speaker_pattern vtt_text with
  | Some groups =>
      let speaker_name := Py.lower (Py.strip (nth 0 groups "")) in
      let actual_text := Py.strip (nth 1 groups "") in
      if Py.contains speaker_name coach_name_lower
         || Py.contains coach_name_lower speaker_name
      then add_coach t segment_duration (word_count actual_text)
      else add_client t segment_duration (word_count actual_text)
  | None => add_client t segment_duration (word_count vtt_text)
  end.

Definition attribute (coach_name_lower : string) (segments : list segment)
  : timing :=
  fold_left (attribute_segment coach_name_lower) segments no_timing.

(** [parse_vtt_with_speakers(vtt_content, coach_name)] *)
Definition parse_vtt_with_speakers (vtt_content coach_name : option string)
  : res timing :=
  match vtt_content, coach_name with
  | Some (String _ _ as content), Some (String _ _ as name) =>
      let* segments := parse_vtt_segments (Some content) in
      Ok (attribute (Py.strip (Py.lower name)) segments)
  | _, _ => Ok no_timing
  end.

(** ** JSON-like values *)

Inductive json :=
| JNull
| JBool (b : bool)
| JInt (z : Z)
| JFloat (q : Q)
| JStr (s : string)
| JList (l : list json)
| JDict (kv : list (string * json)).

Abbreviation dict := (list (string * json)).

(** [d.get(k)] *)
Fixpoint dget (k : string) (d : dict) : option json :=
  match d with
  | [] => None
  | (k', v) :: d' => if String.eqb k k' then Some v else dget k d'
  end.

(** [d[k] = v]: an existing key keeps its place, a new one goes last. *)
Fixpoint dset (k : string) (v : json) (d : dict) : dict :=
  match d with
  | [] => [(k, v)]
  | (k', v') :: d' =>
      if String.eqb k k' then (k, v) :: d' else (k', v') :: dset k v d'
  end.

(** [d.get(k, dflt)] *)
Definition dget_or (k : string) (dflt : json) (d : dict) : json :=
  match dget k d with Some v => v | None => dflt end.

(** [d.setdefault(k, v)] *)
Definition setdefault (k : string) (v : json) (d : dict) : dict :=
  match dget k d with Some _ => d | None => dset k v d end.

(** Truthiness: [if v] *)
Definition truthy (v : json) : bool :=
  match v with
  | JNull => false
  | JBool b => b
  | JInt z => negb (z =? 0)
  | JFloat q => negb (Qeq_bool q 0)
  | JStr s => Py.nonempty s
  | JList l => match l with [] => false | _ => true end
  | JDict kv => match kv with [] => false | _ => true end
  end.

(** [v == s] for a string literal [s] *)
Definition is_str (s : string) (v : option json) : bool :=
  match v with Some (JStr t) => String.eqb t s | _ => false end.

(** [int(v)]; [None] is the [ValueError] or [TypeError] it raises. *)
Definition coerce_int (v : json) : option Z :=
  match v with
  | JInt z => Some z
  | JBool b => Some (if b then 1 else 0)
  | JFloat q => Some (Z.quot (Qnum q) (Zpos (Qden q)))
  | JStr s => int_of_str s
  | _ => None
  end.

(** [float(v)] *)
Definition coerce_float (v : json) : res Q :=
  match v with
  | JInt z => Ok (inject_Z z)
  | JBool b => Ok (if b then 1 else 0)%Q
  | JFloat q => Ok q
  | JStr s => py_float s
  | _ => Raise TypeError
  end.

(** [for x in v]: the elements of a list, the characters of a string, the
    keys of a dict; other values are not iterable. *)
Definition py_iter (v : json) : res (list json) :=
  match v with
  | JList l => Ok l
  | JStr s => Ok (map (fun c => JStr (String c "")) (list_ascii_of_string s))
  | JDict kv => Ok (map (fun p => JStr (fst p)) kv)
  | _ => Raise TypeError
  end.

(** [round(x, 1)]: to the nearest tenth, a tie going to the even tenth. *)
Definition round_half_even (q : Q) : Z :=
  let f := Qfloor q in
  match Qcompare (q - inject_Z f) (1 # 2) with
  | Lt => f
  | Gt => f + 1
  | Eq => if Z.even f then f else f + 1
  end.

Definition py_round1 (q : Q) : Q :=
  Qred (inject_Z (round_half_even (q * 10)) / 10).

(** ** Binary64 arithmetic

    Floats are read as the rationals they stand for, and most float
    results of the sources are modelled by the exact rational result.  The
    pass rate of [fill_overall] is computed as the source computes it, with
    every operation rounded to binary64, because its last digit depends on
    that rounding. *)

(** [2 ** e] for an integer exponent. *)
Definition pow2 (e : Z) : Q :=
  if 0 <=? e then inject_Z (2 ^ e) else (/ inject_Z (2 ^ (- e)))%Q.

(** The binade of a positive rational: the [e] with
    [2^e <= q < 2^(e+1)], which is the difference of the binary logarithms
    of the numerator and of the denominator, or one less. *)
Definition binade (q : Q) : Z :=
  let e := Z.log2 (Qnum q) - Z.log2 (Zpos (Qden q)) in
  if Qle_bool (pow2 e) q then e else e - 1.

(** The binary64 number nearest to a positive rational, ties to even: 53
    significant binary digits, and a spacing of [2^-1074] below
    [2^-1022]. *)
Definition round_pos (q : Q) : Q :=
  let s := 52 - Z.max (binade q) (-1022) in
  Qred (inject_Z (round_half_even (q * pow2 s)) * pow2 (- s))%Q.

(** Rounding to binary64, for magnitudes within the float range. *)
Definition rnd64 (q : Q) : Q :=
  match Qnum q with
  | Z0 => 0%Q
  | Zpos _ => round_pos q
  | Zneg _ => (- round_pos (- q))%Q
  end.

(** [a / b] for two ints, which Python rounds correctly, and [x * y] for
    two floats. *)
Definition float_div (a b : Z) : Q := rnd64 (inject_Z a / inject_Z b).

Definition float_mul (x y : Q) : Q := rnd64 (x * y).

(** ** [case_check]: the static checklist *)

(** One entry of [STARTER_SESSION_CHECKS].  The prompt texts are left out:
    nothing modelled here reads them. *)
Record ChecklistItem := {
  check_id : string;
  required : bool;
  severity : string;
  theme : string
}.

Definition chk (i : string) (r : bool) (sv th : string) : ChecklistItem :=
  {| check_id := i; required := r; severity := sv; theme := th |}.

Definition STARTER_SESSION_CHECKS : list ChecklistItem := [
  chk "call_recording_confirmed" true "high" "businessRisk";
  chk "regulated_advice_given" true "high" "businessRisk";
  chk "vulnerability_identified" true "high" "businessRisk";
  chk "dob_confirmed" true "medium" "businessRisk";
  chk "client_name_confirmed" true "medium" "businessRisk";
  chk "marital_status_confirmed" true "medium" "businessRisk";
  chk "citizenship_confirmed" true "medium" "businessRisk";
  chk "dependents_confirmed" true "medium" "businessRisk";
  chk "pension_details_confirmed" true "medium" "businessRisk";
  chk "income_expenditure_confirmed" true "medium" "businessRisk";
  chk "assets_liabilities_confirmed" true "medium" "businessRisk";
  chk "emergency_fund_confirmed" true "medium" "businessRisk";
  chk "will_confirmed" true "low" "businessRisk";
  chk "pension_withdrawal_if_over_50" false "medium" "businessRisk";
  chk "high_interest_debt_addressed" false "high" "businessRisk";
  chk "fees_charges_explained" true "high" "businessRisk";
  chk "way_forward_agreed" true "medium" "businessRisk";
  chk "money_calculators_introduced" true "medium" "businessRisk";
  chk "coach_introduction_signposting" true "medium" "customerExperience";
  chk "client_goals_established" true "high" "customerExperience";
  chk "client_motivations_established" true "medium" "customerExperience";
  chk "asked_client_move_forward" true "high" "customerExperience";
  chk "client_questions_opportunity" true "medium" "customerExperience"
].

(** [{c["id"]: c.get("severity", "low") for c in checks}]: a later entry
    with the same id replaces an earlier one. *)
Definition severity_by_id (checks : list ChecklistItem) : gmap string string :=
  fold_left (fun m c => <[check_id c := severity c]> m) checks ∅.

(** [{c["id"]: c.get("theme", "businessRisk") for c in checks}] *)
Definition theme_by_id (checks : list ChecklistItem) : gmap string string :=
  fold_left (fun m c => <[check_id c := theme c]> m) checks ∅.

(** [severity_by_id.get(check_id) == "high"] for any value [check_id]:
    a list or a dict is unhashable and the lookup raises [TypeError]; a
    hashable value that is not a string is never a key. *)
Definition severity_is_high (sev : gmap string string) (check_id : json)
  : res bool :=
  match check_id with
  | JStr i =>
      Ok (match sev !! i with Some sv => String.eqb sv "high" | None => false end)
  | JList _ | JDict _ => Raise TypeError
  | _ => Ok false
  end.

(** ** [case_check]: the fallback computation of [overall] *)

Section Triage.

Variable checks : list ChecklistItem.

(** The body of [for r in results_list], on the pair
    [(failed_ids, high_severity_flags)]. *)
Definition failure_step (acc : res (list json * list json)) (r : json)
  : res (list json * list json) :=
  let* st := acc in
  match r with
  | JDict d =>
      if is_str "Fail" (dget "status" d) then
        let check_id := dget_or "id" (JStr "") d in
        let failed_ids := (fst st ++ [check_id])%list in
        let* high := severity_is_high (severity_by_id checks) check_id in
        if high then Ok (failed_ids, (snd st ++ [check_id])%list)
        else Ok (failed_ids, snd st)
      else Ok st
  | _ => Ok st
  end.

Definition collect_failures (results_list : list json)
  : res (list json * list json) :=
  fold_left failure_step results_list (Ok ([], [])).

Definition overall_of (pass_rate : Q) (failed_ids flags : list json)
    (has_high : bool) : json :=
  JDict [("pass_rate", JFloat pass_rate);
         ("failed_ids", JList failed_ids);
         ("high_severity_flags", JList flags);
         ("has_high_severity_failures", JBool has_high)].

(** [if "overall" not in validated_json or not validated_json.get("overall")] *)
Definition overall_missing (validated_json : dict) : bool :=
  match dget "overall" validated_json with
  | Some v => negb (truthy v)
  | None => true
  end.

(** Lines 765-808: the value of [validated_json] after the block. *)
Definition fill_overall (validated_json : dict) : res dict :=
  if overall_missing validated_json then
    match dget_or "results" (JList []) validated_json with
    | JList results_list =>
        let total_checks := length results_list in
        let* fl := collect_failures results_list in
        let passed_count :=
          (Z.of_nat total_checks - Z.of_nat (length (fst fl)))%Z in
        let pass_rate :=
          if (0 <? total_checks)%nat
          then float_mul (float_div passed_count (Z.of_nat total_checks)) 100
          else 0%Q in
        Ok (dset "overall"
              (overall_of (py_round1 pass_rate) (fst fl) (snd fl)
                 (0 <? length (snd fl))%nat)
              validated_json)
    | _ =>
        Ok (dset "overall" (overall_of 0 [] [] false) validated_json)
    end
  else Ok validated_json.

End Triage.

(** ** [case_check]: evidence spans *)

(** [isinstance(span, (list, tuple)) and len(span) == 2], then
    [[int(span[0]), int(span[1])]] unless a coercion raises. *)
Definition valid_span (span : json) : option json :=
  match span with
  | JList [a; b] =>
      match coerce_int a, coerce_int b with
      | Some x, Some y => Some (JList [JInt x; JInt y])
      | _, _ => None
      end
  | _ => None
  end.

(** The loop that builds [valid_spans]. *)
Definition valid_spans (spans : list json) : list json :=
  fold_left (fun acc span =>
               match valid_span span with
               | Some v => (acc ++ [v])%list
               | None => acc
               end) spans [].

Definition span_at (pos len : nat) : json :=
  JList [JList [JInt (Z.of_nat pos); JInt (Z.of_nat pos + Z.of_nat len)]].

(** The search of lines 829-845 for a quote that is a string; [None] when
    [result_item] is left as it is. *)
Definition search_quote (full_transcript evidence_quote : string)
  : option json :=
  let clean_quote := Py.strip evidence_quote in
  if Py.nonempty clean_quote then
    match Py.find full_transcript clean_quote with
    | Some pos => Some (span_at pos (String.length clean_quote))
    | None =>
        let short_quote := Py.take 50 clean_quote in
        match Py.find full_transcript short_quote with
        | Some pos => Some (span_at pos (String.length clean_quote))
        | None => Some (JList [])
        end
    end
  else None.

(** The body of [for result_item in validated_json["results"]]. *)
Definition resolve_item (full_transcript : string) (result_item : json)
  : res json :=
  match result_item with
  | JDict d =>
      let evidence_quote := dget_or "evidence_quote" (JStr "") d in
      let evidence_spans := dget_or "evidence_spans" (JList []) d in
      let* cleaned :=
        (if truthy evidence_spans then
           let* spans := py_iter evidence_spans in
           let kept := JList (valid_spans spans) in
           Ok (dset "evidence_spans" kept d, kept)
         else Ok (d, evidence_spans)) in
      if truthy evidence_quote && negb (truthy (snd cleaned)) then
        match evidence_quote with
        | JStr q =>
            match search_quote full_transcript q with
            | Some spans => Ok (JDict (dset "evidence_spans" spans (fst cleaned)))
            | None => Ok (JDict (fst cleaned))
            end
        | _ => Raise AttributeError
        end
      else Ok (JDict (fst cleaned))
  | _ => Ok result_item
  end.

Fixpoint map_res {A B} (f : A -> res B) (l : list A) : res (list B) :=
  match l with
  | [] => Ok []
  | x :: l' =>
      let* y := f x in
      let* ys := map_res f l' in
      Ok (y :: ys)
  end.

(** Lines 810-845. *)
Definition resolve_evidence (full_transcript : string) (validated_json : dict)
  : res dict :=
  match dget "results" validated_json with
  | Some (JList results) =>
      let* results' := map_res (resolve_item full_transcript) results in
      Ok (dset "results" (JList results') validated_json)
  | _ => Ok validated_json
  end.

(** ** [case_check]: the validated payload *)

Inductive Status :=
| Competent
| CompetentWithDevelopment
| Fail
| NotApplicable
| Inconclusive.

Definition status_name (st : Status) : string :=
  match st with
  | Competent => "Competent"
  | CompetentWithDevelopment => "CompetentWithDevelopment"
  | Fail => "Fail"
  | NotApplicable => "NotApplicable"
  | Inconclusive => "Inconclusive"
  end.

Definition status_eqb (a b : Status) : bool :=
  String.eqb (status_name a) (status_name b).

(** [class CaseCheckResult(BaseModel)] *)
Record CaseCheckResult := {
  id : string;
  status : Status;
  confidence : Q;
  evidence_spans : list (Z * Z);
  evidence_quote : option string;
  comment : option string
}.

(** [class CaseCheckPayload(BaseModel)] *)
Record CaseCheckPayload := {
  check_schema_version : string;
  session_type : string;
  checklist_version : string;
  meeting_id : string;
  model_version : string;
  prompt_version : string;
  results : list CaseCheckResult;
  overall : dict
}.

Definition opt_str_json (o : option string) : json :=
  match o with Some s => JStr s | None => JNull end.

(** [model_dump()] of one result and of the payload. *)
Definition dump_result (r : CaseCheckResult) : json :=
  JDict [("id", JStr (id r));
         ("status", JStr (status_name (status r)));
         ("confidence", JFloat (confidence r));
         ("evidence_spans",
          JList (map (fun sp => JList [JInt (fst sp); JInt (snd sp)])
                     (evidence_spans r)));
         ("evidence_quote", opt_str_json (evidence_quote r));
         ("comment", opt_str_json (comment r))].

Definition dump (p : CaseCheckPayload) : dict :=
  [("check_schema_version", JStr (check_schema_version p));
   ("session_type", JStr (session_type p));
   ("checklist_version", JStr (checklist_version p));
   ("meeting_id", JStr (meeting_id p));
   ("model_version", JStr (model_version p));
   ("prompt_version", JStr (prompt_version p));
   ("results", JList (map dump_result (results p)));
   ("overall", JDict (overall p))].

(** [x or ""] *)
Definition or_empty (o : option string) : option string :=
  match o with Some (String _ _ as s) => Some s | _ => Some "" end.

(** [max(0.0, min(1.0, x))] *)
Definition clamp01 (x : Q) : Q :=
  let m := if Qle_bool 1 x then 1%Q else x in
  if Qle_bool m 0 then 0%Q else m.

Definition tidy_result (r : CaseCheckResult) : CaseCheckResult :=
  {| id := id r; status := status r;
     confidence := clamp01 (confidence r);
     evidence_spans := evidence_spans r;
     evidence_quote := or_empty (evidence_quote r);
     comment := or_empty (comment r) |}.

Definition is_high (sev : gmap string string) (i : string) : bool :=
  match sev !! i with Some sv => String.eqb sv "high" | None => false end.

(** The state of the loop of lines 884-896: the results rewritten so far
    and the two flags. *)
Record flags := {
  tidied : list CaseCheckResult;
  has_high_severity_failures : bool;
  has_vulnerability : bool
}.

(** The body of [for r in data.get("results", [])]. *)
Definition final_step (sev : gmap string string) (st : flags)
    (r : CaseCheckResult) : flags :=
  {| tidied := (tidied st ++ [tidy_result r])%list;
     has_high_severity_failures :=
       if status_eqb (status r) Fail && is_high sev (id r) then true
       else has_high_severity_failures st;
     has_vulnerability :=
       if String.eqb (id r) "vulnerability_identified"
          && (status_eqb (status r) Competent || status_eqb (status r) Fail)
       then true
       else has_vulnerability st |}.

Definition final_flags (checks : list ChecklistItem)
    (rs : list CaseCheckResult) : flags :=
  fold_left (final_step (severity_by_id checks)) rs
    {| tidied := []; has_high_severity_failures := false;
       has_vulnerability := false |}.

(** Lines 876-901: the dict [data] that is persisted, with the
    [hasVulnerability] flag. *)
Definition finalise (checks : list ChecklistItem) (the_meeting model prompt : string)
    (call_analytics : json) (parsed : CaseCheckPayload) : dict * bool :=
  let fl := final_flags checks (results parsed) in
  let data :=
    {| check_schema_version := check_schema_version parsed;
       session_type := session_type parsed;
       checklist_version := checklist_version parsed;
       meeting_id := the_meeting;
       model_version := model;
       prompt_version := prompt;
       results := tidied fl;
       overall := dset "has_high_severity_failures"
                    (JBool (has_high_severity_failures fl)) (overall parsed) |} in
  (dset "call_analytics" call_analytics (dump data), has_vulnerability fl).

(** ** [case_check]: stores, collaborators and the handler *)

(** The values imported from [constants]. *)
Record Constants := {
  S3_PREFIX : string;
  SCHEMA_VERSION : string;
  CASE_CHECK_SCHEMA_VERSION : string;
  ATHENA_PARTITIONED : bool;
  MODEL_VERSION : string;
  PROMPT_VERSION : string
}.

(** The state outside the handler: the case-check objects of the summary
    bucket (an object is the JSON value its body holds), the
    assessment-results table keyed by [(meeting_id, assessment_id)], and the
    number of classifier invocations made so far. *)
Record World := {
  s3 : gmap string json;
  assessment_table : gmap (string * string) json;
  classifications : nat
}.

(** The classifier's reply: the content blocks of the output message and
    the stop reason. *)
Record Response := {
  content : list dict;
  stopReason : string
}.

(** What one invocation reads from outside: the clock (year and month, read
    once for the idempotency key and once more when saving), the transcript
    fetch, the locally computed analytics, the prompt ARN, the classifier,
    [helper.parse_stringified_fields] and the Pydantic validation. *)
Record Env := {
  now_check : Z * Z;
  now_save : Z * Z;
  get_transcript : string -> res string;
  local_analytics : string -> string -> json;
  prompt_arn : option string;
  invoke : string -> res Response;
  parse_stringified : dict -> res dict;
  model_validate : json -> res CaseCheckPayload
}.

Record Event := {
  redactedTranscriptKey : option string;
  meetingId : option string;
  forceReprocess : bool;
  callMetrics : option json
}.

(** The returned dict; the reuse path returns neither [hasVulnerability]
    nor [callAnalytics]. *)
Record Output := {
  caseData : json;
  caseKey : string;
  passRate : Q;
  hasVulnerability : option bool;
  callAnalytics : option json
}.

Definition decimal (z : Z) : string :=
  NilZero.string_of_uint (N.to_uint (Z.to_N z)).

(** The format [:0nd] for a non-negative number. *)
Definition zero_pad (n : nat) (s : string) : string :=
  string_of_list_ascii (repeat "0"%char (n - String.length s)) ++ s.

(** The key of the case-check object for a year, a month and a meeting. *)
Definition case_key (K : Constants) (ym : Z * Z) (meeting : string) : string :=
  if ATHENA_PARTITIONED K then
    S3_PREFIX K ++ "/supplementary/version=" ++ SCHEMA_VERSION K
    ++ "/year=" ++ decimal (fst ym)
    ++ "/month=" ++ zero_pad 2 (decimal (snd ym))
    ++ "/meeting_id=" ++ meeting
    ++ "/case_check.v" ++ CASE_CHECK_SCHEMA_VERSION K ++ ".json"
  else
    S3_PREFIX K ++ "/" ++ zero_pad 4 (decimal (fst ym))
    ++ "/" ++ zero_pad 2 (decimal (snd ym))
    ++ "/" ++ meeting
    ++ "/case_check.v" ++ CASE_CHECK_SCHEMA_VERSION K ++ ".json".

(** The [try] block of the idempotency check: [Some] when it returns.  A
    missing object, a stored value that is not a dict, an [overall] that is
    not a dict and a [pass_rate] that [float] rejects all end in one of the
    two [except] clauses, after which processing goes on. *)
Definition reuse_existing (key : string) (w : World) : option Output :=
  match s3 w !! key with
  | Some (JDict case_data) =>
      match dget_or "overall" (JDict []) case_data with
      | JDict ov =>
          match coerce_float (dget_or "pass_rate" (JFloat 0) ov) with
          | Ok pass_rate =>
              Some {| caseData := JDict case_data; caseKey := key;
                      passRate := pass_rate; hasVulnerability := None;
                      callAnalytics := None |}
          | Raise _ => None
          end
      | _ => None
      end
  | _ => None
  end.

(** The first content block with a [toolUse] key. *)
Fixpoint first_tool_use (blocks : list dict) : option json :=
  match blocks with
  | [] => None
  | block :: rest =>
      match dget "toolUse" block with
      | Some v => Some v
      | None => first_tool_use rest
      end
  end.

(** [tool_use_block["input"]], which must then support [setdefault]. *)
Definition tool_input (tool_use_block : json) : res dict :=
  match tool_use_block with
  | JDict t =>
      match dget "input" t with
      | Some (JDict validated_json) => Ok validated_json
      | Some _ => Raise AttributeError
      | None => Raise KeyError
      end
  | _ => Raise TypeError
  end.

Definition inject_metadata (K : Constants) (the_meeting : string)
    (validated_json : dict) : dict :=
  setdefault "prompt_version" (JStr (PROMPT_VERSION K))
    (setdefault "model_version" (JStr (MODEL_VERSION K))
      (setdefault "meeting_id" (JStr the_meeting)
        (setdefault "checklist_version" (JStr "1")
          (setdefault "session_type" (JStr "starter_session")
            (setdefault "check_schema_version"
               (JStr (CASE_CHECK_SCHEMA_VERSION K)) validated_json))))).

(** Lines 737-763: a [results] field that came back as a string. *)
Definition unstringify (E : Env) (validated_json : dict) : res dict :=
  match dget "results" validated_json with
  | Some (JStr _) => parse_stringified E validated_json
  | _ => Ok validated_json
  end.

(** [_save_checks_to_assessment_table], with items reduced to the check
    id, the status, the theme and the detailed-assessment flag, and the
    overall item to the triage outcome, the failed ids and the flags of
    [overall].  Everything runs inside one [try]: when [float] rejects the
    stored pass rate the overall item is not written and no error leaves
    the function. *)
Definition check_item (th : gmap string string) (r : dict) : json :=
  let check := dget_or "id" JNull r in
  let failed := is_str "Fail" (dget "status" r) in
  JDict [("check_id", check);
         ("result", dget_or "status" JNull r);
         ("theme", JStr (match check with
                         | JStr i => default "businessRisk" (th !! i)
                         | _ => "businessRisk"
                         end));
         ("has_detailed_assessment",
          JBool (is_str "vulnerability_identified" (Some check) && failed))].

Definition put_check (the_meeting : string) (th : gmap string string)
    (tbl : gmap (string * string) json) (r : json)
  : gmap (string * string) json :=
  match r with
  | JDict d =>
      match dget "id" d with
      | Some (JStr (String _ _ as i)) =>
          <[(the_meeting, "case-check#" ++ i) := check_item th d]> tbl
      | _ => tbl
      end
  | _ => tbl
  end.

Definition failed_ids_of (rs : list json) : list json :=
  flat_map (fun r =>
              match r with
              | JDict d =>
                  match dget "id" d with
                  | Some (JStr (String _ _ as i)) =>
                      if is_str "Fail" (dget "status" d) then [JStr i] else []
                  | _ => []
                  end
              | _ => []
              end) rs.

Definition save_checks_to_assessment_table (the_meeting : string)
    (case_data : dict) (tbl : gmap (string * string) json)
  : gmap (string * string) json :=
  let rs := match dget_or "results" (JList []) case_data with
            | JList l => l
            | _ => []
            end in
  let tbl1 :=
    fold_left (put_check the_meeting (theme_by_id STARTER_SESSION_CHECKS))
      rs tbl in
  match dget_or "overall" (JDict []) case_data with
  | JDict ov =>
      match coerce_float (dget_or "pass_rate" (JFloat 0) ov) with
      | Ok pass_rate =>
          let failed := failed_ids_of rs in
          <[(the_meeting, "case-check#overall") :=
              JDict [("triage_outcome",
                      JStr (match failed with [] => "Pass" | _ => "Fail" end));
                     ("pass_rate", JFloat pass_rate);
                     ("failed_ids", JList failed);
                     ("has_high_severity_failures",
                      dget_or "has_high_severity_failures" (JBool false) ov);
                     ("high_severity_flags",
                      dget_or "high_severity_flags" (JList []) ov)]]> tbl1
      | Raise _ => tbl1
      end
  | _ => tbl1
  end.

(** [_save_case_json(meeting_id, payload)]: the key is built from the clock
    read at that moment. *)
Definition save_case_json (K : Constants) (E : Env) (the_meeting : string)
    (payload : dict) (objects : gmap string json)
  : string * gmap string json :=
  let key := case_key K (now_save E) the_meeting in
  (key, <[key := JDict payload]> objects).

(** Lines 707-918: from the classifier's reply to the returned dict. *)
Definition after_response (K : Constants) (E : Env) (the_meeting : string)
    (full_transcript : string) (call_analytics : json) (resp : Response)
    (w : World) : World * res Output :=
  match first_tool_use (content resp) with
  | None => (w, Raise ValueError)
  | Some tool_use_block =>
      if negb (truthy tool_use_block) then (w, Raise ValueError)
      else if String.eqb (stopReason resp) "max_tokens"
      then (w, Raise ValueError)
      else
        let prepared :=
          let* validated_json := tool_input tool_use_block in
          let* validated_json :=
            unstringify E (inject_metadata K the_meeting validated_json) in
          let* validated_json := fill_overall STARTER_SESSION_CHECKS validated_json in
          let* validated_json := resolve_evidence full_transcript validated_json in
          model_validate E (JDict validated_json) in
        match prepared with
        | Raise e => (w, Raise e)
        | Ok parsed =>
            let '(data, vulnerable) :=
              finalise STARTER_SESSION_CHECKS the_meeting (MODEL_VERSION K)
                (PROMPT_VERSION K) call_analytics parsed in
            let '(key, objects) := save_case_json K E the_meeting data (s3 w) in
            let w' :=
              {| s3 := objects;
                 assessment_table :=
                   save_checks_to_assessment_table the_meeting data
                     (assessment_table w);
                 classifications := classifications w |} in
            match dget_or "overall" (JDict []) data with
            | JDict ov =>
                match coerce_float (dget_or "pass_rate" (JFloat 0) ov) with
                | Ok pass_rate =>
                    (w', Ok {| caseData := JDict data; caseKey := key;
                               passRate := pass_rate;
                               hasVulnerability := Some vulnerable;
                               callAnalytics := Some call_analytics |})
                | Raise e => (w', Raise e)
                end
            | _ => (w', Raise AttributeError)
            end
        end
  end.

(** Lines 613-633: the analytics of the event when [callMetrics] is
    truthy, the locally computed ones otherwise.  The log call that follows
    the choice reads [call_analytics.get('total_words', 0)]: a truthy
    [callMetrics] that is not a dict has no [get] and raises
    [AttributeError]. *)
Definition choose_analytics (E : Env) (event : Event)
    (transcript_key full_transcript : string) : res json :=
  match callMetrics event with
  | Some m =>
      if truthy m then
        match m with
        | JDict _ => Ok m
        | _ => Raise AttributeError
        end
      else Ok (local_analytics E transcript_key full_transcript)
  | None => Ok (local_analytics E transcript_key full_transcript)
  end.

(** Lines 610-705: fetch the transcript, choose the analytics, call the
    classifier. *)
Definition classify_and_save (K : Constants) (E : Env) (event : Event)
    (transcript_key the_meeting : string) (w : World) : World * res Output :=
  match get_transcript E transcript_key with
  | Raise e => (w, Raise e)
  | Ok full_transcript =>
      match choose_analytics E event transcript_key full_transcript with
      | Raise e => (w, Raise e)
      | Ok call_analytics =>
          match prompt_arn E with
          | None => (w, Raise ValueError)
          | Some (String _ _) =>
              let w1 := {| s3 := s3 w; assessment_table := assessment_table w;
                           classifications := S (classifications w) |} in
              match invoke E full_transcript with
              | Raise e => (w1, Raise e)
              | Ok resp =>
                  after_response K E the_meeting full_transcript call_analytics
                    resp w1
              end
          | Some EmptyString => (w, Raise ValueError)
          end
      end
  end.

(** [lambda_handler(event, context)] of the case-check step. *)
Definition lambda_handler (K : Constants) (E : Env) (event : Event)
    (w : World) : World * res Output :=
  match redactedTranscriptKey event with
  | Some (String _ _ as transcript_key) =>
      match meetingId event with
      | Some (String _ _ as the_meeting) =>
          let key := case_key K (now_check E) the_meeting in
          match (if forceReprocess event then None else reuse_existing key w) with
          | Some out => (w, Ok out)
          | None => classify_and_save K E event transcript_key the_meeting w
          end
      | _ => (w, Raise ValueError)
      end
  | _ => (w, Raise ValueError)
  end.

(** ** [initiate_case_check]: the completed-check fast path *)

(** [s.upper()] on the letters a..z.  No other character below 256 has an
    upper-case form among A..Z, so comparing the result with an upper-case
    ASCII word is not affected by the characters left alone here. *)
Definition upper_char (c : ascii) : ascii :=
  if Py.in_range 97 122 c then ascii_of_nat (Py.code c - 32) else c.

Fixpoint upper (s : string) : string :=
  match s with
  | EmptyString => EmptyString
  | String c s' => String (upper_char c) (upper s')
  end.

(** [s.endswith(suffix)] *)
Fixpoint ends_with (suffix s : string) : bool :=
  String.eqb s suffix
  || match s with
     | EmptyString => false
     | String _ s' => ends_with suffix s'
     end.

(** [_check_s3_case_check_completion]: some key of the bucket ends with
    [/{meeting_id}/case_check.v{schema}.json]. *)
Definition check_s3_case_check_completion (K : Constants)
    (objects : gmap string json) (the_meeting : string) : bool :=
  existsb (ends_with ("/" ++ the_meeting ++ "/case_check.v"
                      ++ CASE_CHECK_SCHEMA_VERSION K ++ ".json"))
          (map fst (map_to_list objects)).

(** [_get_existing_case_check(meeting_id)].  [sam_local] tells whether
    [AWS_SAM_LOCAL] is ["true"]; [jobs] is the job table, [None] when
    DynamoDB cannot be read; an item is a dict.  A failure inside the
    [try], including a pass rate that [float] rejects, leads to the
    [except] branch: [None] under SAM local, the lookup in the bucket
    otherwise. *)
Definition get_existing_case_check (K : Constants) (sam_local : bool)
    (jobs : option (gmap string dict)) (objects : gmap string json)
    (the_meeting : string) : option dict :=
  let fallback :=
    if sam_local then None
    else if check_s3_case_check_completion K objects the_meeting
    then Some [("caseCheckStatus", JStr "COMPLETED");
               ("caseCheckKey", JStr "found_in_s3");
               ("casePassRate", JFloat 0)]
    else None in
  match jobs with
  | None => fallback
  | Some table =>
      let item := match table !! the_meeting with
                  | Some it => it
                  | None => []
                  end in
      let status_value := dget_or "caseCheckStatus" JNull item in
      match (if truthy status_value then status_value else JStr "") with
      | JStr st =>
          let case_check_status := upper st in
          let key_value := dget_or "caseCheckKey" JNull item in
          if String.eqb case_check_status "COMPLETED" && truthy key_value
          then
            match coerce_float (dget_or "casePassRate" (JFloat 0) item) with
            | Ok rate =>
                Some [("caseCheckStatus", JStr case_check_status);
                      ("caseCheckKey", key_value);
                      ("casePassRate", JFloat rate)]
            | Raise _ => fallback
            end
          else None
      | _ => fallback
      end
  end.

(** Lines 94-122 of the initiating handler: [Some body] is the body of the
    200 response it returns at once; with [None] it goes on to mark the
    meeting QUEUED and to start the workflow. *)
Definition completed_fast_path (K : Constants) (sam_local : bool)
    (jobs : option (gmap string dict)) (objects : gmap string json)
    (the_meeting : string) (force_reprocess : bool) : option dict :=
  if force_reprocess then None
  else
    match get_existing_case_check K sam_local jobs objects the_meeting with
    | Some existing_data =>
        let case_check_key := dget_or "caseCheckKey" JNull existing_data in
        let case_check_full_data :=
          match case_check_key with
          | JStr k =>
              if Py.nonempty k && negb (String.eqb k "found_in_s3")
              then objects !! k else None
          | _ => None
          end in
        let response_data :=
          [("message", JStr "Case check already completed");
           ("meetingId", JStr the_meeting);
           ("caseCheckKey", case_check_key);
           ("casePassRate", dget_or "casePassRate" JNull existing_data);
           ("caseCheckStatus", dget_or "caseCheckStatus" JNull existing_data);
           ("completed", JBool true)] in
        Some (match case_check_full_data with
              | Some data => if truthy data
                             then dset "data" data response_data
                             else response_data
              | None => response_data
              end)
    | None => None
    end.

(** ** Values used to state the properties *)

(** The number written by a string of decimal digits. *)
Fixpoint num_from (acc : Z) (s : string) : Z :=
  match s with
  | EmptyString => acc
  | String c s' => num_from (acc * 10 + Py.digit_value c) s'
  end.

Definition num (s : string) : Z := num_from 0 s.

(** A non-empty string of decimal digits. *)
Definition is_digits (s : string) : bool :=
  Py.nonempty s && Py.all_chars Py.is_decimal s.

(** The value of the decimal literal [whole.frac]. *)
Definition decimal_value (whole frac : string) : Q :=
  (inject_Z (num whole * 10 ^ Z.of_nat (String.length frac) + num frac)
   / inject_Z (10 ^ Z.of_nat (String.length frac)))%Q.

Definition is_sep (c : ascii) : bool := Re.any_of ["."; ","]%char c.

(** The text [h:m:sec<sep>frac] of a cue timestamp. *)
Definition stamp_text (h m sec : string) (sep : ascii) (frac : string) : string :=
  h ++ String ":" (m ++ String ":" (sec ++ String sep frac)).

(** What the pattern of one timestamp accepts: one or two digits, two
    digits, two digits, a period or a comma, and at least one digit. *)
Definition is_stamp (g : string) : Prop :=
  exists h m sec sep frac,
    g = stamp_text h m sec sep frac
    /\ is_digits h = true /\ (String.length h <= 2)%nat
    /\ is_digits m = true /\ String.length m = 2%nat
    /\ is_digits sec = true /\ String.length sec = 2%nat
    /\ is_sep sep = true /\ is_digits frac = true.

(** The lines the scan works on. *)
Definition caption_lines (content : string) : list string :=
  Py.split_on nl (Py.replace_char cr nl (Py.replace_crlf content)).

Definition is_cue_line (l : string) : bool := is_cue (Py.strip l).

(** A line that can be part of the text of a cue. *)
Definition is_text_line (l : string) : bool := negb (ends_text (Py.strip l)).

(** The number of well-formed cue blocks among the lines: a line holding a
    timestamp range that is directly followed by a text line. *)
Fixpoint cue_blocks (lines : list string) : nat :=
  match lines with
  | l :: rest =>
      ((match rest with
        | t :: _ => if is_cue_line l && is_text_line t then 1 else 0
        | [] => 0
        end) + cue_blocks rest)%nat
  | [] => 0%nat
  end.

(** The text lines at the head of a list of lines, and what follows them. *)
Fixpoint text_run (ls : list string) : list string :=
  match ls with
  | t :: ls' => if is_text_line t then Py.strip t :: text_run ls' else []
  | [] => []
  end.

Fixpoint after_text (ls : list string) : list string :=
  match ls with
  | t :: ls' => if is_text_line t then after_text ls' else ls
  | [] => []
  end.

(** The text before the first colon of a string and the text after it. *)
Fixpoint split_colon (s : string) : option (string * string) :=
  match s with
  | EmptyString => None
  | String c s' =>
      if Ascii.eqb c ":" then Some ("", s')
      else match split_colon s' with
           | Some (a, b) => Some (String c a, b)
           | None => None
           end
  end.

Definition not_newline (c : ascii) : bool := negb (Ascii.eqb c nl).

(** No name token: no colon at all, or fewer than 2 or more than 50
    characters before the first colon. *)
Definition no_name_token (text : string) : bool :=
  match split_colon text with
  | Some (name, _) =>
      (String.length name <? 2)%nat || (50 <? String.length name)%nat
  | None => true
  end.

(** The triage rules in the words of the specification. *)
Definition is_failed (r : json) : bool :=
  match r with
  | JDict d => is_str "Fail" (dget "status" d)
  | _ => false
  end.

Definition id_of (r : json) : json :=
  match r with
  | JDict d => dget_or "id" (JStr "") d
  | _ => JStr ""
  end.

(** The ids of the results whose status is ["Fail"], in result order. *)
Definition failed_ids_spec (results_list : list json) : list json :=
  map id_of (List.filter is_failed results_list).

(** The severity of an id, ["low"] when the checklist does not have it. *)
Definition severity_or_low (checks : list ChecklistItem) (i : json) : string :=
  match i with
  | JStr s => default "low" (severity_by_id checks !! s)
  | _ => "low"
  end.

(** The failed ids whose checklist item has severity ["high"]. *)
Definition high_flags_spec (checks : list ChecklistItem) (failed : list json)
  : list json :=
  List.filter (fun i => String.eqb (severity_or_low checks i) "high") failed.

(** [passed / total * 100] as binary64 computes it: the quotient of the
    two integers is rounded to a float, and so is its product with 100. *)
Definition float_percentage (passed total : Z) : Q :=
  rnd64 (rnd64 (inject_Z passed / inject_Z total) * 100).

(** [round((total - failed) / total * 100, 1)] in binary64, and [0.0] for
    no checks. *)
Definition float_pass_rate (total failed : nat) : Q :=
  if (total =? 0)%nat then 0%Q
  else py_round1 (float_percentage (Z.of_nat total - Z.of_nat failed)
                    (Z.of_nat total)).

(** Half the spacing of the floats below 128 is at most [2^-46]. *)
Definition half_ulp : Q := 1 # 70368744177664.

(** The distance from a tie between two tenths within which the float
    computation of a percentage may round the other way: [2^-36] of a
    tenth. *)
Definition tie_margin : Q := 1 # 68719476736.

(** [failed] results with status ["Fail"] followed by [passed] results
    with status ["Competent"]. *)
Definition many_results (failed passed : nat) : list json :=
  (repeat (JDict [("id", JStr "a"); ("status", JStr "Fail")]) failed
   ++ repeat (JDict [("id", JStr "b"); ("status", JStr "Competent")]) passed)%list.

(** [round(100 * (total - failed) / total, 1)] on the exact quotient, and
    [0.0] for no checks. *)
Definition pass_rate_spec (total failed : nat) : Q :=
  if (total =? 0)%nat then 0%Q
  else py_round1 (100 * (inject_Z (Z.of_nat total - Z.of_nat failed))
                  / inject_Z (Z.of_nat total))%Q.

(** A value that can be a dict key. *)
Definition hashable (v : json) : bool :=
  match v with JList _ | JDict _ => false | _ => true end.

(** The spans that are kept, in the words of the specification: every
    two-element list whose elements both coerce to integers, coerced. *)
Definition kept_spans_spec (spans : list json) : list json :=
  flat_map (fun span =>
              match valid_span span with Some v => [v] | None => [] end)
           spans.

(** The checklist and the results of the triage example of the
    specification. *)
Definition two_checks : list ChecklistItem :=
  [chk "a" true "high" "businessRisk"; chk "b" true "low" "businessRisk"].

Definition triage_results : list json :=
  [JDict [("id", JStr "a"); ("status", JStr "Fail"); ("severity", JStr "high")];
   JDict [("id", JStr "b"); ("status", JStr "Competent")]].

Definition triage_input : dict := [("results", JList triage_results)].

(** ** A concrete setting for examples *)

Fixpoint unique_ids (ids : list string) : bool :=
  match ids with
  | [] => true
  | i :: rest => negb (existsb (String.eqb i) rest) && unique_ids rest
  end.

(** Validation of a payload that needs no coercion: every field already
    has the type the model declares. *)
Definition status_of_name (s : string) : res Status :=
  if String.eqb s "Competent" then Ok Competent
  else if String.eqb s "CompetentWithDevelopment" then Ok CompetentWithDevelopment
  else if String.eqb s "Fail" then Ok Fail
  else if String.eqb s "NotApplicable" then Ok NotApplicable
  else if String.eqb s "Inconclusive" then Ok Inconclusive
  else Raise PydanticValidationError.

Definition str_field (k : string) (d : dict) : res string :=
  match dget k d with
  | Some (JStr s) => Ok s
  | _ => Raise PydanticValidationError
  end.

Definition opt_str_field (k : string) (d : dict) : res (option string) :=
  match dget k d with
  | Some (JStr s) => Ok (Some s)
  | Some JNull => Ok None
  | None => Ok (Some "")
  | _ => Raise PydanticValidationError
  end.

Definition span_of (v : json) : res (Z * Z) :=
  match v with
  | JList [JInt a; JInt b] => Ok (a, b)
  | _ => Raise PydanticValidationError
  end.

Definition strict_result (v : json) : res CaseCheckResult :=
  match v with
  | JDict d =>
      let* i := str_field "id" d in
      let* st := str_field "status" d in
      let* st := status_of_name st in
      let* cf := match dget "confidence" d with
                 | Some (JFloat q) => Ok q
                 | Some (JInt z) => Ok (inject_Z z)
                 | _ => Raise PydanticValidationError
                 end in
      let* sp := match dget "evidence_spans" d with
                 | Some (JList l) => map_res span_of l
                 | None => Ok []
                 | _ => Raise PydanticValidationError
                 end in
      let* q := opt_str_field "evidence_quote" d in
      let* c := opt_str_field "comment" d in
      Ok {| id := i; status := st; confidence := cf; evidence_spans := sp;
            evidence_quote := q; comment := c |}
  | _ => Raise PydanticValidationError
  end.

Definition strict_validate (v : json) : res CaseCheckPayload :=
  match v with
  | JDict d =>
      let* a := str_field "check_schema_version" d in
      let* b := str_field "session_type" d in
      let* c := str_field "checklist_version" d in
      let* m := str_field "meeting_id" d in
      let* mv := str_field "model_version" d in
      let* pv := str_field "prompt_version" d in
      let* rs := match dget "results" d with
                 | Some (JList l) => map_res strict_result l
                 | _ => Raise PydanticValidationError
                 end in
      let* ov := match dget "overall" d with
                 | Some (JDict o) => Ok o
                 | _ => Raise PydanticValidationError
                 end in
      Ok {| check_schema_version := a; session_type := b;
            checklist_version := c; meeting_id := m; model_version := mv;
            prompt_version := pv; results := rs; overall := ov |}
  | _ => Raise PydanticValidationError
  end.

Definition demo_constants : Constants :=
  {| S3_PREFIX := "summaries"; SCHEMA_VERSION := "1.2";
     CASE_CHECK_SCHEMA_VERSION := "1.0"; ATHENA_PARTITIONED := true;
     MODEL_VERSION := "model-a"; PROMPT_VERSION := "prompt-1" |}.

Definition demo_transcript : string :=
  "COACH: this call is recorded. CLIENT: fine. COACH: our fee is 299 pounds.".

(** A classifier reply with one tool-use block. *)
Definition reply (results_list : list json) (stop : string) : Response :=
  {| content := [[("toolUse", JDict [("input", JDict [("results", JList results_list)])])]];
     stopReason := stop |}.

Definition a_result (i st quote : string) : json :=
  JDict [("id", JStr i); ("status", JStr st); ("confidence", JFloat 0.9);
         ("evidence_quote", JStr quote); ("evidence_spans", JList []);
         ("comment", JStr "ok")].

Definition first_reply : Response :=
  reply [a_result "call_recording_confirmed" "Competent" "this call is recorded";
         a_result "fees_charges_explained" "Competent" "our fee is 299 pounds"]
        "tool_use".

Definition second_reply : Response :=
  reply [a_result "call_recording_confirmed" "Competent" "this call is recorded";
         a_result "fees_charges_explained" "Fail" ""]
        "tool_use".

(** A reply whose [overall] carries a pass rate that is not a number. *)
Definition unread_rate_reply : Response :=
  {| content :=
       [[("toolUse",
          JDict [("input",
                  JDict [("results",
                          JList [a_result "call_recording_confirmed" "Competent"
                                   "this call is recorded"]);
                         ("overall", JDict [("pass_rate", JStr "n/a")])])])]];
     stopReason := "tool_use" |}.

Definition truncated_reply : Response :=
  reply [a_result "call_recording_confirmed" "Competent" "this call is recorded"]
        "max_tokens".

Definition demo_env (ym : Z * Z) (resp : Response) : Env :=
  {| now_check := ym; now_save := ym;
     get_transcript := fun _ => Ok demo_transcript;
     local_analytics := fun _ _ => JDict [("total_words", JInt 14)];
     prompt_arn := Some "arn:prompt/case-check";
     invoke := fun _ => Ok resp;
     parse_stringified := fun d => Ok d;
     model_validate := strict_validate |}.

Definition demo_event (force : bool) : Event :=
  {| redactedTranscriptKey := Some "summaries/t/redacted_transcript.txt";
     meetingId := Some "m-42"; forceReprocess := force; callMetrics := None |}.

Definition empty_world : World :=
  {| s3 := ∅; assessment_table := ∅; classifications := 0 |}.

(** ** Further notions used to state the properties *)

Definition not_space (c : ascii) : bool := negb (Py.isspace c).

Definition no_colon (c : ascii) : bool := negb (Ascii.eqb c ":").

(** Reading a digit group stops at the first character that is neither a
    digit nor an underscore. *)
Definition stops (rest : string) : Prop :=
  match rest with
  | EmptyString => True
  | String c _ => Py.is_decimal c = false /\ Ascii.eqb c "_" = false
  end.




(** Where a segment comes from: a line whose stripped text matches the cue
    pattern, and the values of its two timestamps. *)
Definition from_cue (lines : list string) (seg : segment) : Prop :=
  exists l g1 g2,
    In l lines
    /\ Re.rmatch timestamp_pattern (Py.strip l) = Some [g1; g2]
    /\ parse_timestamp g1 = Ok (Finite (fst (fst seg)))
    /\ parse_timestamp g2 = Ok (Finite (snd (fst seg))).

(** The well-formed cue blocks among the lines, in their order: each line
    holding a timestamp range that is directly followed by a text line,
    with the run of text lines that follows it. *)
Fixpoint cue_block_list (lines : list string) : list (string * list string) :=
  match lines with
  | l :: rest =>
      match rest with
      | t :: _ =>
          if is_cue_line l && is_text_line t
          then (l, text_run rest) :: cue_block_list rest
          else cue_block_list rest
      | [] => []
      end
  | [] => []
  end.

(** The value that a cue timestamp writes: hours, minutes, and seconds with
    their fraction. *)
Definition reads_as (g : string) (v : Q) : Prop :=
  exists h m sec sep frac,
    g = stamp_text h m sec sep frac
    /\ is_digits h = true /\ is_digits m = true /\ is_digits sec = true
    /\ is_sep sep = true /\ is_digits frac = true
    /\ (v == inject_Z (num h * 3600) + inject_Z (num m * 60)
             + decimal_value sec frac)%Q.

(** The two timestamps of a cue line: the stripped line starts with the
    first, an arrow follows with optional white space around it, then the
    second; they are the two groups that the cue pattern captures. *)
Definition cue_stamps (l g1 g2 : string) : Prop :=
  Re.rmatch timestamp_pattern (Py.strip l) = Some [g1; g2]
  /\ exists ws1 ws2 tail,
       Py.strip l = g1 ++ ws1 ++ "-->" ++ ws2 ++ g2 ++ tail
       /\ Py.all_chars Py.isspace ws1 = true
       /\ Py.all_chars Py.isspace ws2 = true.

(** A segment and the cue block it is made from: its times are the values
    of the two timestamps of the cue line, in the order written, and its
    text is the text lines of the block joined by spaces. *)
Definition segment_of_block (block : string * list string) (seg : segment)
  : Prop :=
  exists g1 g2,
    cue_stamps (fst block) g1 g2
    /\ parse_timestamp g1 = Ok (Finite (fst (fst seg)))
    /\ reads_as g1 (fst (fst seg))
    /\ parse_timestamp g2 = Ok (Finite (snd (fst seg)))
    /\ reads_as g2 (snd (fst seg))
    /\ snd block <> []
    /\ snd seg = Py.join_space (snd block)
    /\ snd seg <> "".

Definition fails_high (sev : gmap string string) (r : CaseCheckResult) : bool :=
  status_eqb (status r) Fail && is_high sev (id r).

Definition shows_vulnerability (r : CaseCheckResult) : bool :=
  String.eqb (id r) "vulnerability_identified"
  && (status_eqb (status r) Competent || status_eqb (status r) Fail).

(** What a successful pass through the classification path has done. *)
Definition processed (K : Constants) (E : Env) (the_meeting : string)
    (call_analytics : json) (w w' : World) (out : Output) : Prop :=
  exists parsed data vulnerable ov,
    finalise STARTER_SESSION_CHECKS the_meeting (MODEL_VERSION K)
      (PROMPT_VERSION K) call_analytics parsed = (data, vulnerable)
    /\ caseData out = JDict data
    /\ caseKey out = case_key K (now_save E) the_meeting
    /\ hasVulnerability out = Some vulnerable
    /\ callAnalytics out = Some call_analytics
    /\ dget_or "overall" (JDict []) data = JDict ov
    /\ coerce_float (dget_or "pass_rate" (JFloat 0) ov) = Ok (passRate out)
    /\ s3 w' = <[caseKey out := caseData out]> (s3 w)
    /\ classifications w' = classifications w.

(** The ways in which the handler can end. *)
Inductive ending (K : Constants) (E : Env) (event : Event) (w : World)
  : World -> res Output -> Prop :=
| Rejected : forall e,
    ending K E event w w (Raise e)
| Reused : forall the_meeting out,
    meetingId event = Some the_meeting ->
    forceReprocess event = false ->
    reuse_existing (case_key K (now_check E) the_meeting) w = Some out ->
    ending K E event w w (Ok out)
| Failed : forall full_transcript w' e,
    invoke E full_transcript = Raise e ->
    s3 w' = s3 w -> assessment_table w' = assessment_table w ->
    classifications w' = S (classifications w) ->
    ending K E event w w' (Raise e)
| Answered : forall transcript_key the_meeting full_transcript call_analytics resp w1 w' r,
    redactedTranscriptKey event = Some transcript_key ->
    meetingId event = Some the_meeting ->
    (forceReprocess event = true
     \/ reuse_existing (case_key K (now_check E) the_meeting) w = None) ->
    invoke E full_transcript = Ok resp ->
    s3 w1 = s3 w -> assessment_table w1 = assessment_table w ->
    classifications w1 = S (classifications w) ->
    after_response K E the_meeting full_transcript call_analytics resp w1
    = (w', r) ->
    ending K E event w w' r.


Definition no_output : Output :=
  {| caseData := JNull; caseKey := ""; passRate := 0;
     hasVulnerability := None; callAnalytics := None |}.

Definition output_of (r : res Output) : Output :=
  match r with Ok o => o | Raise _ => no_output end.

Definition vulnerable_reply (st : string) : Response :=
  reply [a_result "vulnerability_identified" st "fine"] "tool_use".

(** One run on the empty stores, in January 2026. *)
Definition run_with (resp : Response) : World * res Output :=
  lambda_handler demo_constants (demo_env (2026, 1) resp) (demo_event false)
    empty_world.

Ltac by_char c :=
  destruct c as [[] [] [] [] [] [] [] []]; vm_compute in *;
  repeat split; congruence.

(** ** Further code of the three Lambda sources *)


(** ** Speaker labels of the normalised transcript *)

(** [x > 0] for a float. *)
Definition positive (x : Q) : bool := negb (Qle_bool x 0).

(** An [int] used as a float. *)
Definition Q_of_nat (n : nat) : Q := inject_Z (Z.of_nat n).

(** The characters of a literal word, one after the other. *)
Definition word (s : string) : re := seq (map Lit (list_ascii_of_string s)).

(** One alternative of the label pattern, which is [^(COACH|CLIENT):\s*]
    followed by a greedy dot-star group and [$]: the label as first group,
    a colon, [\s*], the rest of the line as second group, and [$]. *)
Definition label_pattern (label : string) : re :=
  seq [Grp (word label); Lit ":"; Rep Py.isspace 0 None;
       Grp (Rep (fun c => negb (Ascii.eqb c nl)) 0 None); Eos].

(** [re.match] of the label pattern on a line: the engine tries the first
    alternative with all that follows it, then the second. *)
Definition label_match (line : string) : option (list string) :=
  match rmatch (label_pattern "COACH") line with
  | Some groups => Some groups
  | None => rmatch (label_pattern "CLIENT") line
  end.

(** ** [case_check]: local call analytics *)

Module Analytics.

(** [re.findall(r, s)] for a pattern with one group.  The text is scanned
    from the left; at a position where the pattern matches, the group of the
    first match is kept and the scan resumes where the match ended (one
    character further after an empty match); elsewhere it moves on by one
    character.  [skip] counts the characters still covered by the last
    match. *)
Fixpoint findall_from (r : re) (skip : nat) (s : string) : list string :=
  match skip with
  | S k =>
      match s with
      | String _ s' => findall_from r k s'
      | EmptyString => []
      end
  | O =>
      match run r s with
      | m :: _ =>
          nth 0 (fst m) ""
          :: match s with
             | String _ s' =>
                 findall_from r
                   (String.length s - String.length (snd m) - 1) s'
             | EmptyString => []
             end
      | [] =>
          match s with
          | String _ s' => findall_from r 0 s'
          | EmptyString => []
          end
      end
  end.

Definition findall (r : re) (s : string) : list string := findall_from r 0 s.

(** [-->\s*(\d{1,2}:\d{2}:\d{2}[.,]\d+)] *)
Definition end_stamp_pattern : re :=
  seq [Lit "-"; Lit "-"; Lit ">"; Rep Py.isspace 0 None; Grp stamp_re].

(** Lines 113-123: the seconds of the last timestamp. *)
Definition stamp_seconds (ts : string) : res Q :=
  let last_ts := Py.replace_char "," "." ts in
  let parts := Py.split_on ":" last_ts in
  match parts with
  | [h; m; s] =>
      let* h' := py_int h in
      let* m' := py_int m in
      let* s' := py_float s in
      Ok (inject_Z (h' * 3600) + inject_Z (m' * 60) + s')%Q
  | [m; s] =>
      let* m' := py_int m in
      let* s' := py_float s in
      Ok (inject_Z (m' * 60) + s')%Q
  | _ => Ok 0%Q
  end.

(** [get_vtt_duration(vtt_content)] of the case-check source. *)
Definition get_vtt_duration (vtt_content : option string) : res Q :=
  match vtt_content with
  | None => Ok 0%Q
  | Some EmptyString => Ok 0%Q
  | Some content =>
      let content := Py.replace_char cr nl (Py.replace_crlf content) in
      let timestamps := findall end_stamp_pattern content in
      match last timestamps with
      | None => Ok 0%Q
      | Some last_ts => stamp_seconds last_ts
      end
  end.

(** The counters of the loop over the transcript lines;
    [last_speaker_type] is [None] before the first labelled line. *)
Record tally := {
  t_coach_words : nat;
  t_client_words : nat;
  t_coach_turns : nat;
  t_client_turns : nat;
  last_speaker_type : option string
}.

Definition no_tally : tally :=
  {| t_coach_words := 0; t_client_words := 0; t_coach_turns := 0; t_client_turns := 0;
     last_speaker_type := None |}.

Definition last_is (label : string) (t : tally) : bool :=
  match last_speaker_type t with
  | Some l => String.eqb l label
  | None => false
  end.

(** The body of [for line in lines]. *)
Definition count_line (t : tally) (line : string) : tally :=
  let line := Py.strip line in
  if negb (Py.nonempty line) then t
  else
    match label_match line with
    | Some groups =>
        let speaker := nth 0 groups "" in
        let text := Py.strip (nth 1 groups "") in
        let wc := word_count text in
        if String.eqb speaker "COACH" then
          {| t_coach_words := t_coach_words t + wc;
             t_client_words := t_client_words t;
             t_coach_turns := if last_is "COACH" t then t_coach_turns t
                            else t_coach_turns t + 1;
             t_client_turns := t_client_turns t;
             last_speaker_type := Some "COACH" |}
        else
          {| t_coach_words := t_coach_words t;
             t_client_words := t_client_words t + wc;
             t_coach_turns := t_coach_turns t;
             t_client_turns := if last_is "CLIENT" t then t_client_turns t
                             else t_client_turns t + 1;
             last_speaker_type := Some "CLIENT" |}
    | None => t
    end.

Definition count_lines (transcript : string) : tally :=
  fold_left count_line (Py.split_on nl transcript) no_tally.

(** The dict returned by [calculate_call_analytics]. *)
Record analytics := {
  total_duration_sec : Q;
  total_duration_min : Q;
  total_words : nat;
  coach_words : nat;
  client_words : nat;
  total_words_per_min : Q;
  coach_words_per_min : Q;
  client_words_per_min : Q;
  coach_talk_ratio : Q;
  client_talk_ratio : Q;
  total_turns : nat;
  coach_turns : nat;
  client_turns : nat;
  coach_avg_words_per_turn : Q;
  client_avg_words_per_turn : Q
}.

(** [calculate_call_analytics(transcript, vtt_content)].  Every division
    stands under the test of the source that its divisor is positive. *)
Definition calculate_call_analytics (transcript : string)
    (vtt_content : option string) : res analytics :=
  let t := count_lines transcript in
  let total_words := (t_coach_words t + t_client_words t)%nat in
  let total_turns := (t_coach_turns t + t_client_turns t)%nat in
  let* total_duration_sec :=
    match vtt_content with
    | Some (String _ _) => get_vtt_duration vtt_content
    | _ => Ok 0%Q
    end in
  let total_duration_min :=
    if positive total_duration_sec then (total_duration_sec / 60)%Q else 0%Q in
  let ratio (n : nat) : Q :=
    if (0 <? total_words)%nat
    then py_round1 (Q_of_nat n / Q_of_nat total_words * 100)
    else 0%Q in
  let per_turn (n turns : nat) : Q :=
    if (0 <? turns)%nat then py_round1 (Q_of_nat n / Q_of_nat turns) else 0%Q in
  let per_min (n : nat) : Q :=
    if positive total_duration_min
    then py_round1 (Q_of_nat n / total_duration_min) else 0%Q in
  Ok {| total_duration_sec := py_round1 total_duration_sec;
        total_duration_min := py_round1 total_duration_min;
        total_words := total_words;
        coach_words := t_coach_words t;
        client_words := t_client_words t;
        total_words_per_min := per_min total_words;
        coach_words_per_min := per_min (t_coach_words t);
        client_words_per_min := per_min (t_client_words t);
        coach_talk_ratio := ratio (t_coach_words t);
        client_talk_ratio := ratio (t_client_words t);
        total_turns := total_turns;
        coach_turns := t_coach_turns t;
        client_turns := t_client_turns t;
        coach_avg_words_per_turn :=
          per_turn (t_coach_words t) (t_coach_turns t);
        client_avg_words_per_turn :=
          per_turn (t_client_words t) (t_client_turns t) |}.

End Analytics.

(** ** [extract_metrics]: the metrics and their store *)

Module Metrics.

(** [if s] for an optional string: neither [None] nor empty. *)
Definition given (s : option string) : bool :=
  match s with Some (String _ _) => true | _ => false end.

(** [segments[-1][1] if segments else 0.0] *)
Definition last_end (segments : list segment) : Q :=
  match last segments with
  | Some seg => snd (fst seg)
  | None => 0%Q
  end.

(** [get_vtt_duration(vtt_content)] of the metrics source. *)
Definition get_vtt_duration (vtt_content : option string) : res Q :=
  if given vtt_content then
    let* segments := parse_vtt_segments vtt_content in
    Ok (last_end segments)
  else Ok 0%Q.

(** The dict returned by [extract_metrics]. *)
Record call_metrics := {
  total_duration_min : Q;
  coach_speaking_time_min : Q;
  client_speaking_time_min : Q;
  coach_speaking_pct : Q;
  client_speaking_pct : Q;
  coach_wpm : Q
}.

(** The body of the loop of the fallback over the transcript lines: the
    words of the coach and of the client counted so far. *)
Definition count_words_line (acc : nat * nat) (line : string) : nat * nat :=
  let line := Py.strip line in
  if negb (Py.nonempty line) then acc
  else
    match label_match line with
    | Some groups =>
        let speaker := nth 0 groups "" in
        let text := Py.strip (nth 1 groups "") in
        let wc := word_count text in
        if String.eqb speaker "COACH"
        then ((fst acc + wc)%nat, snd acc)
        else (fst acc, (snd acc + wc)%nat)
    | None => acc
    end.

(** [extract_metrics(transcript, vtt_content, coach_name)].  Every
    division by a computed quantity stands under the test of the source
    that the divisor is positive. *)
Definition extract_metrics (transcript : string)
    (vtt_content coach_name : option string) : res call_metrics :=
  let* vtt_segments :=
    if given vtt_content then parse_vtt_segments vtt_content else Ok [] in
  let total_duration_sec := last_end vtt_segments in
  let total_duration_min := (total_duration_sec / 60)%Q in
  if given vtt_content && given coach_name then
    let* timing := parse_vtt_with_speakers vtt_content coach_name in
    let coach_speaking_time_min := (coach_duration_sec timing / 60)%Q in
    let client_speaking_time_min := (client_duration_sec timing / 60)%Q in
    let total_speaking_time :=
      (coach_duration_sec timing + client_duration_sec timing)%Q in
    let pct (d : Q) : Q :=
      if positive total_speaking_time
      then py_round1 (d / total_speaking_time * 100) else 0%Q in
    Ok {| total_duration_min := py_round1 total_duration_min;
          coach_speaking_time_min := py_round1 coach_speaking_time_min;
          client_speaking_time_min := py_round1 client_speaking_time_min;
          coach_speaking_pct := pct (coach_duration_sec timing);
          client_speaking_pct := pct (client_duration_sec timing);
          coach_wpm :=
            if positive coach_speaking_time_min
            then py_round1 (Q_of_nat (coach_words timing)
                            / coach_speaking_time_min)
            else 0%Q |}
  else
    let counts :=
      fold_left count_words_line (Py.split_on nl transcript) (0%nat, 0%nat) in
    let coach_words := fst counts in
    let client_words := snd counts in
    let total_words := (coach_words + client_words)%nat in
    let share (n : nat) : Q := (Q_of_nat n / Q_of_nat total_words)%Q in
    let pct (n : nat) : Q :=
      if (0 <? total_words)%nat then py_round1 (share n * 100) else 0%Q in
    let time (n : nat) : Q :=
      if (0 <? total_words)%nat
      then py_round1 (share n * total_duration_min) else 0%Q in
    let coach_speaking_time_min := time coach_words in
    Ok {| total_duration_min := py_round1 total_duration_min;
          coach_speaking_time_min := py_round1 coach_speaking_time_min;
          client_speaking_time_min := py_round1 (time client_words);
          coach_speaking_pct := pct coach_words;
          client_speaking_pct := pct client_words;
          coach_wpm :=
            if positive coach_speaking_time_min
            then py_round1 (Q_of_nat coach_words / coach_speaking_time_min)
            else 0%Q |}.

(** The metrics as the JSON value that is stored and returned. *)
Definition dump_metrics (m : call_metrics) : json :=
  JDict [("total_duration_min", JFloat (total_duration_min m));
         ("coach_speaking_time_min", JFloat (coach_speaking_time_min m));
         ("client_speaking_time_min", JFloat (client_speaking_time_min m));
         ("coach_speaking_pct", JFloat (coach_speaking_pct m));
         ("client_speaking_pct", JFloat (client_speaking_pct m));
         ("coach_wpm", JFloat (coach_wpm m))].

(** The key of the metrics object for a year, a month and a meeting. *)
Definition metrics_key (K : Constants) (ym : Z * Z) (meeting : string)
  : string :=
  if ATHENA_PARTITIONED K then
    S3_PREFIX K ++ "/call_metrics/version=" ++ SCHEMA_VERSION K
    ++ "/year=" ++ decimal (fst ym)
    ++ "/month=" ++ zero_pad 2 (decimal (snd ym))
    ++ "/meeting_id=" ++ meeting ++ "/call_metrics.json"
  else
    S3_PREFIX K ++ "/" ++ decimal (fst ym)
    ++ "/" ++ zero_pad 2 (decimal (snd ym))
    ++ "/" ++ meeting ++ "/call_metrics.json".

(** [x or dflt] for an optional integer argument. *)
Definition or_now (x : option Z) (dflt : Z) : Z :=
  match x with
  | Some v => if v =? 0 then dflt else v
  | None => dflt
  end.

(** [save_metrics_to_s3(meeting_id, call_metrics, year, month)]; [now] is
    the clock read by the function, as a year and a month and as an ISO
    text, and [put_error] gives the exception that [s3.put_object] raises
    for a key, if any.  A [put_object] that raises is taken to have stored
    nothing.  The result is the returned key, or the exception, and the
    bucket afterwards. *)
Definition save_metrics_to_s3 (K : Constants) (now : Z * Z) (now_iso : string)
    (put_error : string -> option exn)
    (meeting : string) (metrics : json) (year month : option Z)
    (objects : gmap string json) : res string * gmap string json :=
  let year := or_now year (fst now) in
  let month := or_now month (snd now) in
  let key := metrics_key K (year, month) meeting in
  let payload :=
    JDict [("meeting_id", JStr meeting);
           ("extracted_at", JStr now_iso);
           ("metrics", metrics)] in
  match put_error key with
  | Some e => (Raise e, objects)
  | None => (Ok key, <[key := payload]> objects)
  end.

(** The year and the month tried for one [month_offset]. *)
Definition try_period (now : Z * Z) (month_offset : Z) : Z * Z :=
  let try_month := snd now + month_offset in
  let try_year := fst now in
  if try_month <? 1 then (try_year - 1, try_month + 12)
  else (try_year, try_month).

(** The loop of [load_metrics_from_s3] over the remaining offsets.  An
    object that is a dict ends the search with its [metrics] entry, which
    is [None] when it has none; a missing object, or one on which [.get]
    fails, lets the loop go on. *)
Fixpoint load_from (K : Constants) (now : Z * Z) (objects : gmap string json)
    (meeting : string) (offsets : list Z) : json :=
  match offsets with
  | [] => JNull
  | month_offset :: rest =>
      match objects !! metrics_key K (try_period now month_offset) meeting with
      | Some (JDict data) => dget_or "metrics" JNull data
      | _ => load_from K now objects meeting rest
      end
  end.

(** [load_metrics_from_s3(meeting_id)]; [JNull] stands for [None]. *)
Definition load_metrics_from_s3 (K : Constants) (now : Z * Z)
    (objects : gmap string json) (meeting : string) : json :=
  load_from K now objects meeting [0; -1; -2].

(** What one invocation reads from outside: the clock when loading and
    when saving, the transcript fetch, which can fail, the caption fetch,
    which gives [None] on any failure, and the exception that
    [s3.put_object] raises for a key, if any. *)
Record MetricsEnv := {
  now_load : Z * Z;
  now_save : Z * Z;
  now_iso : string;
  get_transcript_from_s3 : string -> res string;
  get_vtt_from_s3 : string -> option string;
  put_object_error : string -> option exn
}.

Record MetricsEvent := {
  transcriptKey : option string;
  meetingId : option string;
  coachName : option string;
  source : json;
  forceReprocess : bool
}.

(** How the handler ends: with the returned dict, with one of its two
    [ValidationError]s, or with the error of the transcript fetch or of
    the [put_object] that saves the metrics. *)
Inductive outcome :=
| Returned (response : dict)
| Invalid (message : string)
| Failed (e : exn).

(** [lambda_handler(event, context)] of the metrics step, on the bucket. *)
Definition lambda_handler (K : Constants) (E : MetricsEnv) (event : MetricsEvent)
    (objects : gmap string json) : gmap string json * outcome :=
  match transcriptKey event with
  | Some (String _ _ as transcript_key) =>
      match meetingId event with
      | Some (String _ _ as meeting_id) =>
          let existing_metrics :=
            if forceReprocess event then JNull
            else load_metrics_from_s3 K (now_load E) objects meeting_id in
          if truthy existing_metrics then
            (objects,
             Returned [("redactedTranscriptKey", JStr transcript_key);
                       ("meetingId", JStr meeting_id);
                       ("source", source event);
                       ("callMetrics", existing_metrics);
                       ("metricsKey", JStr "cached")])
          else
            match get_transcript_from_s3 E transcript_key with
            | Raise e => (objects, Failed e)
            | Ok transcript =>
                let vtt_content := get_vtt_from_s3 E transcript_key in
                match extract_metrics transcript vtt_content
                        (coachName event) with
                | Raise e => (objects, Failed e)
                | Ok call_metrics =>
                    match save_metrics_to_s3 K (now_save E) (now_iso E)
                            (put_object_error E) meeting_id
                            (dump_metrics call_metrics) None None objects with
                    | (Raise e, objects') => (objects', Failed e)
                    | (Ok metrics_key, objects') =>
                        (objects',
                         Returned [("callMetrics", dump_metrics call_metrics);
                                   ("metricsKey", JStr metrics_key)])
                    end
                end
            end
      | _ => (objects, Invalid "meetingId is required")
      end
  | _ => (objects, Invalid "transcriptKey is required")
  end.

End Metrics.

(** ** [initiate_case_check]: queueing and starting the workflow

    The job table maps a meeting id to its item; [update_item] on a missing
    item creates it with its key attribute.  The calls to DynamoDB and to
    Step Functions can fail, and the mock branches taken when
    [AWS_SAM_LOCAL] is ["true"] are part of the model. *)

Module Initiate.

(** The [UpdateExpression]: [SET caseCheckStatus = :status,
    caseCheckUpdatedAt = :updated,
    createdAt = if_not_exists(createdAt, :created)]. *)
Definition set_queued (now_iso : string) (item : dict) : dict :=
  let created := dget_or "createdAt" (JStr now_iso) item in
  dset "createdAt" created
    (dset "caseCheckUpdatedAt" (JStr now_iso)
       (dset "caseCheckStatus" (JStr "QUEUED") item)).

(** The [ConditionExpression]:
    [attribute_not_exists(caseCheckStatus) OR caseCheckStatus <> :done]. *)
Definition may_queue (item : dict) : bool :=
  negb (is_str "COMPLETED" (dget "caseCheckStatus" item)).

Definition item_of (jobs : gmap string dict) (meeting : string) : dict :=
  match jobs !! meeting with
  | Some item => item
  | None => [("meetingId", JStr meeting)]
  end.

(** What one invocation meets outside the job table: whether
    [AWS_SAM_LOCAL] is ["true"]; the clock as an ISO text; the objects of
    the summary bucket; whether [get_item] succeeds when the fast path
    reads the table, and when [_mark_queued] reads it again after a failed
    condition; the error code of the [ClientError] with which [update_item]
    fails for a reason of the service, if it does; and [start_execution],
    [None] when it raises.  [update_item] is taken to raise nothing but
    [ClientError], which is what [_mark_queued] handles, and an
    [update_item] that raises to have written nothing. *)
Record Platform := {
  aws_sam_local : bool;
  clock_iso : string;
  bucket : gmap string json;
  get_item_ok : bool;
  get_item_ok_again : bool;
  update_item_fault : option string;
  start_execution : dict -> option string
}.

(** How [_mark_queued] ends: it returns, with the table as it then is; or
    it raises the [ValidationError] that carries the completed check in
    its details; or the one that carries no details; or the
    [ExternalServiceError] of its last branch. *)
Inductive marking :=
| Marked (jobs' : gmap string dict)
| AlreadyCompleted (details : dict)
| CompletedWithoutData
| UpdateFailed.

(** The error code of the [ClientError] raised by [update_item], if any:
    the fault of the service, or else the failed condition of the update
    made without [force]. *)
Definition update_item_error (P : Platform) (force : bool) (item : dict)
  : option string :=
  match update_item_fault P with
  | Some code => Some code
  | None =>
      if force || may_queue item then None
      else Some "ConditionalCheckFailedException"
  end.

(** [_mark_queued(meeting_id, force)] *)
Definition mark_queued (K : Constants) (P : Platform) (meeting : string)
    (force : bool) (jobs : gmap string dict) : marking :=
  if aws_sam_local P then Marked jobs
  else
    let item := item_of jobs meeting in
    match update_item_error P force item with
    | None => Marked (<[meeting := set_queued (clock_iso P) item]> jobs)
    | Some error_code =>
        if String.eqb error_code "ConditionalCheckFailedException" then
          match get_existing_case_check K (aws_sam_local P)
                  (if get_item_ok_again P then Some jobs else None)
                  (bucket P) meeting with
          | Some existing_data =>
              AlreadyCompleted
                [("completed", JBool true);
                 ("meetingId", JStr meeting);
                 ("caseCheckKey", dget_or "caseCheckKey" JNull existing_data);
                 ("casePassRate", dget_or "casePassRate" JNull existing_data);
                 ("caseCheckStatus",
                  dget_or "caseCheckStatus" JNull existing_data)]
          | None => CompletedWithoutData
          end
        else UpdateFailed
    end.

(** The request after validation: the fields the rest of the handler
    reads.  [transcript] and [zoomMeetingId] are the raw values of the
    body, [""] when absent. *)
Record Request := {
  meeting_id : string;
  coach_name : string;
  transcript : json;
  zoom_meeting_id : json;
  redacted_transcript_key : string;
  force_reprocess : bool
}.

(** The [input_data] built by [_start_step_function]. *)
Definition step_input (rq : Request) : dict :=
  let input_data :=
    [("meetingId", JStr (meeting_id rq));
     ("forceReprocess", JBool (force_reprocess rq))] in
  if Py.nonempty (redacted_transcript_key rq) then
    dset "redactedTranscriptKey" (JStr (redacted_transcript_key rq)) input_data
  else
    let input_data :=
      if Py.nonempty (coach_name rq)
      then dset "coachName" (JStr (coach_name rq)) input_data
      else input_data in
    if truthy (transcript rq)
    then dset "transcript" (transcript rq) input_data
    else if truthy (zoom_meeting_id rq)
    then dset "zoomMeetingId" (zoom_meeting_id rq) input_data
    else input_data.

(** The job table and the inputs of the executions started so far. *)
Record State := {
  jobs : gmap string dict;
  started : list dict
}.

(** How the handler ends: with a response, or with one of the two errors
    that leave it; [service] is the service named by the
    [ExternalServiceError]. *)
Inductive answer :=
| Response (status_code : Z) (body : dict)
| ValidationError
| ExternalServiceError (service : string).

(** The body of the response for a check that is already completed, with
    the stored payload when it can be fetched. *)
Definition completed_body (meeting : string) (case_check_key : json)
    (rate status : json) (full_data : option json) : dict :=
  let response_data :=
    [("message", JStr "Case check already completed");
     ("meetingId", JStr meeting);
     ("caseCheckKey", case_check_key);
     ("casePassRate", rate);
     ("caseCheckStatus", status);
     ("completed", JBool true)] in
  match full_data with
  | Some data => if truthy data then dset "data" data response_data
                 else response_data
  | None => response_data
  end.

(** The execution ARN returned by [_start_step_function] under SAM local,
    where nothing is started. *)
Definition mock_arn (meeting : string) : string :=
  "arn:aws:states:eu-west-2:000000000000:execution:case-checker-workflow:mock-"
  ++ meeting.

(** Lines 91-172 of [lambda_handler]. *)
Definition initiate (K : Constants) (P : Platform) (rq : Request) (st : State)
  : State * answer :=
  match completed_fast_path K (aws_sam_local P)
          (if get_item_ok P then Some (jobs st) else None) (bucket P)
          (meeting_id rq) (force_reprocess rq) with
  | Some body => (st, Response 200 body)
  | None =>
      match mark_queued K P (meeting_id rq) (force_reprocess rq) (jobs st) with
      | AlreadyCompleted details =>
          if truthy (dget_or "completed" JNull details) then
            let case_check_key := dget_or "caseCheckKey" JNull details in
            let full_data :=
              match case_check_key with
              | JStr k => if Py.nonempty k then bucket P !! k else None
              | _ => None
              end in
            (st, Response 200
                   (completed_body (meeting_id rq) case_check_key
                      (dget_or "casePassRate" JNull details)
                      (dget_or "caseCheckStatus" JNull details) full_data))
          else (st, ValidationError)
      | CompletedWithoutData => (st, ValidationError)
      | UpdateFailed => (st, ExternalServiceError "dynamodb")
      | Marked jobs' =>
          let input_data := step_input rq in
          let started_message (execution_arn : string) : dict :=
            [("message", JStr "Case check workflow started");
             ("meetingId", JStr (meeting_id rq));
             ("executionArn", JStr execution_arn)] in
          if aws_sam_local P then
            ({| jobs := jobs'; started := started st |},
             Response 202 (started_message (mock_arn (meeting_id rq))))
          else
            match start_execution P input_data with
            | Some execution_arn =>
                ({| jobs := jobs';
                    started := (started st ++ [input_data])%list |},
                 Response 202 (started_message execution_arn))
            | None =>
                ({| jobs := jobs'; started := started st |},
                 ExternalServiceError "stepfunctions")
            end
      end
  end.

End Initiate.

(** ** Further notions used to state the properties *)

(** A span as it is stored: a list of two integers. *)
Definition int_pair (v : json) : Prop :=
  exists a b, v = JList [JInt a; JInt b].

(** A result whose quote occurs in [demo_transcript], with a span that is
    not a pair of integers. *)
Definition quoted_result : dict :=
  [("id", JStr "fees_charges_explained");
   ("evidence_quote", JStr " our fee is 299 pounds ");
   ("evidence_spans", JList [JStr "51-72"])].

(** The time covered by a list of segments: the sum of [end_sec - start_sec]. *)
Definition total_span (segments : list segment) : Q :=
  fold_right (fun seg acc => (snd (fst seg) - fst (fst seg) + acc)%Q) 0%Q
    segments.

(** Whether [parse_vtt_with_speakers] gives a segment to the coach: its
    text carries a speaker label and the label, stripped and lower-cased,
    contains the coach's name or is contained in it. *)
Definition coach_segment (coach_name_lower : string) (seg : segment) : bool :=
  match rmatch speaker_pattern (snd seg) with
  | Some groups =>
      let speaker_name := Py.lower (Py.strip (nth 0 groups "")) in
      Py.contains speaker_name coach_name_lower
      || Py.contains coach_name_lower speaker_name
  | None => false
  end.

(** [acc += end_sec - start_sec], and the sum built that way from [0.0]
    over a list of segments, in their order. *)
Definition add_span (acc : Q) (seg : segment) : Q :=
  (acc + (snd (fst seg) - fst (fst seg)))%Q.

Definition summed_spans (segments : list segment) : Q :=
  fold_left add_span segments 0%Q.

(** The results of a stored payload, as [_save_checks_to_assessment_table]
    reads them. *)
Definition results_of (case_data : dict) : list json :=
  match dget_or "results" (JList []) case_data with
  | JList l => l
  | _ => []
  end.

(** Captions with a cue attributed to the coach and one to the client. *)
Definition demo_captions : string :=
  "WEBVTT" ++ String nl (String nl
  ("1" ++ String nl
  ("00:00:01.000 --> 00:00:04.500" ++ String nl
  ("Jane Doe: Hello there, how are you" ++ String nl (String nl
  ("2" ++ String nl
  ("00:00:05.000 --> 00:00:07.000" ++ String nl
  ("Sam: Fine thanks" ++ String nl "")))))))).

(** A transcript line that carries a speaker label. *)
Definition is_labelled (line : string) : bool :=
  match label_match (Py.strip line) with Some _ => true | None => false end.

(** A labelled transcript with blank and unlabelled lines in between. *)
Definition demo_labelled : string :=
  "COACH: hello there" ++ String nl
  ("  " ++ String nl
  ("CLIENT: hi" ++ String nl
  ("and more" ++ String nl
  ("CLIENT:   yes I do " ++ String nl
  ("COACH:" ++ String nl "Coach: no"))))).

(** The same without the blank and the unlabelled lines. *)
Definition demo_labelled_only : string :=
  "COACH: hello there" ++ String nl
  ("CLIENT: hi" ++ String nl
  ("CLIENT:   yes I do " ++ String nl "COACH:")).

(** What holds of the counters after any number of lines: the speakers
    alternate from one turn to the next, and words are only counted inside
    turns. *)
Definition tally_ok (t : Analytics.tally) : Prop :=
  match Analytics.last_speaker_type t with
  | None => Analytics.t_coach_turns t = 0%nat /\ Analytics.t_client_turns t = 0%nat
  | Some l =>
      (l = "COACH" /\ (Analytics.t_client_turns t <= Analytics.t_coach_turns t <= Analytics.t_client_turns t + 1)%nat
       /\ (1 <= Analytics.t_coach_turns t)%nat)
      \/ (l = "CLIENT" /\ (Analytics.t_coach_turns t <= Analytics.t_client_turns t <= Analytics.t_coach_turns t + 1)%nat
          /\ (1 <= Analytics.t_client_turns t)%nat)
  end
  /\ ((0 < Analytics.t_coach_words t)%nat -> (0 < Analytics.t_coach_turns t)%nat)
  /\ ((0 < Analytics.t_client_words t)%nat -> (0 < Analytics.t_client_turns t)%nat).


(** A year and a month of the calendar, and the months counted from year
    0. *)
Definition valid_period (ym : Z * Z) : Prop :=
  0 <= fst ym /\ 1 <= snd ym <= 12.

Definition month_index (ym : Z * Z) : Z := 12 * fst ym + snd ym.

(** A metrics event and its surroundings: the captions are found, the
    transcript is [demo_labelled]. *)
Definition metrics_event (force : bool) : Metrics.MetricsEvent :=
  {| Metrics.transcriptKey := Some "summaries/t/transcript.txt";
     Metrics.meetingId := Some "m-42";
     Metrics.coachName := Some "Jane";
     Metrics.source := JStr "zoom";
     Metrics.forceReprocess := force |}.

Definition metrics_env (ym : Z * Z) (fetch : res string) : Metrics.MetricsEnv :=
  {| Metrics.now_load := ym; Metrics.now_save := ym;
     Metrics.now_iso := "2026-01-15T10:00:00+00:00";
     Metrics.get_transcript_from_s3 := fun _ => fetch;
     Metrics.get_vtt_from_s3 := fun _ => Some demo_captions;
     Metrics.put_object_error := fun _ => None |}.

(** The same surroundings with a bucket that refuses every write. *)
Definition failing_put_env (ym : Z * Z) : Metrics.MetricsEnv :=
  {| Metrics.now_load := ym; Metrics.now_save := ym;
     Metrics.now_iso := "2026-01-15T10:00:00+00:00";
     Metrics.get_transcript_from_s3 := fun _ => Ok demo_labelled;
     Metrics.get_vtt_from_s3 := fun _ => Some demo_captions;
     Metrics.put_object_error := fun _ => Some ServiceError |}.

(** A job table with one completed check, and a request for it. *)
Definition completed_jobs : gmap string dict :=
  {[ "m-42" := [("meetingId", JStr "m-42");
                ("summaryStatus", JStr "COMPLETED");
                ("createdAt", JStr "2026-01-01T09:00:00+00:00");
                ("caseCheckStatus", JStr "COMPLETED");
                ("caseCheckKey", JStr "summaries/2026/01/m-42/case_check.v1.0.json");
                ("casePassRate", JFloat 87.5)] ]}.

Definition demo_request (force : bool) : Initiate.Request :=
  {| Initiate.meeting_id := "m-42";
     Initiate.coach_name := "Jane Doe";
     Initiate.transcript := JStr "";
     Initiate.zoom_meeting_id := JStr "123456789";
     Initiate.redacted_transcript_key := "";
     Initiate.force_reprocess := force |}.

Definition demo_state : Initiate.State :=
  {| Initiate.jobs := completed_jobs; Initiate.started := [] |}.

(** The deployed function at a given time, over a bucket, with every
    service answering; [readable] tells whether the job table can be
    read. *)
Definition platform_at (now_iso : string) (objects : gmap string json)
    (readable : bool) : Initiate.Platform :=
  {| Initiate.aws_sam_local := false;
     Initiate.clock_iso := now_iso;
     Initiate.bucket := objects;
     Initiate.get_item_ok := readable;
     Initiate.get_item_ok_again := readable;
     Initiate.update_item_fault := None;
     Initiate.start_execution :=
       fun _ => Some "arn:aws:states:execution:case-check-m-42" |}.

Definition demo_platform : Initiate.Platform :=
  platform_at "2026-01-15T10:00:00+00:00" ∅ true.

(** The same with Step Functions refusing to start an execution. *)
Definition no_start_platform : Initiate.Platform :=
  {| Initiate.aws_sam_local := false;
     Initiate.clock_iso := "2026-01-15T10:00:00+00:00";
     Initiate.bucket := ∅;
     Initiate.get_item_ok := true;
     Initiate.get_item_ok_again := true;
     Initiate.update_item_fault := None;
     Initiate.start_execution := fun _ => None |}.

(** No job item and no execution yet. *)
Definition fresh_state : Initiate.State :=
  {| Initiate.jobs := ∅; Initiate.started := [] |}.

(** [sep.join(lines)] *)
Fixpoint join_lines (sep : string) (lines : list string) : string :=
  match lines with
  | [] => ""
  | [l] => l
  | l :: rest => l ++ sep ++ join_lines sep rest
  end.

(** A line without a carriage return and without a line feed. *)
Definition plain_line (l : string) : bool :=
  Py.all_chars (fun c => negb (Ascii.eqb c cr) && negb (Ascii.eqb c nl)) l.

(** * Properties *)

(** ** Text lemmas *)

Lemma append_nil_r (s : string) : s ++ "" = s.
Proof. induction s; simpl; congruence. Qed.

Lemma append_assoc (a b c : string) : (a ++ b) ++ c = a ++ (b ++ c).
Proof. induction a; simpl; congruence. Qed.

Lemma length_append (a b : string) :
  String.length (a ++ b) = (String.length a + String.length b)%nat.
Proof. induction a; simpl; congruence. Qed.

Lemma all_chars_app (p : ascii -> bool) (a b : string) :
  Py.all_chars p (a ++ b) = Py.all_chars p a && Py.all_chars p b.
Proof.
  induction a as [|c a IH]; simpl; [reflexivity|].
  rewrite IH. apply andb_assoc.
Qed.

Lemma all_chars_impl (p q : ascii -> bool) (s : string) :
  (forall c, p c = true -> q c = true) ->
  Py.all_chars p s = true -> Py.all_chars q s = true.
Proof.
  intros Hpq. induction s as [|c s IH]; simpl; [reflexivity|].
  intros H. apply andb_true_iff in H as [Hc Hs].
  rewrite (Hpq _ Hc), (IH Hs). reflexivity.
Qed.

Lemma take_app_length (a b : string) :
  Py.take (String.length a) (a ++ b) = a.
Proof.
  unfold Py.take. induction a as [|c a IH]; simpl.
  - destruct b; reflexivity.
  - rewrite IH. reflexivity.
Qed.

Lemma rstrip_id (s : string) :
  Py.all_chars not_space s = true -> Py.rstrip s = s.
Proof.
  induction s as [|c s IH]; simpl; [reflexivity|].
  intros H. apply andb_true_iff in H as [Hc Hs].
  rewrite (IH Hs). unfold not_space in Hc. apply negb_true_iff in Hc.
  destruct s; [rewrite Hc|]; reflexivity.
Qed.

Lemma lstrip_id (s : string) :
  Py.all_chars not_space s = true -> Py.lstrip s = s.
Proof.
  destruct s as [|c s]; simpl; [reflexivity|].
  intros H. apply andb_true_iff in H as [Hc _].
  unfold not_space in Hc. apply negb_true_iff in Hc. rewrite Hc. reflexivity.
Qed.

Lemma strip_id (s : string) :
  Py.all_chars not_space s = true -> Py.strip s = s.
Proof.
  intros H. unfold Py.strip. rewrite (lstrip_id _ H). apply rstrip_id, H.
Qed.

Lemma rstrip_spaces (s : string) :
  Py.all_chars Py.isspace s = true -> Py.rstrip s = "".
Proof.
  induction s as [|c s IH]; simpl; [reflexivity|].
  intros H. apply andb_true_iff in H as [Hc Hs].
  rewrite (IH Hs), Hc. reflexivity.
Qed.

Lemma rstrip_app_spaces (s t : string) :
  Py.all_chars Py.isspace t = true -> Py.rstrip (s ++ t) = Py.rstrip s.
Proof.
  intros Ht. induction s as [|c s IH]; simpl.
  - apply rstrip_spaces, Ht.
  - rewrite IH. reflexivity.
Qed.

Lemma lstrip_spaces_app (w s : string) :
  Py.all_chars Py.isspace w = true -> Py.lstrip (w ++ s) = Py.lstrip s.
Proof.
  induction w as [|c w IH]; simpl; [reflexivity|].
  intros H. apply andb_true_iff in H as [Hc Hw].
  rewrite Hc. apply IH, Hw.
Qed.

Lemma lstrip_spaces (s : string) :
  Py.all_chars Py.isspace s = true -> Py.lstrip s = "".
Proof.
  intros H. rewrite <- (append_nil_r s), (lstrip_spaces_app _ _ H).
  reflexivity.
Qed.

(** Stripping ignores whitespace put around a text. *)
Lemma strip_padded (w s t : string) :
  Py.all_chars Py.isspace w = true -> Py.all_chars Py.isspace t = true ->
  Py.strip (w ++ s ++ t) = Py.strip s.
Proof.
  intros Hw Ht. unfold Py.strip. rewrite (lstrip_spaces_app _ _ Hw).
  clear w Hw. induction s as [|c s IH]; simpl.
  - rewrite (lstrip_spaces _ Ht). reflexivity.
  - destruct (Py.isspace c); [apply IH|].
    change (String c (s ++ t)) with (String c s ++ t).
    apply rstrip_app_spaces, Ht.
Qed.

(** ** The matcher *)

Module ReFacts.
Import Re.

Lemma in_rep_rests p hi s k r :
  In (k, r) (rep_rests p hi s) <->
  exists pre, s = pre ++ r /\ String.length pre = k
              /\ Py.all_chars p pre = true /\ within hi k.
Proof.
  revert hi k. induction s as [|c s IH]; intros hi k; simpl.
  - split.
    + intros [H|[]]. injection H as <- <-. exists "". repeat split.
      destruct hi; simpl; lia.
    + intros (pre & Hs & Hl & _ & _). destruct pre; [|discriminate].
      simpl in *. subst. left. reflexivity.
  - split.
    + intros H.
      assert (Hz : (k, r) = (0%nat, String c s) ->
                   exists pre, String c s = pre ++ r /\ String.length pre = k
                               /\ Py.all_chars p pre = true /\ within hi k).
      { intros E. injection E as -> ->. exists "". repeat split.
        destruct hi; simpl; lia. }
      destruct (p c && allows hi) eqn:Hc.
      * apply in_app_iff in H as [H|[H|[]]]; [|auto].
        apply in_map_iff in H as ([k' r'] & E & H). simpl in E.
        injection E as <- <-. apply IH in H as (pre & -> & <- & Hp & Hw).
        apply andb_true_iff in Hc as [Hc Ha].
        exists (String c pre). simpl. rewrite Hc, Hp. repeat split.
        destruct hi as [[|h]|]; simpl in *; try discriminate; lia.
      * destruct H as [H|[]]. auto.
    + intros (pre & Hs & Hl & Hp & Hw).
      destruct pre as [|c' pre]; simpl in *.
      * subst. destruct (p c && allows hi); [apply in_app_iff; right|];
          left; reflexivity.
      * injection Hs as <- ->. apply andb_true_iff in Hp as [Hc Hp].
        assert (Ha : allows hi = true).
        { destruct hi as [[|h]|]; simpl in *; try reflexivity; lia. }
        rewrite Hc, Ha. simpl. apply in_app_iff. left.
        apply in_map_iff. exists (String.length pre, r). split.
        -- simpl. rewrite Hl. reflexivity.
        -- apply IH. exists pre. repeat split; try assumption.
           destruct hi as [[|h]|]; simpl in *; lia.
Qed.

Lemma in_run_chr p s caps r :
  In (caps, r) (run (Chr p) s) <->
  caps = [] /\ exists c, s = String c r /\ p c = true.
Proof.
  simpl. destruct s as [|c s].
  - split; [intros []|intros (_ & c & H & _); discriminate].
  - destruct (p c) eqn:Hc.
    + split.
      * intros [H|[]]. injection H as <- <-. eauto.
      * intros (-> & c' & H & _). injection H as <- <-. left. reflexivity.
    + split; [intros []|].
      intros (_ & c' & H & Hc'). injection H as <- <-. congruence.
Qed.

Lemma in_run_rep p lo hi s caps r :
  In (caps, r) (run (Rep p lo hi) s) <->
  caps = [] /\ exists pre, s = pre ++ r /\ Py.all_chars p pre = true
                 /\ (lo <= String.length pre)%nat
                 /\ within hi (String.length pre).
Proof.
  simpl. rewrite in_map_iff. split.
  - intros ([k r'] & E & H). simpl in E. injection E as <- <-.
    apply filter_In in H as [H Hlo]. simpl in Hlo.
    apply in_rep_rests in H as (pre & -> & <- & Hp & Hw).
    apply Nat.leb_le in Hlo. eauto 10.
  - intros (-> & pre & -> & Hp & Hlo & Hw).
    exists (String.length pre, r). split; [reflexivity|].
    apply filter_In. split.
    + apply in_rep_rests. eauto 10.
    + simpl. apply Nat.leb_le, Hlo.
Qed.

Lemma in_run_cat r1 r2 s caps r :
  In (caps, r) (run (Cat r1 r2) s) <->
  exists c1 mid c2, In (c1, mid) (run r1 s) /\ In (c2, r) (run r2 mid)
                    /\ caps = (c1 ++ c2)%list.
Proof.
  simpl. rewrite in_flat_map. split.
  - intros ([c1 mid] & H1 & H). apply in_map_iff in H as ([c2 r'] & E & H2).
    simpl in E. injection E as <- <-. eauto 10.
  - intros (c1 & mid & c2 & H1 & H2 & ->). exists (c1, mid). split; [assumption|].
    apply in_map_iff. exists (c2, r). auto.
Qed.

Lemma in_run_grp r1 s caps r :
  In (caps, r) (run (Grp r1) s) <->
  exists c1, In (c1, r) (run r1 s)
             /\ caps = (c1 ++ [Py.take (String.length s - String.length r) s])%list.
Proof.
  simpl. rewrite in_map_iff. split.
  - intros ([c1 r'] & E & H). simpl in E. injection E as <- <-. eauto.
  - intros (c1 & H & ->). exists (c1, r). auto.
Qed.

Lemma in_run_eos s caps r :
  In (caps, r) (run Eos s) <->
  caps = [] /\ r = s /\ (s = "" \/ s = String nl "").
Proof.
  simpl. split.
  - destruct s as [|c [|c' s]]; simpl.
    + intros [H|[]]. injection H as <- <-. auto.
    + destruct (Ascii.eqb_spec c nl) as [->|Hc].
      * intros [H|[]]. injection H as <- <-. auto.
      * intros H. exfalso.
        destruct c as [[] [] [] [] [] [] [] []]; simpl in H;
          try contradiction; apply Hc; reflexivity.
    + destruct c as [[] [] [] [] [] [] [] []]; simpl; intros [].
  - intros (-> & -> & [->| ->]); left; reflexivity.
Qed.

Lemma rmatch_some r s caps :
  rmatch r s = Some caps -> exists rest, In (caps, rest) (run r s).
Proof.
  unfold rmatch. destruct (run r s) as [|[c rest] l]; [discriminate|].
  intros H. injection H as <-. exists rest. left. reflexivity.
Qed.

Lemma rmatch_none r s :
  rmatch r s = None <-> forall caps rest, ~ In (caps, rest) (run r s).
Proof.
  unfold rmatch. destruct (run r s) as [|[c rest] l]; split; intros H.
  - intros ? ? [].
  - reflexivity.
  - discriminate.
  - exfalso. apply (H c rest). left. reflexivity.
Qed.

End ReFacts.

(** ** Characters *)

Lemma decimal_not_space c : Py.is_decimal c = true -> Py.isspace c = false.
Proof. intros H. by_char c. Qed.

Lemma decimal_not_colon c : Py.is_decimal c = true -> Ascii.eqb c ":" = false.
Proof. intros H. by_char c. Qed.

Lemma decimal_not_comma c : Py.is_decimal c = true -> Ascii.eqb c "," = false.
Proof. intros H. by_char c. Qed.

Lemma decimal_not_underscore c :
  Py.is_decimal c = true -> Ascii.eqb c "_" = false.
Proof. intros H. by_char c. Qed.

Lemma decimal_not_sign c :
  Py.is_decimal c = true -> c <> "+"%char /\ c <> "-"%char.
Proof. intros H. split; intros ->; discriminate. Qed.

Lemma sep_facts c :
  is_sep c = true ->
  (if Ascii.eqb c "," then "."%char else c) = "."%char
  /\ Py.is_decimal c = false /\ Ascii.eqb c "_" = false
  /\ Ascii.eqb c ":" = false /\ Py.isspace c = false.
Proof. intros H. by_char c. Qed.

(** ** Pieces of a timestamp *)

Lemma digits_no_colon s :
  Py.all_chars Py.is_decimal s = true -> Py.all_chars no_colon s = true.
Proof.
  apply all_chars_impl. intros c H. unfold no_colon.
  rewrite (decimal_not_colon _ H). reflexivity.
Qed.

Lemma digits_not_space s :
  Py.all_chars Py.is_decimal s = true -> Py.all_chars not_space s = true.
Proof.
  apply all_chars_impl. intros c H. unfold not_space.
  rewrite (decimal_not_space _ H). reflexivity.
Qed.

Lemma replace_char_app a b s t :
  Py.replace_char a b (s ++ t) = Py.replace_char a b s ++ Py.replace_char a b t.
Proof. induction s as [|c s IH]; simpl; [reflexivity|]. rewrite IH. reflexivity. Qed.

Lemma replace_comma_digits s :
  Py.all_chars Py.is_decimal s = true -> Py.replace_char "," "." s = s.
Proof.
  induction s as [|c s IH]; simpl; [reflexivity|].
  intros H. apply andb_true_iff in H as [Hc Hs].
  rewrite (decimal_not_comma _ Hc), (IH Hs). reflexivity.
Qed.

Lemma split_on_single s :
  Py.all_chars no_colon s = true -> Py.split_on ":" s = [s].
Proof.
  induction s as [|c s IH]; simpl; [reflexivity|].
  intros H. apply andb_true_iff in H as [Hc Hs].
  unfold no_colon in Hc. apply negb_true_iff in Hc.
  rewrite Hc, (IH Hs). reflexivity.
Qed.

Lemma split_on_cons s t :
  Py.all_chars no_colon s = true ->
  Py.split_on ":" (s ++ String ":" t) = s :: Py.split_on ":" t.
Proof.
  induction s as [|c s IH]; simpl; [reflexivity|].
  intros H. apply andb_true_iff in H as [Hc Hs].
  unfold no_colon in Hc. apply negb_true_iff in Hc.
  rewrite Hc, (IH Hs). reflexivity.
Qed.

Lemma digits_from_digits s rest acc n :
  Py.all_chars Py.is_decimal s = true -> stops rest ->
  digits_from acc n (s ++ rest) = (num_from acc s, (n + String.length s)%nat, rest).
Proof.
  intros Hs Hr. revert acc n. induction s as [|c s IH]; intros acc n; simpl.
  - rewrite Nat.add_0_r. destruct rest as [|c r]; [reflexivity|].
    destruct Hr as [Hd Hu]. simpl. rewrite Hd, Hu. reflexivity.
  - simpl in Hs. apply andb_true_iff in Hs as [Hc Hs].
    rewrite Hc, (IH Hs). f_equal. f_equal. lia.
Qed.

Lemma digit_group_digits s rest :
  is_digits s = true -> stops rest ->
  digit_group (s ++ rest) = Some (num s, String.length s, rest).
Proof.
  unfold is_digits. intros H Hr. apply andb_true_iff in H as [Hn Hs].
  destruct s as [|c s]; [discriminate|]. simpl in Hs |- *.
  apply andb_true_iff in Hs as [Hc Hs]. rewrite Hc.
  rewrite (digits_from_digits _ _ _ _ Hs Hr). reflexivity.
Qed.

Lemma read_sign_digits s rest :
  is_digits s = true -> read_sign (s ++ rest) = (1, s ++ rest).
Proof.
  unfold is_digits. intros H. apply andb_true_iff in H as [Hn Hs].
  destruct s as [|c s]; [discriminate|]. simpl in Hs.
  apply andb_true_iff in Hs as [Hc _].
  destruct (decimal_not_sign _ Hc) as [Hp Hm]. simpl.
  destruct c as [[] [] [] [] [] [] [] []]; try reflexivity; congruence.
Qed.

Lemma int_of_str_digits s :
  is_digits s = true ->
  int_of_str s
  = if (max_str_digits <? String.length s)%nat then None else Some (num s).
Proof.
  intros H. unfold int_of_str.
  assert (Hs : Py.all_chars Py.is_decimal s = true).
  { unfold is_digits in H. apply andb_true_iff in H. tauto. }
  rewrite (strip_id _ (digits_not_space _ Hs)).
  rewrite <- (append_nil_r s) at 1. rewrite (read_sign_digits _ _ H).
  rewrite (digit_group_digits s "" H I).
  destruct (max_str_digits <? String.length s)%nat; [reflexivity|].
  f_equal. lia.
Qed.

Lemma int_of_str_short s :
  is_digits s = true -> (String.length s <= max_str_digits)%nat ->
  int_of_str s = Some (num s).
Proof.
  intros H Hl. rewrite (int_of_str_digits _ H).
  apply Nat.ltb_ge in Hl. rewrite Hl. reflexivity.
Qed.


Lemma float_of_str_decimal whole frac :
  is_digits whole = true -> is_digits frac = true ->
  exists q, float_of_str (whole ++ String "." frac) = Some q
            /\ (q == decimal_value whole frac)%Q.
Proof.
  intros Hw Hf. unfold float_of_str.
  assert (Hws : Py.all_chars Py.is_decimal whole = true).
  { unfold is_digits in Hw. apply andb_true_iff in Hw. tauto. }
  assert (Hfs : Py.all_chars Py.is_decimal frac = true).
  { unfold is_digits in Hf. apply andb_true_iff in Hf. tauto. }
  rewrite strip_id.
  2:{ rewrite all_chars_app. simpl.
      rewrite (digits_not_space _ Hws), (digits_not_space _ Hfs). reflexivity. }
  rewrite (read_sign_digits _ _ Hw).
  rewrite (digit_group_digits _ _ Hw); [|split; reflexivity].
  pose proof (digit_group_digits frac "" Hf I) as Hg.
  rewrite append_nil_r in Hg. rewrite Hg.
  replace (Nat.eqb (String.length whole + String.length frac) 0) with false.
  2:{ symmetry. apply Nat.eqb_neq. destruct whole; [discriminate|]. simpl. lia. }
  simpl read_exponent. cbv iota beta.
  eexists. split; [reflexivity|].
  unfold decimal_value. simpl Qpower. rewrite Qmult_1_r, Z.mul_1_l. reflexivity.
Qed.

Lemma is_digits_all s :
  is_digits s = true -> Py.all_chars Py.is_decimal s = true.
Proof. unfold is_digits. intros H. apply andb_true_iff in H. tauto. Qed.

Lemma seconds_text_clean sec sep frac :
  is_digits sec = true -> is_sep sep = true -> is_digits frac = true ->
  Py.replace_char "," "." (sec ++ String sep frac) = sec ++ String "." frac
  /\ Py.all_chars not_space (sec ++ String "." frac) = true
  /\ Py.all_chars no_colon (sec ++ String "." frac) = true.
Proof.
  intros Hs Hp Hf. apply is_digits_all in Hs, Hf.
  destruct (sep_facts _ Hp) as (Hdot & _).
  rewrite replace_char_app. simpl. rewrite Hdot.
  rewrite !replace_comma_digits by assumption.
  rewrite !all_chars_app. simpl.
  rewrite !digits_not_space, !digits_no_colon by assumption.
  repeat split.
Qed.

(** ** The value of digit fields *)

Lemma digit_value_range c :
  Py.is_decimal c = true -> 0 <= Py.digit_value c <= 9.
Proof.
  intros Hc. unfold Py.is_decimal, Py.in_range in Hc.
  apply andb_true_iff in Hc as [H1 H2].
  apply Nat.leb_le in H1, H2. unfold Py.digit_value. lia.
Qed.

Lemma num_from_nonneg (s : string) (acc : Z) :
  Py.all_chars Py.is_decimal s = true -> 0 <= acc -> 0 <= num_from acc s.
Proof.
  revert acc. induction s as [|c s IH]; intros acc Hs Ha; simpl; [exact Ha|].
  simpl in Hs. apply andb_true_iff in Hs as [Hc Hs].
  apply IH; [exact Hs|].
  pose proof (digit_value_range _ Hc). lia.
Qed.

Lemma num_nonneg (s : string) : is_digits s = true -> 0 <= num s.
Proof.
  intros H. apply num_from_nonneg; [apply is_digits_all, H|lia].
Qed.

Lemma num_from_bound (s : string) (acc : Z) :
  Py.all_chars Py.is_decimal s = true -> 0 <= acc ->
  num_from acc s < (acc + 1) * 10 ^ Z.of_nat (String.length s).
Proof.
  revert acc. induction s as [|c s IH]; intros acc Hs Ha.
  - cbn [num_from String.length]. change (10 ^ Z.of_nat 0) with 1. lia.
  - cbn [num_from String.length]. simpl in Hs.
    apply andb_true_iff in Hs as [Hc Hs].
    pose proof (digit_value_range _ Hc) as Hd.
    pose proof (IH (acc * 10 + Py.digit_value c) Hs ltac:(lia)) as Hb.
    rewrite Nat2Z.inj_succ, Z.pow_succ_r by lia.
    assert (Hp : 0 < 10 ^ Z.of_nat (String.length s))
      by (apply Z.pow_pos_nonneg; lia).
    nia.
Qed.

Lemma num_lt_pow (s : string) :
  is_digits s = true -> num s < 10 ^ Z.of_nat (String.length s).
Proof.
  intros H. pose proof (num_from_bound s 0 (is_digits_all _ H) ltac:(lia)).
  unfold num. lia.
Qed.

Lemma decimal_value_nonneg (whole frac : string) :
  is_digits whole = true -> is_digits frac = true ->
  (0 <= decimal_value whole frac)%Q.
Proof.
  intros Hw Hf. unfold decimal_value.
  pose proof (num_nonneg _ Hw). pose proof (num_nonneg _ Hf).
  assert (Hp : 0 < 10 ^ Z.of_nat (String.length frac))
    by (apply Z.pow_pos_nonneg; lia).
  apply Qle_shift_div_l.
  - change 0%Q with (inject_Z 0). rewrite <- Zlt_Qlt. exact Hp.
  - rewrite Qmult_0_l. change 0%Q with (inject_Z 0). rewrite <- Zle_Qle. nia.
Qed.

Lemma decimal_value_lt (whole frac : string) :
  is_digits whole = true -> is_digits frac = true ->
  (decimal_value whole frac < inject_Z (num whole + 1))%Q.
Proof.
  intros Hw Hf. unfold decimal_value.
  pose proof (num_nonneg _ Hf). pose proof (num_lt_pow _ Hf).
  assert (Hp : 0 < 10 ^ Z.of_nat (String.length frac))
    by (apply Z.pow_pos_nonneg; lia).
  apply Qlt_shift_div_r.
  - change 0%Q with (inject_Z 0). rewrite <- Zlt_Qlt. exact Hp.
  - rewrite <- inject_Z_mult, <- Zlt_Qlt. nia.
Qed.

(** Fields of at most 300 digits stay far below the float range. *)
Lemma short_fields_bound (a b c : Z) :
  a < 10 ^ 300 -> b < 10 ^ 300 -> c < 10 ^ 300 ->
  a * 3600 + b * 60 + (c + 1) < float_overflow.
Proof.
  assert (H : 3661 * 10 ^ 300 < float_overflow) by (vm_compute; reflexivity).
  revert H. generalize (10 ^ 300). generalize float_overflow. intros. lia.
Qed.

Lemma short_num (s : string) :
  is_digits s = true -> (String.length s <= 300)%nat -> num s < 10 ^ 300.
Proof.
  intros H Hl. eapply Z.lt_le_trans; [apply (num_lt_pow _ H)|].
  apply Z.pow_le_mono_r; lia.
Qed.

Lemma short_below_limit (n : nat) :
  (n <= 300)%nat -> (n <= max_str_digits)%nat.
Proof.
  intros H. apply (Nat.le_trans _ 300); [exact H|].
  apply Nat.leb_le. vm_compute. reflexivity.
Qed.

(** ** Floats in and out of range *)

Lemma float_overflow_pos : (0 < inject_Z float_overflow)%Q.
Proof.
  change 0%Q with (inject_Z 0). rewrite <- Zlt_Qlt. vm_compute. reflexivity.
Qed.

Lemma to_float_finite (q : Q) :
  (- inject_Z float_overflow < q)%Q -> (q < inject_Z float_overflow)%Q ->
  to_float q = Finite q.
Proof.
  intros Hlo Hhi. unfold to_float.
  destruct (Qle_bool (inject_Z float_overflow) q) eqn:E1.
  { apply Qle_bool_iff in E1. lra. }
  destruct (Qle_bool q (inject_Z (- float_overflow))) eqn:E2.
  { apply Qle_bool_iff in E2. rewrite inject_Z_opp in E2. lra. }
  reflexivity.
Qed.


Lemma int_plus_float_finite (i : Z) (q : Q) :
  0 <= i -> (0 <= q)%Q -> (inject_Z i + q < inject_Z float_overflow)%Q ->
  int_plus_float i (to_float q) = Ok (Finite (inject_Z i + q)).
Proof.
  intros Hi Hq Hv. pose proof float_overflow_pos as Hp.
  assert (Hi' : (0 <= inject_Z i)%Q)
    by (change 0%Q with (inject_Z 0); rewrite <- Zle_Qle; exact Hi).
  assert (Hlt : i < float_overflow) by (rewrite Zlt_Qlt; lra).
  unfold int_plus_float. rewrite Z.abs_eq by exact Hi.
  destruct (float_overflow <=? i) eqn:E; [apply Z.leb_le in E; lia|].
  rewrite (to_float_finite q), (to_float_finite (inject_Z i + q)) by lra.
  reflexivity.
Qed.



(** ** What [int] and [float] reject *)














(** ** Timestamps *)

Example parse_timestamp_hms :
  parse_timestamp "00:01:05.250" = Ok (Finite 65.250%Q).
Proof. vm_compute. reflexivity. Qed.

Example parse_timestamp_ms : parse_timestamp "1:05.250" = Ok (Finite 65.250%Q).
Proof. vm_compute. reflexivity. Qed.

Example parse_timestamp_comma :
  parse_timestamp "00:01:05,250" = Ok (Finite 65.250%Q).
Proof. vm_compute. reflexivity. Qed.

Example parse_timestamp_garbage : parse_timestamp "garbage" = Ok (Finite 0).
Proof. reflexivity. Qed.

Lemma decimal_not_letter c :
  Py.is_decimal c = true ->
  Ascii.eqb (Py.lower_char c) "i" = false
  /\ Ascii.eqb (Py.lower_char c) "n" = false.
Proof. intros H. by_char c. Qed.

(** A text that starts with a digit is none of [inf], [infinity], [nan]. *)
Lemma special_float_digits whole rest :
  is_digits whole = true ->
  Py.all_chars not_space (whole ++ rest) = true ->
  special_float (whole ++ rest) = None.
Proof.
  intros Hw Hsp. unfold special_float.
  rewrite (strip_id _ Hsp), (read_sign_digits _ _ Hw).
  unfold is_digits in Hw. apply andb_true_iff in Hw as [Hne Hs].
  destruct whole as [|c w]; [discriminate Hne|].
  simpl in Hs. apply andb_true_iff in Hs as [Hc _].
  destruct (decimal_not_letter _ Hc) as [Hi Hn].
  cbn [append Py.lower String.eqb]. rewrite Hi, Hn. reflexivity.
Qed.

Lemma float_number_decimal whole frac :
  is_digits whole = true -> is_digits frac = true ->
  exists q, float_number (whole ++ String "." frac) = Ok (to_float q)
            /\ (q == decimal_value whole frac)%Q.
Proof.
  intros Hw Hf. destruct (float_of_str_decimal _ _ Hw Hf) as (q & Hq & Hv).
  exists q. split; [|exact Hv]. unfold float_number.
  rewrite special_float_digits, Hq; [reflexivity|exact Hw|].
  rewrite all_chars_app. simpl.
  rewrite !digits_not_space by (apply is_digits_all; assumption). reflexivity.
Qed.

(** What [parse_timestamp] computes on the text of three digit fields. *)
Lemma parse_timestamp_three_steps h m sec sep frac :
  is_digits h = true -> is_digits m = true -> is_digits sec = true ->
  is_sep sep = true -> is_digits frac = true ->
  exists q,
    (q == decimal_value sec frac)%Q
    /\ parse_timestamp (h ++ String ":" (m ++ String ":" (sec ++ String sep frac)))
       = (let* h' := py_int h in
          let* m' := py_int m in
          int_plus_float (h' * 3600 + m' * 60) (to_float q)).
Proof.
  intros Hh Hm Hs Hp Hf.
  destruct (seconds_text_clean _ _ _ Hs Hp Hf) as (Hrep & Hsp & Hco).
  destruct (float_number_decimal _ _ Hs Hf) as (q & Hq & Hv).
  pose proof (is_digits_all _ Hh) as Hh'. pose proof (is_digits_all _ Hm) as Hm'.
  exists q. split; [exact Hv|].
  unfold parse_timestamp.
  rewrite replace_char_app. simpl Py.replace_char.
  rewrite replace_char_app. simpl Py.replace_char.
  rewrite Hrep, !replace_comma_digits by assumption.
  rewrite strip_id.
  2:{ rewrite all_chars_app. simpl. rewrite all_chars_app. simpl.
      rewrite Hsp, !digits_not_space by assumption. reflexivity. }
  rewrite split_on_cons by (apply digits_no_colon; assumption).
  rewrite split_on_cons by (apply digits_no_colon; assumption).
  rewrite split_on_single by assumption.
  destruct (py_int h) as [h'|e]; [|reflexivity].
  destruct (py_int m) as [m'|e]; [|reflexivity].
  cbn [bind]. rewrite Hq. reflexivity.
Qed.


Lemma py_int_short s :
  is_digits s = true -> (String.length s <= max_str_digits)%nat ->
  py_int s = Ok (num s).
Proof. intros H Hl. unfold py_int. rewrite int_of_str_short; auto. Qed.


(** A dotted or comma-separated [H:M:S] timestamp within the limits of
    [int] and of the floats parses to its value. *)
Lemma parse_timestamp_three h m sec sep frac :
  is_digits h = true -> is_digits m = true -> is_digits sec = true ->
  is_sep sep = true -> is_digits frac = true ->
  (String.length h <= max_str_digits)%nat ->
  (String.length m <= max_str_digits)%nat ->
  (inject_Z (num h * 3600) + inject_Z (num m * 60) + decimal_value sec frac
   < inject_Z float_overflow)%Q ->
  exists q,
    parse_timestamp (h ++ String ":" (m ++ String ":" (sec ++ String sep frac)))
    = Ok (Finite q)
    /\ (q == inject_Z (num h * 3600) + inject_Z (num m * 60)
             + decimal_value sec frac)%Q.
Proof.
  intros Hh Hm Hs Hp Hf Lh Lm Hv.
  destruct (parse_timestamp_three_steps h m sec sep frac Hh Hm Hs Hp Hf)
    as (q & Hq & ->).
  rewrite (py_int_short _ Hh Lh), (py_int_short _ Hm Lm). cbn [bind].
  pose proof (num_nonneg _ Hh). pose proof (num_nonneg _ Hm).
  pose proof (decimal_value_nonneg _ _ Hs Hf) as Hd.
  rewrite int_plus_float_finite.
  - eexists. split; [reflexivity|]. rewrite inject_Z_plus, Hq. reflexivity.
  - lia.
  - rewrite Hq. exact Hd.
  - rewrite inject_Z_plus, Hq. exact Hv.
Qed.




(** Fields of at most 300 digits are within all the limits. *)
Lemma short_stamp_value h m sec frac :
  is_digits h = true -> is_digits m = true -> is_digits sec = true ->
  is_digits frac = true ->
  (String.length h <= 300)%nat -> (String.length m <= 300)%nat ->
  (String.length sec <= 300)%nat ->
  (inject_Z (num h * 3600) + inject_Z (num m * 60) + decimal_value sec frac
   < inject_Z float_overflow)%Q.
Proof.
  intros Hh Hm Hs Hf Lh Lm Ls.
  pose proof (short_fields_bound _ _ _ (short_num _ Hh Lh) (short_num _ Hm Lm)
                (short_num _ Hs Ls)) as Hb.
  pose proof (decimal_value_lt _ _ Hs Hf) as Hd.
  rewrite Zlt_Qlt in Hb. rewrite !inject_Z_plus in Hb.
  rewrite inject_Z_plus in Hd. lra.
Qed.



(** ** What the cue pattern accepts *)

Import ReFacts.

Lemma lit_true c d : Ascii.eqb c d = true -> d = c.
Proof. intros H. apply Ascii.eqb_eq in H. congruence. Qed.

Lemma digits_of_run pre :
  Py.all_chars Py.is_decimal pre = true -> (1 <= String.length pre)%nat ->
  is_digits pre = true.
Proof.
  intros H Hl. unfold is_digits. rewrite H.
  destruct pre; simpl in *; [lia | reflexivity].
Qed.

Lemma stamp_re_sound s caps rest :
  In (caps, rest) (Re.run stamp_re s) ->
  caps = [] /\ exists g, s = g ++ rest /\ is_stamp g.
Proof.
  unfold stamp_re, Re.seq. intros H.
  apply in_run_cat in H as (c1 & s1 & c1' & H1 & H & ->).
  apply in_run_cat in H as (c2 & s2 & c2' & H2 & H & ->).
  apply in_run_cat in H as (c3 & s3 & c3' & H3 & H & ->).
  apply in_run_cat in H as (c4 & s4 & c4' & H4 & H & ->).
  apply in_run_cat in H as (c5 & s5 & c5' & H5 & H & ->).
  apply in_run_cat in H as (c6 & s6 & c6' & H6 & H7 & ->).
  apply in_run_rep in H1 as (-> & h & -> & Hh & Hh1 & Hh2).
  apply in_run_chr in H2 as (-> & x & -> & Hx). apply lit_true in Hx as ->.
  apply in_run_rep in H3 as (-> & m & -> & Hm & Hm1 & Hm2).
  apply in_run_chr in H4 as (-> & x & -> & Hx). apply lit_true in Hx as ->.
  apply in_run_rep in H5 as (-> & sec & -> & Hsec & Hs1 & Hs2).
  apply in_run_chr in H6 as (-> & sep & -> & Hsep).
  apply in_run_rep in H7 as (-> & frac & -> & Hf & Hf1 & _).
  simpl in Hh2, Hm2, Hs2.
  split; [reflexivity|].
  exists (stamp_text h m sec sep frac). split.
  - unfold stamp_text. rewrite !append_assoc. simpl.
    rewrite !append_assoc. simpl. rewrite !append_assoc. reflexivity.
  - exists h, m, sec, sep, frac.
    repeat split; try assumption; try lia;
      apply digits_of_run; try assumption; lia.
Qed.

Lemma group_text g rest :
  Py.take (String.length (g ++ rest) - String.length rest) (g ++ rest) = g.
Proof.
  rewrite length_append.
  replace (String.length g + String.length rest - String.length rest)%nat
    with (String.length g) by lia.
  apply take_app_length.
Qed.

Lemma timestamp_pattern_sound s caps rest :
  In (caps, rest) (Re.run timestamp_pattern s) ->
  exists g1 g2 tail, caps = [g1; g2] /\ is_stamp g1 /\ is_stamp g2
                     /\ s = g1 ++ tail.
Proof.
  unfold timestamp_pattern, Re.seq. intros H.
  apply in_run_cat in H as (c1 & s1 & c1' & H1 & H & ->).
  apply in_run_cat in H as (c2 & s2 & c2' & H2 & H & ->).
  apply in_run_cat in H as (c3 & s3 & c3' & H3 & H & ->).
  apply in_run_cat in H as (c4 & s4 & c4' & H4 & H & ->).
  apply in_run_cat in H as (c5 & s5 & c5' & H5 & H & ->).
  apply in_run_cat in H as (c6 & s6 & c6' & H6 & H7 & ->).
  apply in_run_grp in H1 as (d1 & H1 & ->).
  apply stamp_re_sound in H1 as (-> & g1 & -> & Hg1).
  apply in_run_rep in H2 as (-> & _).
  apply in_run_chr in H3 as (-> & _).
  apply in_run_chr in H4 as (-> & _).
  apply in_run_chr in H5 as (-> & _).
  apply in_run_rep in H6 as (-> & _).
  apply in_run_grp in H7 as (d2 & H7 & ->).
  apply stamp_re_sound in H7 as (-> & g2 & -> & Hg2).
  rewrite !group_text. exists g1, g2, s1. simpl. auto.
Qed.

(** The same with the text between the two timestamps. *)
Lemma timestamp_pattern_shape s caps rest :
  In (caps, rest) (Re.run timestamp_pattern s) ->
  exists g1 g2 ws1 ws2,
    caps = [g1; g2] /\ is_stamp g1 /\ is_stamp g2
    /\ s = g1 ++ ws1 ++ "-->" ++ ws2 ++ g2 ++ rest
    /\ Py.all_chars Py.isspace ws1 = true
    /\ Py.all_chars Py.isspace ws2 = true.
Proof.
  unfold timestamp_pattern, Re.seq. intros H.
  apply in_run_cat in H as (c1 & s1 & c1' & H1 & H & ->).
  apply in_run_cat in H as (c2 & s2 & c2' & H2 & H & ->).
  apply in_run_cat in H as (c3 & s3 & c3' & H3 & H & ->).
  apply in_run_cat in H as (c4 & s4 & c4' & H4 & H & ->).
  apply in_run_cat in H as (c5 & s5 & c5' & H5 & H & ->).
  apply in_run_cat in H as (c6 & s6 & c6' & H6 & H7 & ->).
  apply in_run_grp in H1 as (d1 & H1 & ->).
  apply stamp_re_sound in H1 as (-> & g1 & -> & Hg1).
  apply in_run_rep in H2 as (-> & ws1 & -> & Hws1 & _).
  apply in_run_chr in H3 as (-> & x3 & -> & Hx3). apply lit_true in Hx3 as ->.
  apply in_run_chr in H4 as (-> & x4 & -> & Hx4). apply lit_true in Hx4 as ->.
  apply in_run_chr in H5 as (-> & x5 & -> & Hx5). apply lit_true in Hx5 as ->.
  apply in_run_rep in H6 as (-> & ws2 & -> & Hws2 & _).
  apply in_run_grp in H7 as (d2 & H7 & ->).
  apply stamp_re_sound in H7 as (-> & g2 & -> & Hg2).
  rewrite !group_text. exists g1, g2, ws1, ws2. simpl. auto 10.
Qed.

(** The timestamps captured by the cue pattern always parse. *)
Lemma parse_timestamp_stamp g :
  is_stamp g ->
  exists q h m sec sep frac,
    parse_timestamp g = Ok (Finite q)
    /\ g = stamp_text h m sec sep frac
    /\ is_digits h = true /\ is_digits m = true /\ is_digits sec = true
    /\ is_sep sep = true /\ is_digits frac = true
    /\ (q == inject_Z (num h * 3600) + inject_Z (num m * 60)
             + decimal_value sec frac)%Q.
Proof.
  intros (h & m & sec & sep & frac & -> & Hh & Lh & Hm & Lm & Hs & Ls & Hp & Hf).
  destruct (parse_timestamp_three h m sec sep frac Hh Hm Hs Hp Hf)
    as (q & Hq & Hv).
  - apply short_below_limit. lia.
  - apply short_below_limit. lia.
  - apply short_stamp_value; try assumption; lia.
  - exists q, h, m, sec, sep, frac. auto 10.
Qed.

(** A run of characters of one class ends at the first character outside
    the class. *)
Lemma run_unique (p : ascii -> bool) x x' c c' y y' :
  Py.all_chars p x = true -> Py.all_chars p x' = true ->
  p c = false -> p c' = false ->
  x ++ String c y = x' ++ String c' y' -> x = x' /\ c = c' /\ y = y'.
Proof.
  revert x'. induction x as [|a x IH]; intros [|a' x'] Hx Hx' Hc Hc' E;
    simpl in *.
  - injection E as -> ->. auto.
  - injection E as -> _. apply andb_true_iff in Hx' as [Ha _]. congruence.
  - injection E as -> _. apply andb_true_iff in Hx as [Ha _]. congruence.
  - injection E as -> E. apply andb_true_iff in Hx as [_ Hx].
    apply andb_true_iff in Hx' as [_ Hx'].
    destruct (IH x' Hx Hx' Hc Hc' E) as (-> & -> & ->). auto.
Qed.

(** A line that starts with a two-part [M:S] timestamp is not a cue line. *)
Lemma two_part_not_cue s a b sep rest :
  s = a ++ String ":" (b ++ String sep rest) ->
  is_digits a = true -> is_digits b = true -> is_sep sep = true ->
  is_cue s = false.
Proof.
  intros -> Ha Hb Hsep. unfold is_cue.
  destruct (Re.rmatch timestamp_pattern _) as [caps|] eqn:Hm; [|reflexivity].
  exfalso. apply rmatch_some in Hm as (r & Hm).
  apply timestamp_pattern_sound in Hm as (g1 & g2 & tail & _ & Hg1 & _ & E).
  destruct Hg1 as (h & m & sec & sp & frac & -> & Hh & _ & Hm' & _).
  unfold stamp_text in E. rewrite append_assoc in E. simpl in E.
  apply is_digits_all in Ha, Hb, Hh, Hm'.
  apply run_unique with (p := Py.is_decimal) in E as (_ & _ & E);
    try assumption; try reflexivity.
  rewrite append_assoc in E. simpl in E.
  apply run_unique with (p := Py.is_decimal) in E as (_ & E & _);
    try assumption; try reflexivity.
  - subst sep. discriminate.
  - destruct (sep_facts _ Hsep) as (_ & Hd & _). exact Hd.
Qed.

(** ** The scan over the caption lines *)

Lemma scan_not_cue l rest :
  is_cue_line l = false -> scan (l :: rest) = scan rest.
Proof.
  unfold is_cue_line, is_cue. simpl.
  destruct (Re.rmatch timestamp_pattern (Py.strip l)); [discriminate|reflexivity].
Qed.

(** At a cue line the scan parses the two timestamps, takes the run of text
    lines that follows and goes on after it. *)
Lemma scan_cue l rest groups :
  Re.rmatch timestamp_pattern (Py.strip l) = Some groups ->
  scan (l :: rest) =
  let* start_sec := parse_timestamp (nth 0 groups "") in
  let* end_sec := parse_timestamp (nth 1 groups "") in
  emit (finite start_sec) (finite end_sec) (text_run rest)
    (scan (after_text rest)).
Proof.
  intros Hm. simpl. rewrite Hm.
  destruct (parse_timestamp (nth 0 groups "")) as [q1|]; [|reflexivity].
  destruct (parse_timestamp (nth 1 groups "")) as [q2|]; [|reflexivity].
  simpl.
  match goal with
  | |- ?F [] rest = _ =>
      enough (Hc : forall ls acc,
                 F acc ls
                 = emit (finite q1) (finite q2) (acc ++ text_run ls)%list
                     (scan (after_text ls)))
        by apply Hc
  end.
  induction ls as [|t ls IH]; intros acc.
  - simpl. rewrite app_nil_r. reflexivity.
  - cbn [text_run after_text]. unfold is_text_line.
    destruct (ends_text (Py.strip t)) eqn:He; simpl negb; cbv iota.
    + rewrite app_nil_r. reflexivity.
    + rewrite IH, <- app_assoc. reflexivity.
Qed.

Lemma after_text_length ls : (length (after_text ls) <= length ls)%nat.
Proof.
  induction ls as [|t ls IH]; simpl; [lia|].
  destruct (is_text_line t); simpl; lia.
Qed.

Lemma text_line_not_cue t : is_text_line t = true -> is_cue_line t = false.
Proof.
  unfold is_text_line, is_cue_line, ends_text. intros H.
  apply negb_true_iff, orb_false_iff in H as [H _].
  apply orb_false_iff in H as [_ H]. exact H.
Qed.

Lemma cue_blocks_skip_text ls : cue_blocks (after_text ls) = cue_blocks ls.
Proof.
  induction ls as [|t ls IH]; [reflexivity|].
  cbn [after_text]. destruct (is_text_line t) eqn:Ht; [|reflexivity].
  rewrite IH. cbn [cue_blocks].
  rewrite (text_line_not_cue _ Ht). destruct ls; reflexivity.
Qed.

Lemma text_run_nil rest :
  text_run rest = [] ->
  match rest with t :: _ => is_text_line t = false | [] => True end.
Proof.
  destruct rest as [|t rest]; simpl; [auto|].
  destruct (is_text_line t); [discriminate|reflexivity].
Qed.

Lemma text_run_nonempty ls x :
  In x (text_run ls) -> x <> "".
Proof.
  induction ls as [|t ls IH]; simpl; [intros []|].
  destruct (is_text_line t) eqn:Ht; [|intros []].
  intros [<-|H]; [|auto].
  unfold is_text_line, ends_text in Ht.
  apply negb_true_iff, orb_false_iff in Ht as [Ht _].
  apply orb_false_iff in Ht as [Ht _].
  destruct (Py.strip t); [discriminate|congruence].
Qed.

Lemma join_space_nonempty parts :
  parts <> [] -> (forall x, In x parts -> x <> "") ->
  Py.join_space parts <> "".
Proof.
  destruct parts as [|p ps]; [congruence|]. intros _ H.
  assert (Hp : p <> "") by (apply H; left; reflexivity).
  destruct p as [|c p]; [congruence|].
  simpl. destruct ps; simpl; discriminate.
Qed.

Lemma after_text_incl ls x : In x (after_text ls) -> In x ls.
Proof.
  induction ls as [|t ls IH]; simpl; [auto|].
  destruct (is_text_line t); simpl; auto.
Qed.

(** The scan never raises; it yields one segment per well-formed cue
    block, each with non-empty text and with the times of its cue line. *)
Lemma scan_segments lines :
  exists segs,
    scan lines = Ok segs
    /\ length segs = cue_blocks lines
    /\ Forall (fun seg => snd seg <> "" /\ from_cue lines seg) segs.
Proof.
  remember (length lines) as n eqn:Hn.
  assert (Hle : (length lines <= n)%nat) by lia. clear Hn.
  revert lines Hle. induction n as [|n IH]; intros lines Hle.
  { destruct lines; [|simpl in Hle; lia]. exists []. simpl. auto. }
  destruct lines as [|l rest]; [exists []; simpl; auto|].
  simpl in Hle.
  destruct (Re.rmatch timestamp_pattern (Py.strip l)) as [groups|] eqn:Hm.
  - pose proof (after_text_length rest) as Hlen.
    destruct (IH (after_text rest)) as (segs & Hs & Hc & Hall); [lia|].
    destruct (rmatch_some _ _ _ Hm) as (r & Hin).
    apply timestamp_pattern_sound in Hin as (g1 & g2 & tail & -> & Hg1 & Hg2 & _).
    destruct (parse_timestamp_stamp _ Hg1) as (q1 & _ & _ & _ & _ & _ & Hq1 & _).
    destruct (parse_timestamp_stamp _ Hg2) as (q2 & _ & _ & _ & _ & _ & Hq2 & _).
    rewrite (scan_cue _ _ _ Hm). simpl nth. rewrite Hq1, Hq2, Hs.
    cbn [bind finite].
    assert (Hcue : is_cue_line l = true).
    { unfold is_cue_line, is_cue. rewrite Hm. reflexivity. }
    assert (Hrest : Forall (fun seg => snd seg <> "" /\ from_cue (l :: rest) seg) segs).
    { eapply List.Forall_impl; [|exact Hall]. intros seg [Ht (l' & a & b & Hl' & Hx)].
      split; [exact Ht|]. exists l', a, b. split; [|exact Hx].
      right. apply after_text_incl, Hl'. }
    destruct (text_run rest) as [|t ts] eqn:Htr.
    + exists segs. simpl emit. split; [reflexivity|]. split; [|exact Hrest].
      cbn [cue_blocks]. rewrite Hc, cue_blocks_skip_text.
      apply text_run_nil in Htr. destruct rest; [reflexivity|].
      rewrite Htr, andb_false_r. reflexivity.
    + exists ((q1, q2, Py.join_space (t :: ts)) :: segs).
      split; [reflexivity|]. split.
      * cbn [cue_blocks length]. rewrite Hc, cue_blocks_skip_text.
        destruct rest as [|t' rest']; [discriminate|].
        simpl in Htr. destruct (is_text_line t'); [|discriminate].
        rewrite Hcue. reflexivity.
      * constructor; [|exact Hrest]. split.
        -- apply (join_space_nonempty (t :: ts)); [discriminate|].
           intros x Hx. apply (text_run_nonempty rest). rewrite Htr. exact Hx.
        -- exists l, g1, g2. simpl. auto.
  - assert (Hcue : is_cue_line l = false).
    { unfold is_cue_line, is_cue. rewrite Hm. reflexivity. }
    destruct (IH rest) as (segs & Hs & Hc & Hall); [lia|].
    exists segs. rewrite (scan_not_cue _ _ Hcue). split; [exact Hs|]. split.
    + cbn [cue_blocks]. rewrite Hcue. simpl. rewrite Hc. destruct rest; reflexivity.
    + eapply List.Forall_impl; [|exact Hall]. intros seg [Ht (l' & a & b & Hl' & Hx)].
      split; [exact Ht|]. exists l', a, b. split; [right; exact Hl'|exact Hx].
Qed.

Lemma scan_no_cue lines :
  (forall l, In l lines -> is_cue_line l = false) -> scan lines = Ok [].
Proof.
  induction lines as [|l rest IH]; intros H; [reflexivity|].
  rewrite scan_not_cue by (apply H; left; reflexivity).
  apply IH. intros l' Hl'. apply H. right. exact Hl'.
Qed.

Lemma cue_block_list_length lines :
  length (cue_block_list lines) = cue_blocks lines.
Proof.
  induction lines as [|l rest IH]; [reflexivity|].
  cbn [cue_block_list cue_blocks]. destruct rest as [|t rest']; [reflexivity|].
  destruct (is_cue_line l && is_text_line t); cbn [length]; rewrite IH;
    reflexivity.
Qed.

Lemma cue_block_list_skip_text ls :
  cue_block_list (after_text ls) = cue_block_list ls.
Proof.
  induction ls as [|t ls IH]; [reflexivity|].
  cbn [after_text]. destruct (is_text_line t) eqn:Ht; [|reflexivity].
  rewrite IH. cbn [cue_block_list].
  rewrite (text_line_not_cue _ Ht). destruct ls; reflexivity.
Qed.

Lemma stamp_reads_as g :
  is_stamp g ->
  exists q, parse_timestamp g = Ok (Finite q) /\ reads_as g q.
Proof.
  intros Hg.
  destruct (parse_timestamp_stamp _ Hg)
    as (q & h & m & sec & sep & frac & Hq & E & Hh & Hm & Hs & Hp & Hf & Hv).
  exists q. split; [exact Hq|]. exists h, m, sec, sep, frac. auto 10.
Qed.

(** The scan never raises, and its segments are the well-formed cue blocks
    of the lines, one for one and in their order. *)
Lemma scan_blocks lines :
  exists segs,
    scan lines = Ok segs
    /\ Forall2 segment_of_block (cue_block_list lines) segs.
Proof.
  remember (length lines) as n eqn:Hn.
  assert (Hle : (length lines <= n)%nat) by lia. clear Hn.
  revert lines Hle. induction n as [|n IH]; intros lines Hle.
  { destruct lines; [|simpl in Hle; lia]. exists []. split; [reflexivity|].
    constructor. }
  destruct lines as [|l rest]; [exists []; split; [reflexivity|constructor]|].
  simpl in Hle.
  destruct (Re.rmatch timestamp_pattern (Py.strip l)) as [groups|] eqn:Hm.
  - pose proof (after_text_length rest) as Hlen.
    destruct (IH (after_text rest)) as (segs & Hs & Hall); [lia|].
    rewrite cue_block_list_skip_text in Hall.
    destruct (rmatch_some _ _ _ Hm) as (r & Hin).
    apply timestamp_pattern_shape in Hin
      as (g1 & g2 & ws1 & ws2 & -> & Hg1 & Hg2 & Hline & Hws1 & Hws2).
    destruct (stamp_reads_as _ Hg1) as (q1 & Hq1 & Hr1).
    destruct (stamp_reads_as _ Hg2) as (q2 & Hq2 & Hr2).
    rewrite (scan_cue _ _ _ Hm). simpl nth. rewrite Hq1, Hq2, Hs.
    cbn [bind finite].
    assert (Hcue : is_cue_line l = true).
    { unfold is_cue_line, is_cue. rewrite Hm. reflexivity. }
    destruct (text_run rest) as [|t ts] eqn:Htr.
    + exists segs. simpl emit. split; [reflexivity|].
      cbn [cue_block_list]. apply text_run_nil in Htr.
      destruct rest as [|t' rest']; [exact Hall|].
      rewrite Htr, andb_false_r. exact Hall.
    + exists ((q1, q2, Py.join_space (t :: ts)) :: segs).
      split; [reflexivity|].
      cbn [cue_block_list].
      destruct rest as [|t' rest']; [discriminate Htr|].
      assert (Htext : is_text_line t' = true).
      { simpl in Htr. destruct (is_text_line t'); [reflexivity|discriminate]. }
      rewrite Hcue, Htext. cbn [andb].
      constructor; [|exact Hall].
      exists g1, g2. cbn [fst snd]. rewrite Htr.
      assert (Hne : Py.join_space (t :: ts) <> "").
      { apply (join_space_nonempty (t :: ts)); [discriminate|].
        intros x Hx. apply (text_run_nonempty (t' :: rest')).
        rewrite Htr. exact Hx. }
      repeat split; try assumption; try discriminate.
      exists ws1, ws2, r. auto.
  - assert (Hcue : is_cue_line l = false).
    { unfold is_cue_line, is_cue. rewrite Hm. reflexivity. }
    destruct (IH rest) as (segs & Hs & Hall); [lia|].
    exists segs. rewrite (scan_not_cue _ _ Hcue). split; [exact Hs|].
    cbn [cue_block_list]. rewrite Hcue.
    destruct rest as [|t rest']; [|exact Hall].
    apply Forall2_length in Hall. destruct segs; [constructor|discriminate].
Qed.

(** ** Claims about [extract_metrics] *)




(** C8, counterexample: a single well-formed cue block whose end time is
    written before its start time gives a segment with
    [end_sec < start_sec]. *)
Lemma reversed_cue_gives_reversed_segment :
  let content := "00:00:10.000 --> 00:00:05.000" ++ String nl "Hello" in
  cue_blocks (caption_lines content) = 1%nat
  /\ exists start_sec end_sec,
       parse_vtt_segments (Some content) = Ok [(start_sec, end_sec, "Hello")]
       /\ (end_sec < start_sec)%Q.
Proof.
  split; [reflexivity|].
  eexists. eexists. split; [vm_compute; reflexivity|]. reflexivity.
Qed.

(** C8, amended: [parse_vtt_segments] never raises; missing or empty input
    gives the empty list; for every caption input its segments are the
    well-formed cue blocks of the input (a line matching the
    timestamp-range pattern directly followed by a text line, with the
    run of text lines that follows), one for one and in their order, so a
    cue without text lines gives none and the number of segments is the
    number of well-formed cue blocks; the [start_sec] and the [end_sec]
    of a segment are the values of the first and of the second timestamp
    of the cue line of its own block, in the order written (their order is
    not checked), and its text, which is not empty, is the text lines of
    that block joined by spaces. *)
Theorem parse_vtt_segments_blocks :
  parse_vtt_segments None = Ok []
  /\ parse_vtt_segments (Some "") = Ok []
  /\ forall content,
       exists segs,
         parse_vtt_segments (Some content) = Ok segs
         /\ Forall2 segment_of_block (cue_block_list (caption_lines content))
              segs
         /\ length segs = cue_blocks (caption_lines content)
         /\ Forall (fun seg => snd seg <> ""
                               /\ from_cue (caption_lines content) seg) segs.
Proof.
  split; [reflexivity|]. split; [reflexivity|].
  intros [|c content].
  - exists []. repeat split; constructor.
  - destruct (scan_blocks (caption_lines (String c content)))
      as (segs & Hs & Hblocks).
    destruct (scan_segments (caption_lines (String c content)))
      as (segs' & Hs' & Hlen & Hall).
    rewrite Hs in Hs'. injection Hs' as <-.
    exists segs. auto.
Qed.

(** C10: a line that starts with a two-part [M:S.f] timestamp never matches
    the cue pattern, whatever follows; lines that do not match produce no
    segment: captions without a matching line give the empty list, and
    every segment of any captions stems from a line that matches; and
    [parse_timestamp] does accept the two-part form. *)
Theorem two_part_cues_not_recognised :
  (forall line a b sep rest,
      Py.strip line = a ++ String ":" (b ++ String sep rest) ->
      is_digits a = true -> is_digits b = true -> is_sep sep = true ->
      is_cue_line line = false)
  /\ (forall content,
         content <> "" ->
         (forall l, In l (caption_lines content) -> is_cue_line l = false) ->
         parse_vtt_segments (Some content) = Ok [])
  /\ (forall content segs seg,
         parse_vtt_segments (Some content) = Ok segs -> In seg segs ->
         exists l, In l (caption_lines content) /\ is_cue_line l = true)
  /\ parse_vtt_segments
       (Some ("1:05.250 --> 1:10.000" ++ String nl "Hello")) = Ok []
  /\ (exists q, parse_timestamp "1:05.250" = Ok (Finite q) /\ (q == 65.25)%Q).
Proof.
  split.
  { intros line a b sep rest E Ha Hb Hs. unfold is_cue_line.
    exact (two_part_not_cue _ a b sep rest E Ha Hb Hs). }
  split.
  { intros [|c content] Hne H; [congruence|].
    apply (scan_no_cue (caption_lines (String c content))), H. }
  split.
  { intros [|c content] segs seg Hp Hin.
    - injection Hp as <-. destruct Hin.
    - destruct (scan_segments (caption_lines (String c content)))
        as (segs' & Hs & _ & Hall).
      change (scan (caption_lines (String c content)) = Ok segs) in Hp.
      rewrite Hs in Hp. injection Hp as <-.
      rewrite List.Forall_forall in Hall.
      destruct (Hall seg Hin) as [_ (l & g1 & g2 & Hl & Hm & _)].
      exists l. split; [exact Hl|]. unfold is_cue_line, is_cue.
      rewrite Hm. reflexivity. }
  split; [vm_compute; reflexivity|].
  eexists. split; [vm_compute; reflexivity|reflexivity].
Qed.

Lemma two_part_cues_not_recognised_witness :
  is_cue_line "  1:05.250 --> 1:10.000 " = false
  /\ parse_vtt_segments
       (Some ("12:05,2 --> 12:10,0" ++ String nl "Hello")) = Ok [].
Proof.
  split.
  - exact (proj1 two_part_cues_not_recognised "  1:05.250 --> 1:10.000 "
             "1" "05" "."%char "250 --> 1:10.000"
             eq_refl eq_refl eq_refl eq_refl).
  - apply (proj1 (proj2 two_part_cues_not_recognised)).
    + discriminate.
    + intros l Hl. vm_compute in Hl.
      destruct Hl as [<-|[<-|[]]]; reflexivity.
Defined.

(** ** The speaker pattern *)

Lemma split_colon_some s a b :
  split_colon s = Some (a, b) ->
  s = a ++ String ":" b /\ Py.all_chars no_colon a = true.
Proof.
  revert a. induction s as [|c s IH]; intros a; simpl; [discriminate|].
  destruct (Ascii.eqb_spec c ":") as [->|Hc].
  - intros H. injection H as <- <-. auto.
  - destruct (split_colon s) as [[a' b']|]; [|discriminate].
    intros H. injection H as <- <-. destruct (IH a' eq_refl) as [-> Ha].
    split; [reflexivity|]. simpl. rewrite Ha. unfold no_colon.
    apply Ascii.eqb_neq in Hc. rewrite Hc. reflexivity.
Qed.

Lemma split_colon_none s :
  split_colon s = None -> Py.all_chars no_colon s = true.
Proof.
  induction s as [|c s IH]; simpl; [reflexivity|].
  unfold no_colon at 1. destruct (Ascii.eqb c ":"); [discriminate|].
  destruct (split_colon s) as [[a b]|]; [discriminate|]. intros _. apply IH.
  reflexivity.
Qed.

Lemma speaker_pattern_sound s caps rest :
  In (caps, rest) (Re.run speaker_pattern s) ->
  exists name ws body,
    caps = [name; body]
    /\ s = name ++ String ":" (ws ++ body ++ rest)
    /\ Py.all_chars no_colon name = true
    /\ (2 <= String.length name <= 50)%nat
    /\ Py.all_chars Py.isspace ws = true
    /\ Py.all_chars Py.isspace rest = true.
Proof.
  unfold speaker_pattern, Re.seq. intros H.
  apply in_run_cat in H as (c1 & s1 & c1' & H1 & H & ->).
  apply in_run_cat in H as (c2 & s2 & c2' & H2 & H & ->).
  apply in_run_cat in H as (c3 & s3 & c3' & H3 & H & ->).
  apply in_run_cat in H as (c4 & s4 & c4' & H4 & H5 & ->).
  apply in_run_grp in H1 as (d1 & H1 & ->).
  apply in_run_rep in H1 as (-> & name & -> & Hn & Hn1 & Hn2).
  apply in_run_chr in H2 as (-> & x & -> & Hx). apply lit_true in Hx as ->.
  apply in_run_rep in H3 as (-> & ws & -> & Hws & _).
  apply in_run_grp in H4 as (d4 & H4 & ->).
  apply in_run_rep in H4 as (-> & body & -> & Hb & _).
  apply in_run_eos in H5 as (-> & -> & Hr).
  rewrite !group_text. simpl in Hn2.
  exists name, ws, body. repeat split; try assumption; try lia.
  destruct Hr as [->| ->]; reflexivity.
Qed.

Lemma speaker_pattern_complete name tail :
  Py.all_chars no_colon name = true ->
  (2 <= String.length name <= 50)%nat ->
  Py.all_chars not_newline tail = true ->
  Re.rmatch speaker_pattern (name ++ String ":" tail) <> None.
Proof.
  intros Hn Hl Ht Hnone.
  apply (proj1 (rmatch_none _ _) Hnone [name; tail] "").
  unfold speaker_pattern, Re.seq.
  apply in_run_cat. exists [name], (String ":" tail), [tail]. split.
  { apply in_run_grp. exists []. split.
    - apply in_run_rep. split; [reflexivity|]. exists name.
      repeat split; try assumption; simpl; lia.
    - rewrite group_text. reflexivity. }
  split; [|reflexivity].
  apply in_run_cat. exists [], tail, [tail]. split.
  { apply in_run_chr. split; [reflexivity|]. exists ":"%char. auto. }
  split; [|reflexivity].
  apply in_run_cat. exists [], tail, [tail]. split.
  { apply in_run_rep. split; [reflexivity|]. exists "".
    repeat split; simpl; lia. }
  split; [|reflexivity].
  apply in_run_cat. exists [tail], "", []. split.
  { apply in_run_grp. exists []. split.
    - apply in_run_rep. split; [reflexivity|]. exists tail.
      rewrite append_nil_r. repeat split; try assumption; simpl; lia.
    - rewrite Nat.sub_0_r. simpl.
      pose proof (take_app_length tail "") as E.
      rewrite append_nil_r in E. rewrite E. reflexivity. }
  split; [|reflexivity].
  apply in_run_eos. auto.
Qed.

(** What the two groups hold whenever the speaker pattern matches: the
    text before the first colon, and a text that strips to the same as what
    follows that colon. *)
Lemma speaker_groups name tail caps :
  Py.all_chars no_colon name = true ->
  Re.rmatch speaker_pattern (name ++ String ":" tail) = Some caps ->
  exists body, caps = [name; body] /\ Py.strip body = Py.strip tail.
Proof.
  intros Hn Hm. apply rmatch_some in Hm as (rest & Hin).
  apply speaker_pattern_sound in Hin
    as (name' & ws & body & -> & E & Hn' & _ & Hws & Hr).
  apply run_unique with (p := no_colon) in E as (<- & _ & ->);
    try assumption; try reflexivity.
  exists body. split; [reflexivity|].
  symmetry. apply strip_padded; assumption.
Qed.

Lemma speaker_no_token text :
  no_name_token text = true -> Re.rmatch speaker_pattern text = None.
Proof.
  unfold no_name_token. intros H.
  destruct (Re.rmatch speaker_pattern text) as [caps|] eqn:Hm; [|reflexivity].
  exfalso. apply rmatch_some in Hm as (rest & Hin).
  apply speaker_pattern_sound in Hin
    as (name & ws & body & _ & -> & Hn & Hl & _).
  destruct (split_colon _) as [[a b]|] eqn:Hs.
  - apply split_colon_some in Hs as [E Ha].
    apply run_unique with (p := no_colon) in E as (<- & _);
      try assumption; try reflexivity.
    apply orb_true_iff in H as [H|H]; apply Nat.ltb_lt in H; lia.
  - apply split_colon_none in Hs. rewrite all_chars_app in Hs.
    apply andb_true_iff in Hs as [_ Hs]. simpl in Hs. discriminate.
Qed.

(** C9, counterexample: with the coach name ["Doe "] (a trailing space) the
    segment ["Jane Doe: hi"] is credited to the coach, although neither
    lower-cased name is a substring of the other: the code compares the
    names after stripping them. *)
Lemma padded_coach_name_is_matched :
  let content := "00:00:01.000 --> 00:00:02.000" ++ String nl "Jane Doe: hi" in
  Py.contains (Py.lower "Jane Doe") (Py.lower "Doe ") = false
  /\ Py.contains (Py.lower "Doe ") (Py.lower "Jane Doe") = false
  /\ exists t,
       parse_vtt_with_speakers (Some content) (Some "Doe ") = Ok t
       /\ coach_words t = 1%nat /\ client_words t = 0%nat
       /\ (coach_duration_sec t == 1)%Q /\ (client_duration_sec t == 0)%Q.
Proof.
  split; [reflexivity|]. split; [reflexivity|].
  eexists. split; [reflexivity|]. repeat split.
Qed.

(** C9, amended: for a segment whose text is a name token of 2 to 50
    non-colon characters, a colon and a remainder on one line, the duration
    and the word count of the remainder go to COACH iff the lower-cased,
    whitespace-stripped coach name is a substring of the lower-cased,
    whitespace-stripped detected name or vice versa, and to CLIENT
    otherwise; a text without such a name token goes to CLIENT with the word
    count of the whole text; the totals are these steps folded over the
    parsed segments; an empty or missing coach name gives all zeros. *)
Theorem speaker_attribution_policy :
  (forall coach t start_sec end_sec name tail,
      Py.all_chars no_colon name = true ->
      (2 <= String.length name <= 50)%nat ->
      Py.all_chars not_newline tail = true ->
      attribute_segment coach t (start_sec, end_sec, name ++ String ":" tail)
      = if Py.contains (Py.lower (Py.strip name)) coach
           || Py.contains coach (Py.lower (Py.strip name))
        then add_coach t (end_sec - start_sec) (word_count (Py.strip tail))
        else add_client t (end_sec - start_sec) (word_count (Py.strip tail)))
  /\ (forall coach t start_sec end_sec text,
         no_name_token text = true ->
         attribute_segment coach t (start_sec, end_sec, text)
         = add_client t (end_sec - start_sec) (word_count text))
  /\ (forall content coach_name,
         content <> "" -> coach_name <> "" ->
         parse_vtt_with_speakers (Some content) (Some coach_name)
         = let* segments := parse_vtt_segments (Some content) in
           Ok (fold_left (attribute_segment (Py.strip (Py.lower coach_name)))
                 segments no_timing))
  /\ (forall vtt_content,
         parse_vtt_with_speakers vtt_content (Some "") = Ok no_timing
         /\ parse_vtt_with_speakers vtt_content None = Ok no_timing).
Proof.
  split.
  { intros coach t st en name tail Hn Hl Ht.
    pose proof (speaker_pattern_complete name tail Hn Hl Ht) as Hsome.
    destruct (Re.rmatch speaker_pattern (name ++ String ":" tail))
      as [caps|] eqn:Hm; [|congruence].
    destruct (speaker_groups _ _ _ Hn Hm) as (body & -> & Hb).
    unfold attribute_segment. rewrite Hm. simpl nth. rewrite Hb. reflexivity. }
  split.
  { intros coach t st en text H. unfold attribute_segment.
    rewrite (speaker_no_token _ H). reflexivity. }
  split.
  { intros [|c content] [|d name] Hc Hn; try congruence. reflexivity. }
  intros [[|c content]|]; split; reflexivity.
Qed.

Lemma speaker_attribution_policy_witness :
  attribute_segment "jane doe" no_timing (0, 2, "Jane: Hello there")%Q
  = add_coach no_timing (2 - 0)%Q 2
  /\ attribute_segment "jane doe" no_timing (0, 2, "Unknown Speaker: Hi")%Q
     = add_client no_timing (2 - 0)%Q 1
  /\ attribute_segment "jane doe" no_timing (0, 2, "no prefix here")%Q
     = add_client no_timing (2 - 0)%Q 3.
Proof.
  split; [|split].
  - apply (proj1 speaker_attribution_policy "jane doe" no_timing 0%Q 2%Q
             "Jane" " Hello there"); [reflexivity | simpl; lia | reflexivity].
  - apply (proj1 speaker_attribution_policy "jane doe" no_timing 0%Q 2%Q
             "Unknown Speaker" " Hi"); [reflexivity | simpl; lia | reflexivity].
  - apply (proj1 (proj2 speaker_attribution_policy)). reflexivity.
Defined.

(** ** The fallback [overall] *)

(** ** Rounding *)

Lemma inject_Z_succ (z : Z) : (inject_Z (z + 1) == inject_Z z + 1)%Q.
Proof. rewrite inject_Z_plus. reflexivity. Qed.

(** The three outcomes of rounding, with what each says about the
    fraction. *)
Lemma round_half_even_cases (q : Q) :
  let f := Qfloor q in
  (inject_Z f <= q /\ q < inject_Z f + 1)%Q
  /\ ((round_half_even q = f /\ (q - inject_Z f < 1 # 2)%Q)
      \/ (round_half_even q = f + 1 /\ (1 # 2 < q - inject_Z f)%Q)
      \/ ((q - inject_Z f == 1 # 2)%Q
          /\ round_half_even q = (if Z.even f then f else f + 1))).
Proof.
  cbv zeta. split.
  - split; [apply Qfloor_le|]. rewrite <- inject_Z_succ. apply Qlt_floor.
  - unfold round_half_even.
    destruct (Qcompare (q - inject_Z (Qfloor q)) (1 # 2)) eqn:Hc.
    + right. right. apply Qeq_alt in Hc. auto.
    + left. apply Qlt_alt in Hc. auto.
    + right. left. apply Qgt_alt in Hc. auto.
Qed.

Lemma Qfloor_unique (q : Q) (n : Z) :
  (inject_Z n <= q)%Q -> (q < inject_Z n + 1)%Q -> Qfloor q = n.
Proof.
  intros Hl Hu.
  pose proof (Qfloor_le q) as H1. pose proof (Qlt_floor q) as H2.
  rewrite inject_Z_succ in H2.
  assert (A : (inject_Z n < inject_Z (Qfloor q) + 1)%Q) by lra.
  assert (B : (inject_Z (Qfloor q) < inject_Z n + 1)%Q) by lra.
  rewrite <- inject_Z_succ in A, B. rewrite <- Zlt_Qlt in A, B. lia.
Qed.

(** Rounding stays between two integers that enclose the number. *)
Lemma round_half_even_between (q : Q) (a b : Z) :
  (inject_Z a <= q)%Q -> (q <= inject_Z b)%Q ->
  (a <= round_half_even q <= b)%Z.
Proof.
  intros Ha Hb.
  destruct (round_half_even_cases q) as [[Hl Hu] Hc].
  assert (Haf : (a <= Qfloor q)%Z).
  { rewrite <- (Qfloor_Z a). apply Qfloor_resp_le, Ha. }
  assert (Hfb : (Qfloor q <= b)%Z).
  { rewrite <- (Qfloor_Z b). apply Qfloor_resp_le, Hb. }
  assert (Hstrict : (inject_Z (Qfloor q) < q)%Q -> (Qfloor q + 1 <= b)%Z).
  { intros Hlt. assert (Hx : (inject_Z (Qfloor q) < inject_Z b)%Q) by lra.
    rewrite <- Zlt_Qlt in Hx. lia. }
  destruct Hc as [[-> _]|[[-> Hgt]|[Heq ->]]].
  - lia.
  - assert (inject_Z (Qfloor q) < q)%Q by lra. specialize (Hstrict H). lia.
  - assert (inject_Z (Qfloor q) < q)%Q by lra. specialize (Hstrict H).
    destruct (Z.even (Qfloor q)); lia.
Qed.

Lemma py_round1_value (q : Q) :
  (py_round1 q == inject_Z (round_half_even (q * 10)) / 10)%Q.
Proof. unfold py_round1. apply Qred_correct. Qed.

Lemma py_round1_between (q : Q) (a b : Z) :
  (inject_Z a <= q * 10)%Q -> (q * 10 <= inject_Z b)%Q ->
  (inject_Z a / 10 <= py_round1 q <= inject_Z b / 10)%Q.
Proof.
  intros Ha Hb. rewrite py_round1_value.
  destruct (round_half_even_between _ _ _ Ha Hb) as [H1 H2].
  rewrite Zle_Qle in H1, H2. split; apply Qmult_le_compat_r; try assumption;
    discriminate.
Qed.

Lemma round_half_even_near (q : Q) :
  (q - (1 # 2) <= inject_Z (round_half_even q) <= q + (1 # 2))%Q.
Proof.
  destruct (round_half_even_cases q) as [[Hl Hu] Hc].
  destruct Hc as [[-> H]|[[-> H]|[H ->]]].
  - lra.
  - rewrite inject_Z_succ. lra.
  - destruct (Z.even (Qfloor q)); [lra|]. rewrite inject_Z_succ. lra.
Qed.

(** [round(x, 1)] is within half a tenth of [x]. *)
Lemma py_round1_near (x : Q) :
  (x - (1 # 20) <= py_round1 x <= x + (1 # 20))%Q.
Proof.
  rewrite py_round1_value.
  destruct (round_half_even_near (x * 10)) as [H1 H2].
  unfold Qdiv. change (/ 10)%Q with (1 # 10)%Q. lra.
Qed.

(** ** Binary64 rounding *)

Lemma pow2_nonneg (e : Z) : 0 <= e -> pow2 e = inject_Z (2 ^ e).
Proof. intros H. unfold pow2. apply Z.leb_le in H. rewrite H. reflexivity. Qed.

Lemma pow2_neg (e : Z) : 0 < e -> pow2 (- e) = (/ inject_Z (2 ^ e))%Q.
Proof.
  intros H. unfold pow2. destruct (0 <=? - e) eqn:E; [apply Z.leb_le in E; lia|].
  rewrite Z.opp_involutive. reflexivity.
Qed.

Lemma pow2_pos_Z (e : Z) : 0 <= e -> (0 < inject_Z (2 ^ e))%Q.
Proof.
  intros H. change 0%Q with (inject_Z 0). rewrite <- Zlt_Qlt.
  apply Z.pow_pos_nonneg; lia.
Qed.

(** The binade found for a positive rational is not above it. *)
Lemma binade_le (q : Q) : (0 < q)%Q -> (pow2 (binade q) <= q)%Q.
Proof.
  intros Hq. unfold binade.
  set (e := Z.log2 (Qnum q) - Z.log2 (Zpos (Qden q))).
  destruct (Qle_bool (pow2 e) q) eqn:E; [apply Qle_bool_iff, E|]. clear E.
  destruct q as [n d]. cbn [Qnum Qden] in e.
  assert (Hn : 0 < n) by (unfold Qlt in Hq; cbn in Hq; lia).
  destruct (Z.log2_spec n Hn) as [Hn1 _].
  destruct (Z.log2_spec (Zpos d) (Pos2Z.is_pos d)) as [_ Hd2].
  pose proof (Z.log2_nonneg n) as Ln. pose proof (Z.log2_nonneg (Zpos d)) as Ld.
  unfold pow2. destruct (0 <=? e - 1) eqn:Es.
  - apply Z.leb_le in Es.
    assert (Hp : 2 ^ (e - 1) * 2 ^ Z.succ (Z.log2 (Zpos d)) = 2 ^ Z.log2 n).
    { rewrite <- Z.pow_add_r by lia. f_equal. unfold e. lia. }
    assert (Ha : 0 < 2 ^ (e - 1)) by (apply Z.pow_pos_nonneg; lia).
    unfold Qle. cbn [Qnum Qden inject_Z]. nia.
  - apply Z.leb_gt in Es.
    assert (Hp : 2 ^ Z.log2 n * 2 ^ (- (e - 1)) = 2 ^ Z.succ (Z.log2 (Zpos d))).
    { rewrite <- Z.pow_add_r by lia. f_equal. unfold e. lia. }
    assert (Ha : 0 < 2 ^ (- (e - 1))) by (apply Z.pow_pos_nonneg; lia).
    apply Qle_shift_inv_r.
    + change 0%Q with (inject_Z 0). rewrite <- Zlt_Qlt. exact Ha.
    + unfold Qle, Qmult. cbn [Qnum Qden inject_Z]. nia.
Qed.

(** Up to 128 the scaling keeps at least 45 binary digits after the point. *)
Lemma scale_bound (q : Q) :
  (0 < q)%Q -> (q <= 128)%Q -> 45 <= 52 - Z.max (binade q) (-1022).
Proof.
  intros Hq Hb. pose proof (binade_le q Hq) as Hle.
  destruct (Z_lt_le_dec (binade q) 8) as [H|H]; [lia|]. exfalso.
  rewrite pow2_nonneg in Hle by lia.
  assert (Hp : 2 ^ 8 <= 2 ^ binade q) by (apply Z.pow_le_mono_r; lia).
  rewrite Zle_Qle in Hp. change (inject_Z (2 ^ 8)) with 256%Q in Hp. lra.
Qed.

Lemma round_pos_value (q : Q) (s : Z) :
  s = 52 - Z.max (binade q) (-1022) -> 0 < s ->
  (round_pos q
   == inject_Z (round_half_even (q * inject_Z (2 ^ s))) / inject_Z (2 ^ s))%Q.
Proof.
  intros Hs Hpos. unfold round_pos. rewrite <- Hs. rewrite Qred_correct.
  rewrite pow2_nonneg by lia. rewrite pow2_neg by exact Hpos. reflexivity.
Qed.

(** Binary64 rounding of a number between 0 and an integer of at most 128:
    the result stays in that range and within [2^-46] of the number. *)
Lemma rnd64_spec (q : Q) (B : Z) :
  (0 <= q)%Q -> (q <= inject_Z B)%Q -> B <= 128 ->
  (0 <= rnd64 q <= inject_Z B)%Q
  /\ (q - half_ulp <= rnd64 q <= q + half_ulp)%Q.
Proof.
  intros H0 HB Hmax. unfold rnd64.
  destruct q as [n d]. cbn [Qnum]. destruct n as [|p|p].
  - assert (E : (0 # d == 0)%Q) by reflexivity.
    rewrite E in HB. unfold half_ulp. rewrite E. split; split; lra.
  - set (q := Zpos p # d) in *.
    assert (Hq : (0 < q)%Q) by reflexivity.
    assert (H128 : (q <= 128)%Q).
    { eapply Qle_trans; [exact HB|]. change 128%Q with (inject_Z 128).
      rewrite <- Zle_Qle. exact Hmax. }
    pose proof (scale_bound q Hq H128) as Hs.
    set (s := 52 - Z.max (binade q) (-1022)) in *.
    rewrite (round_pos_value q s eq_refl) by lia.
    set (P := inject_Z (2 ^ s)).
    assert (HP : (inject_Z (2 ^ 45) <= P)%Q).
    { unfold P. rewrite <- Zle_Qle. apply Z.pow_le_mono_r; lia. }
    assert (HP0 : (0 < P)%Q) by (unfold P; apply pow2_pos_Z; lia).
    change (inject_Z (2 ^ 45)) with (35184372088832 # 1)%Q in HP.
    destruct (round_half_even_near (q * P)) as [N1 N2].
    assert (HqP : (0 <= q * P)%Q) by (apply Qmult_le_0_compat; lra).
    destruct (round_half_even_between (q * P) 0 (B * 2 ^ s)) as [R1 R2].
    { exact HqP. }
    { rewrite inject_Z_mult. fold P. apply Qmult_le_compat_r; lra. }
    rewrite Zle_Qle in R1, R2. rewrite inject_Z_mult in R2. fold P in R2.
    set (m := inject_Z (round_half_even (q * P))) in *.
    change (inject_Z 0) with 0%Q in R1.
    unfold half_ulp.
    split; split.
    + apply Qle_shift_div_l; [exact HP0|]. lra.
    + apply Qle_shift_div_r; [exact HP0|]. exact R2.
    + apply Qle_shift_div_l; [exact HP0|]. lra.
    + apply Qle_shift_div_r; [exact HP0|]. lra.
  - exfalso. unfold Qle in H0. cbn in H0. lia.
Qed.

Lemma round_half_even_unique (q : Q) (k : Z) :
  (inject_Z k - (1 # 2) < q)%Q -> (q < inject_Z k + (1 # 2))%Q ->
  round_half_even q = k.
Proof.
  intros H1 H2. destruct (round_half_even_near q) as [N1 N2].
  assert (A : (inject_Z (k - 1) < inject_Z (round_half_even q))%Q).
  { replace (k - 1) with (k + - (1)) by lia.
    rewrite inject_Z_plus, inject_Z_opp. change (inject_Z 1) with 1%Q. lra. }
  assert (B : (inject_Z (round_half_even q) < inject_Z (k + 1))%Q).
  { rewrite inject_Z_plus. change (inject_Z 1) with 1%Q. lra. }
  rewrite <- Zlt_Qlt in A, B. lia.
Qed.

Lemma float_percentage_spec (passed total : Z) :
  0 <= passed <= total -> 0 < total ->
  let exact := (100 * inject_Z passed / inject_Z total)%Q in
  (0 <= float_percentage passed total <= 100)%Q
  /\ (exact - 101 * half_ulp <= float_percentage passed total
      <= exact + 101 * half_ulp)%Q.
Proof.
  intros [Hp Hpt] Ht. cbv zeta. unfold float_percentage.
  assert (Ht' : (0 < inject_Z total)%Q)
    by (change 0%Q with (inject_Z 0); rewrite <- Zlt_Qlt; exact Ht).
  assert (Hx0 : (0 <= inject_Z passed / inject_Z total)%Q).
  { apply Qle_shift_div_l; [exact Ht'|]. rewrite Qmult_0_l.
    change 0%Q with (inject_Z 0). rewrite <- Zle_Qle. exact Hp. }
  assert (Hx1 : (inject_Z passed / inject_Z total <= inject_Z 1)%Q).
  { apply Qle_shift_div_r; [exact Ht'|]. change (inject_Z 1) with 1%Q.
    rewrite Qmult_1_l. rewrite <- Zle_Qle. exact Hpt. }
  destruct (rnd64_spec _ 1 Hx0 Hx1 ltac:(lia)) as [[A0 A1] [A2 A3]].
  change (inject_Z 1) with 1%Q in A1.
  set (a := rnd64 (inject_Z passed / inject_Z total)) in *.
  assert (Hy0 : (0 <= a * 100)%Q) by lra.
  assert (Hy1 : (a * 100 <= inject_Z 100)%Q)
    by (change (inject_Z 100) with 100%Q; lra).
  destruct (rnd64_spec _ 100 Hy0 Hy1 ltac:(lia)) as [[B0 B1] [B2 B3]].
  change (inject_Z 100) with 100%Q in B1.
  assert (E : (100 * inject_Z passed / inject_Z total
               == 100 * (inject_Z passed / inject_Z total))%Q)
    by (unfold Qdiv; ring).
  rewrite E. unfold half_ulp in *. repeat split; lra.
Qed.

Lemma rounded_percentage_spec (passed total : Z) :
  0 <= passed <= total -> 0 < total ->
  let exact := (100 * inject_Z passed / inject_Z total)%Q in
  let rate := py_round1 (float_percentage passed total) in
  (exists k, 0 <= k <= 1000 /\ (rate == inject_Z k / 10)%Q)
  /\ (0 <= rate <= 100)%Q
  /\ (exact - (1 # 20) - tie_margin <= rate <= exact + (1 # 20) + tie_margin)%Q
  /\ (forall k : Z,
         (inject_Z k - (1 # 2) + tie_margin <= exact * 10)%Q ->
         (exact * 10 <= inject_Z k + (1 # 2) - tie_margin)%Q ->
         (rate == inject_Z k / 10)%Q).
Proof.
  intros Hp Ht. cbv zeta.
  destruct (float_percentage_spec passed total Hp Ht) as [[Z0 Z1] [E1 E2]].
  set (z := float_percentage passed total) in *.
  set (exact := (100 * inject_Z passed / inject_Z total)%Q) in *.
  unfold half_ulp in E1, E2. unfold tie_margin.
  destruct (round_half_even_between (z * 10) 0 1000) as [K0 K1].
  { change (inject_Z 0) with 0%Q. lra. }
  { change (inject_Z 1000) with 1000%Q. lra. }
  pose proof (py_round1_near z) as [N1 N2].
  split; [|split; [|split]].
  - exists (round_half_even (z * 10)). split; [lia|apply py_round1_value].
  - rewrite py_round1_value. rewrite Zle_Qle in K0, K1.
    change (inject_Z 0) with 0%Q in K0. change (inject_Z 1000) with 1000%Q in K1.
    unfold Qdiv. change (/ 10)%Q with (1 # 10)%Q. lra.
  - lra.
  - intros k H1 H2. rewrite py_round1_value.
    rewrite (round_half_even_unique (z * 10) k); [reflexivity|lra|lra].
Qed.

Lemma round_half_even_compat (x y : Q) :
  (x == y)%Q -> round_half_even x = round_half_even y.
Proof.
  intros E. unfold round_half_even.
  rewrite (Qfloor_comp _ _ E).
  assert (E' : (x - inject_Z (Qfloor y) == y - inject_Z (Qfloor y))%Q)
    by (rewrite E; reflexivity).
  rewrite (Qcompare_comp _ _ E' (1 # 2) (1 # 2) (Qeq_refl _)). reflexivity.
Qed.

Lemma py_round1_compat (x y : Q) : (x == y)%Q -> py_round1 x = py_round1 y.
Proof.
  intros E. unfold py_round1.
  rewrite (round_half_even_compat (x * 10) (y * 10)); [reflexivity|].
  rewrite E. reflexivity.
Qed.

Section TriageFacts.

Variable checks : list ChecklistItem.

Lemma severity_is_high_spec (i : json) :
  hashable i = true ->
  severity_is_high (severity_by_id checks) i
  = Ok (String.eqb (severity_or_low checks i) "high").
Proof.
  destruct i; simpl; try discriminate; try reflexivity.
  intros _. destruct (severity_by_id checks !! s); reflexivity.
Qed.

Lemma collect_failures_from (rs : list json) (f0 h0 : list json) :
  Forall (fun i => hashable i = true) (failed_ids_spec rs) ->
  fold_left (failure_step checks) rs (Ok (f0, h0))
  = Ok ((f0 ++ failed_ids_spec rs)%list,
        (h0 ++ high_flags_spec checks (failed_ids_spec rs))%list).
Proof.
  revert f0 h0. induction rs as [|r rs IH]; intros f0 h0 Hh.
  - simpl. rewrite !app_nil_r. reflexivity.
  - unfold failed_ids_spec in *. cbn [List.filter fold_left] in *.
    assert (Hstep :
      failure_step checks (Ok (f0, h0)) r
      = Ok (if is_failed r then (f0 ++ [id_of r])%list else f0,
            if is_failed r
            then (h0 ++ high_flags_spec checks [id_of r])%list else h0)).
    { destruct (is_failed r) eqn:Hf.
      - cbn [map] in Hh. apply Forall_cons_iff in Hh as [Hi _].
        destruct r; try discriminate. simpl in Hf, Hi |- *. rewrite Hf.
        rewrite (severity_is_high_spec _ Hi).
        destruct (String.eqb _ "high"); simpl; rewrite ?app_nil_r; reflexivity.
      - destruct r; try reflexivity. simpl in Hf |- *. rewrite Hf. reflexivity. }
    rewrite Hstep. destruct (is_failed r).
    + cbn [map] in Hh |- *. apply Forall_cons_iff in Hh as [_ Hh].
      rewrite (IH _ _ Hh). unfold high_flags_spec. cbn [List.filter].
      destruct (String.eqb _ "high"); rewrite <- ?app_assoc; simpl;
        rewrite ?app_nil_r; reflexivity.
    + apply IH, Hh.
Qed.

Lemma collect_failures_spec (rs : list json) :
  Forall (fun i => hashable i = true) (failed_ids_spec rs) ->
  collect_failures checks rs
  = Ok (failed_ids_spec rs, high_flags_spec checks (failed_ids_spec rs)).
Proof. intros H. apply (collect_failures_from rs [] [] H). Qed.

End TriageFacts.

(** ** Claims about the triage of [case_check] *)

Lemma failed_ids_length (rs : list json) :
  (length (failed_ids_spec rs) <= length rs)%nat.
Proof.
  unfold failed_ids_spec. rewrite length_map.
  induction rs as [|r rs IH]; simpl; [lia|].
  destruct (is_failed r); simpl; lia.
Qed.

(** C1, counterexample: for 80 results of which 29 have status ["Fail"]
    the handler stores the pass rate 63.7, while
    [round(100 * (80 - 29) / 80, 1)] is 63.8: the handler computes
    [passed / total * 100], and in binary64 the quotient [51 / 80] times 100
    falls just below the tie 63.75 that the exact value sits on. *)
Lemma fallback_rate_below_tie :
  let results_list := many_results 29 51 in
  let validated_json := [("results", JList results_list)] in
  length results_list = 80%nat
  /\ length (failed_ids_spec results_list) = 29%nat
  /\ overall_missing validated_json = true
  /\ (exists failed_ids flags has_high,
         fill_overall two_checks validated_json
         = Ok (dset "overall" (overall_of (637 # 10) failed_ids flags has_high)
                 validated_json))
  /\ pass_rate_spec 80 29 = (319 # 5)%Q
  /\ ~ (637 # 10 == pass_rate_spec 80 29)%Q.
Proof.
  cbv zeta. split; [reflexivity|]. split; [vm_compute; reflexivity|].
  split; [reflexivity|].
  split; [eexists; eexists; eexists; vm_compute; reflexivity|].
  split; [vm_compute; reflexivity|].
  vm_compute. discriminate.
Qed.

(** C1, amended: when [overall] is missing or empty and [results] is a
    list, the handler sets [overall] to: the ids of the results with status
    ["Fail"] in result order, those of them whose checklist severity is
    ["high"] (["low"] for an unknown id), the flag telling whether there is
    a high-severity id, and the pass rate [round(passed / total * 100, 1)]
    as binary64 computes it, [0.0] without checks.  That pass rate is a
    whole number of tenths between 0 and 100, within 0.05 (and [2^-36]) of
    [100 * (total - failed) / total], and it is the tenth nearest to that
    exact percentage whenever the percentage is not within [2^-36] of a
    tenth of the middle between two tenths; on such a tie the float
    computation can round the other way.  The ids are supposed hashable,
    as the strings of the tool schema are. *)
Theorem fallback_overall_rules (checks : list ChecklistItem)
    (validated_json : dict) (results_list : list json) :
  overall_missing validated_json = true ->
  dget "results" validated_json = Some (JList results_list) ->
  Forall (fun i => hashable i = true) (failed_ids_spec results_list) ->
  let failed_ids := failed_ids_spec results_list in
  let high_severity_flags := high_flags_spec checks failed_ids in
  let total := length results_list in
  let pass_rate := float_pass_rate total (length failed_ids) in
  let exact :=
    (100 * inject_Z (Z.of_nat total - Z.of_nat (length failed_ids))
     / inject_Z (Z.of_nat total))%Q in
  fill_overall checks validated_json
  = Ok (dset "overall"
          (overall_of pass_rate failed_ids high_severity_flags
             (match high_severity_flags with [] => false | _ => true end))
          validated_json)
  /\ (total = 0%nat -> pass_rate = 0%Q)
  /\ (exists k, 0 <= k <= 1000 /\ (pass_rate == inject_Z k / 10)%Q)
  /\ (total <> 0%nat ->
      (exact - (1 # 20) - tie_margin <= pass_rate
       <= exact + (1 # 20) + tie_margin)%Q
      /\ forall k : Z,
           (inject_Z k - (1 # 2) + tie_margin <= exact * 10)%Q ->
           (exact * 10 <= inject_Z k + (1 # 2) - tie_margin)%Q ->
           (pass_rate == inject_Z k / 10)%Q).
Proof.
  intros Hmiss Hres Hhash. cbv zeta.
  pose proof (failed_ids_length results_list) as Hlen.
  split; [|split; [|split]].
  - unfold fill_overall, dget_or. rewrite Hmiss, Hres.
    rewrite (collect_failures_spec checks _ Hhash). cbn [bind fst snd].
    assert (Hp :
      py_round1
        (if (0 <? length results_list)%nat
         then float_mul
                (float_div
                   (Z.of_nat (length results_list)
                    - Z.of_nat (length (failed_ids_spec results_list)))
                   (Z.of_nat (length results_list))) 100
         else 0%Q)
      = float_pass_rate (length results_list)
          (length (failed_ids_spec results_list))).
    { unfold float_pass_rate. destruct results_list as [|r rs]; reflexivity. }
    rewrite Hp. unfold overall_of.
    destruct (high_flags_spec checks (failed_ids_spec results_list));
      reflexivity.
  - intros ->. reflexivity.
  - unfold float_pass_rate.
    destruct (length results_list =? 0)%nat eqn:E.
    + exists 0. split; [lia|reflexivity].
    + apply Nat.eqb_neq in E.
      apply (rounded_percentage_spec
               (Z.of_nat (length results_list)
                - Z.of_nat (length (failed_ids_spec results_list)))
               (Z.of_nat (length results_list))); lia.
  - intros Hne. unfold float_pass_rate.
    apply Nat.eqb_neq in Hne. rewrite Hne. apply Nat.eqb_neq in Hne.
    pose proof (rounded_percentage_spec
                  (Z.of_nat (length results_list)
                   - Z.of_nat (length (failed_ids_spec results_list)))
                  (Z.of_nat (length results_list))
                  ltac:(lia) ltac:(lia)) as (_ & _ & Hnear & Htie).
    split; [exact Hnear|exact Htie].
Qed.

Lemma fallback_overall_rules_witness :
  fill_overall two_checks triage_input
  = Ok (dset "overall" (overall_of 50 [JStr "a"] [JStr "a"] true)
          triage_input).
Proof.
  assert (H : Forall (fun i => hashable i = true)
                (failed_ids_spec triage_results))
    by (repeat constructor).
  exact (proj1 (fallback_overall_rules two_checks triage_input triage_results
                  eq_refl eq_refl H)).
Defined.

(** The triage example on the static checklist: a failed high-severity
    check and a passed one. *)
Example fallback_overall_static :
  fill_overall STARTER_SESSION_CHECKS
    [("results",
      JList [JDict [("id", JStr "fees_charges_explained");
                    ("status", JStr "Fail")];
             JDict [("id", JStr "will_confirmed");
                    ("status", JStr "Competent")]])]
  = Ok [("results",
         JList [JDict [("id", JStr "fees_charges_explained");
                       ("status", JStr "Fail")];
                JDict [("id", JStr "will_confirmed");
                       ("status", JStr "Competent")]]);
        ("overall",
         overall_of 50 [JStr "fees_charges_explained"]
           [JStr "fees_charges_explained"] true)].
Proof. vm_compute. reflexivity. Qed.

(** ** Evidence spans *)




Lemma valid_spans_from (spans acc : list json) :
  fold_left (fun acc span =>
               match valid_span span with
               | Some v => (acc ++ [v])%list
               | None => acc
               end) spans acc
  = (acc ++ kept_spans_spec spans)%list.
Proof.
  revert acc. induction spans as [|sp spans IH]; intros acc; simpl.
  - rewrite app_nil_r. reflexivity.
  - rewrite IH. destruct (valid_span sp); simpl;
      rewrite <- ?app_assoc; reflexivity.
Qed.

Lemma valid_spans_spec (spans : list json) :
  valid_spans spans = kept_spans_spec spans.
Proof. apply (valid_spans_from spans []). Qed.

Lemma dset_dset (k : string) (v1 v2 : json) (d : dict) :
  dset k v2 (dset k v1 d) = dset k v2 d.
Proof.
  induction d as [|[k' v'] d IH]; simpl.
  - rewrite String.eqb_refl. reflexivity.
  - destruct (String.eqb k k') eqn:E; simpl.
    + rewrite String.eqb_refl. reflexivity.
    + rewrite E, IH. reflexivity.
Qed.



(** A supplied pair is kept, coerced, and the quote is not searched for. *)
Example supplied_span_kept :
  resolve_item "COACH: hello there, how are you today"
    (JDict [("evidence_quote", JStr "how are you");
            ("evidence_spans", JList [JList [JFloat 2.5; JBool true]; JNull])])
  = Ok (JDict [("evidence_quote", JStr "how are you");
               ("evidence_spans", JList [JList [JInt 2; JInt 1]])]).
Proof. reflexivity. Qed.

(** ** The final flags *)

Lemma status_eqb_eq (a b : Status) : status_eqb a b = true <-> a = b.
Proof. destruct a, b; split; intros H; try reflexivity; discriminate. Qed.

Lemma existsb_eqb_false (i : string) (ids : list string) :
  existsb (String.eqb i) ids = false -> ~ In i ids.
Proof.
  intros H Hin. assert (existsb (String.eqb i) ids = true); [|congruence].
  apply existsb_exists. exists i. split; [exact Hin | apply String.eqb_refl].
Qed.

(** With distinct ids, the severity table holds exactly the severities of
    the checklist. *)
Lemma severity_fold_lookup (checks : list ChecklistItem)
    (m0 : gmap string string) (i sv : string) :
  unique_ids (map check_id checks) = true ->
  fold_left (fun m c => <[check_id c := severity c]> m) checks m0 !! i = Some sv
  <-> (exists c, In c checks /\ check_id c = i /\ severity c = sv)
      \/ (~ In i (map check_id checks) /\ m0 !! i = Some sv).
Proof.
  revert m0. induction checks as [|c cs IH]; intros m0 Hu.
  - simpl. split; [intros H; right; auto|].
    intros [(c & [] & _)|[_ H]]. exact H.
  - cbn [map unique_ids] in Hu. apply andb_true_iff in Hu as [Hc Hu].
    apply negb_true_iff, existsb_eqb_false in Hc.
    cbn [fold_left]. rewrite (IH _ Hu). split.
    + intros [(c' & Hin & Hid & Hsv)|[Hni Hl]].
      * left. exists c'. split; [right; exact Hin|auto].
      * destruct (decide (check_id c = i)) as [E|E].
        -- subst i. rewrite lookup_insert_eq in Hl. injection Hl as <-.
           left. exists c. split; [left; reflexivity|auto].
        -- rewrite lookup_insert_ne in Hl by exact E. right. split; [|exact Hl].
           intros [H|H]; [congruence|contradiction].
    + intros [(c' & [<-|Hin] & Hid & Hsv)|[Hni Hl]].
      * right. subst i sv. split; [exact Hc|]. apply lookup_insert_eq.
      * left. exists c'. auto.
      * right. split; [intros H; apply Hni; right; exact H|].
        rewrite lookup_insert_ne; [exact Hl|].
        intros E. apply Hni. left. exact E.
Qed.

Lemma is_high_spec (checks : list ChecklistItem) (i : string) :
  unique_ids (map check_id checks) = true ->
  is_high (severity_by_id checks) i = true
  <-> exists c, In c checks /\ check_id c = i /\ severity c = "high".
Proof.
  intros Hu. unfold is_high, severity_by_id. split.
  - destruct (fold_left _ checks ∅ !! i) as [sv|] eqn:Hl; [|discriminate].
    intros E. apply String.eqb_eq in E. subst sv.
    apply (severity_fold_lookup checks ∅ i "high" Hu) in Hl
      as [H|[_ H]]; [exact H|].
    rewrite lookup_empty in H. discriminate.
  - intros H.
    assert (Hl : fold_left (fun m c => <[check_id c := severity c]> m) checks ∅ !! i
                 = Some "high")
      by (apply (severity_fold_lookup checks ∅ i "high" Hu); left; exact H).
    rewrite Hl. reflexivity.
Qed.

Lemma final_flags_from (sev : gmap string string) (rs : list CaseCheckResult)
    (st : flags) :
  let fl := fold_left (final_step sev) rs st in
  tidied fl = (tidied st ++ map tidy_result rs)%list
  /\ has_high_severity_failures fl
     = has_high_severity_failures st || existsb (fails_high sev) rs
  /\ has_vulnerability fl
     = has_vulnerability st || existsb shows_vulnerability rs.
Proof.
  revert st. induction rs as [|r rs IH]; intros st; cbn [fold_left].
  - cbn [map existsb]. rewrite app_nil_r, !orb_false_r. auto.
  - destruct (IH (final_step sev st r)) as (Ht & Hh & Hv).
    cbv zeta. rewrite Ht, Hh, Hv. cbn [final_step tidied
      has_high_severity_failures has_vulnerability map existsb].
    fold (fails_high sev r). fold (shows_vulnerability r).
    rewrite <- app_assoc. repeat split.
    + destruct (fails_high sev r), (has_high_severity_failures st); reflexivity.
    + destruct (shows_vulnerability r), (has_vulnerability st); reflexivity.
Qed.

Lemma dget_dset_same (k : string) (v : json) (d : dict) :
  dget k (dset k v d) = Some v.
Proof.
  induction d as [|[k' v'] d IH]; simpl.
  - rewrite String.eqb_refl. reflexivity.
  - destruct (String.eqb k k') eqn:E; simpl; [rewrite String.eqb_refl|rewrite E];
      auto.
Qed.

Lemma starter_ids_unique :
  unique_ids (map check_id STARTER_SESSION_CHECKS) = true.
Proof. vm_compute. reflexivity. Qed.

(** ** The handler *)

Lemma after_response_ok K E the_meeting full_transcript call_analytics resp w w' out :
  after_response K E the_meeting full_transcript call_analytics resp w
  = (w', Ok out) ->
  String.eqb (stopReason resp) "max_tokens" = false
  /\ processed K E the_meeting call_analytics w w' out.
Proof.
  unfold after_response.
  destruct (first_tool_use (content resp)) as [tub|]; [|discriminate].
  destruct (truthy tub); cbn [negb]; [|discriminate].
  destruct (String.eqb (stopReason resp) "max_tokens"); [discriminate|].
  match goal with
  | |- context [match ?p with Ok _ => _ | Raise _ => _ end] =>
      destruct p as [parsed|e]; [|discriminate]
  end.
  destruct (finalise _ _ _ _ _ parsed) as [data vulnerable] eqn:Hfin.
  destruct (dget_or "overall" (JDict []) data) as [| | | | | |ov] eqn:Hov;
    try discriminate.
  destruct (coerce_float _) as [pr|e] eqn:Hpr; [|discriminate].
  intros H. injection H as <- <-. split; [reflexivity|].
  exists parsed, data, vulnerable, ov. cbn. repeat split; assumption.
Qed.

(** A truncated reply ends in [ValueError] with the stores untouched. *)
Lemma after_response_truncated K E the_meeting full_transcript call_analytics resp w :
  stopReason resp = "max_tokens" ->
  after_response K E the_meeting full_transcript call_analytics resp w
  = (w, Raise ValueError).
Proof.
  intros Hstop. unfold after_response. rewrite Hstop.
  destruct (first_tool_use (content resp)) as [tub|]; [|reflexivity].
  destruct (truthy tub); reflexivity.
Qed.

Lemma lambda_handler_ending K E event w :
  ending K E event w (fst (lambda_handler K E event w))
    (snd (lambda_handler K E event w)).
Proof.
  unfold lambda_handler.
  destruct (redactedTranscriptKey event) as [[|c tk]|] eqn:Htk;
    try apply Rejected.
  destruct (meetingId event) as [[|c' m]|] eqn:Hm; try apply Rejected.
  assert (Hpath :
    (forceReprocess event = true
     \/ reuse_existing (case_key K (now_check E) (String c' m)) w = None) ->
    ending K E event w
      (fst (classify_and_save K E event (String c tk) (String c' m) w))
      (snd (classify_and_save K E event (String c tk) (String c' m) w))).
  { intros Hwhy. unfold classify_and_save.
    destruct (get_transcript E (String c tk)) as [tr|e]; [|apply Rejected].
    destruct (choose_analytics E event (String c tk) tr) as [ca|e];
      [|apply Rejected].
    destruct (prompt_arn E) as [[|a arn]|]; try apply Rejected.
    destruct (invoke E tr) as [resp|e] eqn:Hinv.
    - eapply Answered
        with (w1 := {| s3 := s3 w; assessment_table := assessment_table w;
                       classifications := S (classifications w) |});
        [exact Htk | exact Hm | exact Hwhy | exact Hinv
        | reflexivity | reflexivity | reflexivity | apply surjective_pairing].
    - apply (Failed K E event w tr); [exact Hinv|reflexivity..]. }
  destruct (forceReprocess event) eqn:Hf.
  - apply Hpath. left. reflexivity.
  - destruct (reuse_existing _ w) as [out|] eqn:Hr.
    + eapply Reused; eassumption.
    + apply Hpath. right. reflexivity.
Qed.

Lemma reuse_existing_spec key w out :
  reuse_existing key w = Some out ->
  s3 w !! key = Some (caseData out) /\ caseKey out = key
  /\ hasVulnerability out = None /\ callAnalytics out = None
  /\ exists data ov,
       caseData out = JDict data
       /\ dget_or "overall" (JDict []) data = JDict ov
       /\ coerce_float (dget_or "pass_rate" (JFloat 0) ov) = Ok (passRate out).
Proof.
  unfold reuse_existing.
  destruct (s3 w !! key) as [[| | | | | |data]|]; try discriminate.
  destruct (dget_or "overall" (JDict []) data) as [| | | | | |ov] eqn:Hov;
    try discriminate.
  destruct (coerce_float _) as [pr|] eqn:Hpr; [|discriminate].
  intros H. injection H as <-. cbn. repeat split. eauto.
Qed.

(** A returned dict with a [hasVulnerability] entry comes from the
    classification path. *)
Lemma handler_processed K E event w w' out :
  lambda_handler K E event w = (w', Ok out) ->
  hasVulnerability out <> None ->
  exists the_meeting call_analytics w1,
    meetingId event = Some the_meeting
    /\ s3 w1 = s3 w /\ classifications w1 = S (classifications w)
    /\ processed K E the_meeting call_analytics w1 w' out.
Proof.
  intros H Hv. pose proof (lambda_handler_ending K E event w) as He.
  rewrite H in He. cbn [fst snd] in He.
  inversion He as [ | m o Hm Hf Hr | | tk m tr ca resp w1 w2 r Htk Hm Hwhy Hinv Hs Ht Hc Ha];
    subst.
  - apply reuse_existing_spec in Hr as (_ & _ & Hn & _). congruence.
  - apply after_response_ok in Ha as [_ Hp]. eauto 10.
Qed.

(** ** Claims about the final flags and the truncated reply *)

(** C2: in the dict that is persisted, [overall.has_high_severity_failures]
    is true iff some result has status [Fail] and an id that the static
    checklist lists with severity ["high"]; this holds whatever [overall]
    the validated payload carried, and the dict is the one written to the
    object store. *)
Theorem high_severity_flag_recomputed :
  (forall the_meeting model prompt call_analytics parsed,
      exists ov b,
        dget "overall"
          (fst (finalise STARTER_SESSION_CHECKS the_meeting model prompt
                  call_analytics parsed)) = Some (JDict ov)
        /\ dget "has_high_severity_failures" ov = Some (JBool b)
        /\ (b = true <->
            exists r, In r (results parsed) /\ status r = Fail
                      /\ exists c, In c STARTER_SESSION_CHECKS
                                   /\ check_id c = id r
                                   /\ severity c = "high"))
  /\ (forall K E event w w' out,
         lambda_handler K E event w = (w', Ok out) ->
         hasVulnerability out <> None ->
         exists the_meeting call_analytics parsed,
           caseData out
           = JDict (fst (finalise STARTER_SESSION_CHECKS the_meeting
                           (MODEL_VERSION K) (PROMPT_VERSION K)
                           call_analytics parsed))
           /\ s3 w' !! caseKey out = Some (caseData out)).
Proof.
  split.
  - intros m model prompt ca parsed.
    exists (dset "has_high_severity_failures"
              (JBool (has_high_severity_failures
                        (final_flags STARTER_SESSION_CHECKS (results parsed))))
              (overall parsed)).
    exists (has_high_severity_failures
              (final_flags STARTER_SESSION_CHECKS (results parsed))).
    split; [reflexivity|]. split; [apply dget_dset_same|].
    unfold final_flags.
    destruct (final_flags_from (severity_by_id STARTER_SESSION_CHECKS)
                (results parsed)
                {| tidied := []; has_high_severity_failures := false;
                   has_vulnerability := false |}) as (_ & Hh & _).
    cbv zeta in Hh. rewrite Hh. cbn [has_high_severity_failures orb].
    rewrite existsb_exists. split.
    + intros (r & Hin & Hf). unfold fails_high in Hf.
      apply andb_true_iff in Hf as [Hs Hi].
      apply status_eqb_eq in Hs.
      apply (is_high_spec _ _ starter_ids_unique) in Hi. eauto.
    + intros (r & Hin & Hs & Hc). exists r. split; [exact Hin|].
      unfold fails_high. apply andb_true_iff. split.
      * apply status_eqb_eq, Hs.
      * apply (is_high_spec _ _ starter_ids_unique), Hc.
  - intros K E event w w' out H Hv.
    destruct (handler_processed _ _ _ _ _ _ H Hv)
      as (m & ca & w1 & _ & _ & _ & parsed & data & v & ov
          & Hfin & Hd & _ & _ & _ & _ & _ & Hs3 & _).
    exists m, ca, parsed. rewrite Hfin. split; [exact Hd|].
    rewrite Hs3. apply lookup_insert_eq.
Qed.

(** C3: the returned [hasVulnerability] is true iff some result has the id
    ["vulnerability_identified"] and the status [Competent] or [Fail]; with
    only [NotApplicable], [Inconclusive] or [CompetentWithDevelopment] for
    that id it is false. *)
Theorem vulnerability_flag_rule :
  (forall the_meeting model prompt call_analytics parsed,
      snd (finalise STARTER_SESSION_CHECKS the_meeting model prompt
             call_analytics parsed) = true
      <-> exists r, In r (results parsed)
                    /\ id r = "vulnerability_identified"
                    /\ (status r = Competent \/ status r = Fail))
  /\ (forall the_meeting model prompt call_analytics parsed,
         (forall r, In r (results parsed) ->
                    id r = "vulnerability_identified" ->
                    status r = NotApplicable \/ status r = Inconclusive
                    \/ status r = CompetentWithDevelopment) ->
         snd (finalise STARTER_SESSION_CHECKS the_meeting model prompt
                call_analytics parsed) = false)
  /\ (forall K E event w w' out b,
         lambda_handler K E event w = (w', Ok out) ->
         hasVulnerability out = Some b ->
         exists the_meeting call_analytics parsed,
           b = snd (finalise STARTER_SESSION_CHECKS the_meeting
                      (MODEL_VERSION K) (PROMPT_VERSION K)
                      call_analytics parsed)
           /\ caseData out
              = JDict (fst (finalise STARTER_SESSION_CHECKS the_meeting
                              (MODEL_VERSION K) (PROMPT_VERSION K)
                              call_analytics parsed))).
Proof.
  assert (Hiff : forall the_meeting model prompt call_analytics parsed,
      snd (finalise STARTER_SESSION_CHECKS the_meeting model prompt
             call_analytics parsed) = true
      <-> exists r, In r (results parsed)
                    /\ id r = "vulnerability_identified"
                    /\ (status r = Competent \/ status r = Fail)).
  { intros m model prompt ca parsed. unfold finalise. cbn [snd].
    unfold final_flags.
    destruct (final_flags_from (severity_by_id STARTER_SESSION_CHECKS)
                (results parsed)
                {| tidied := []; has_high_severity_failures := false;
                   has_vulnerability := false |}) as (_ & _ & Hv).
    cbv zeta in Hv. rewrite Hv. cbn [has_vulnerability orb].
    rewrite existsb_exists. split.
    - intros (r & Hin & Hs). unfold shows_vulnerability in Hs.
      apply andb_true_iff in Hs as [Hi Hs]. apply String.eqb_eq in Hi.
      apply orb_true_iff in Hs. rewrite !status_eqb_eq in Hs. eauto.
    - intros (r & Hin & Hi & Hs). exists r. split; [exact Hin|].
      unfold shows_vulnerability. rewrite Hi, String.eqb_refl.
      apply orb_true_iff. rewrite !status_eqb_eq. exact Hs. }
  split; [exact Hiff|]. split.
  - intros m model prompt ca parsed Hall.
    apply not_true_is_false. intros Ht.
    apply Hiff in Ht as (r & Hin & Hi & Hs).
    destruct (Hall r Hin Hi) as [H|[H|H]]; destruct Hs; congruence.
  - intros K E event w w' out b H Hb.
    assert (Hv : hasVulnerability out <> None) by congruence.
    destruct (handler_processed _ _ _ _ _ _ H Hv)
      as (m & ca & w1 & _ & _ & _ & parsed & data & v & ov
          & Hfin & Hd & _ & Hhv & _).
    exists m, ca, parsed. rewrite Hfin. cbn [fst snd].
    split; [congruence|exact Hd].
Qed.

(** C5: a classifier reply whose stop reason is ["max_tokens"] makes the
    handler raise [ValueError] before anything is saved: the object store
    and the assessment table are left as they were. *)
Theorem truncated_reply_not_persisted :
  (forall K E the_meeting full_transcript call_analytics resp w,
      stopReason resp = "max_tokens" ->
      after_response K E the_meeting full_transcript call_analytics resp w
      = (w, Raise ValueError))
  /\ (forall K E event w resp,
         (forall t, invoke E t = Ok resp) ->
         stopReason resp = "max_tokens" ->
         let w' := fst (lambda_handler K E event w) in
         let r := snd (lambda_handler K E event w) in
         s3 w' = s3 w /\ assessment_table w' = assessment_table w
         /\ (classifications w' <> classifications w -> r = Raise ValueError)).
Proof.
  split; [exact after_response_truncated|].
  intros K E event w resp Hinv Hstop. cbv zeta.
  pose proof (lambda_handler_ending K E event w) as He.
  inversion He as [ e Hw Hr | m o Hm Hf Hr Hw Hr'
                  | tr w2 e Hi Hs Ht Hc Hw Hr
                  | tk m tr ca resp' w1 w2 r Htk Hm Hwhy Hi Hs Ht Hc Ha Hw Hr].
  - repeat split; congruence.
  - repeat split; congruence.
  - rewrite Hinv in Hi. discriminate.
  - rewrite Hinv in Hi. injection Hi as <-.
    rewrite (after_response_truncated _ _ _ _ _ _ _ Hstop) in Ha.
    injection Ha as <- <-. repeat split; congruence.
Qed.

Lemma truncated_reply_not_persisted_witness :
  let E := demo_env (2026, 1) truncated_reply in
  let w' := fst (lambda_handler demo_constants E (demo_event false) empty_world) in
  let r := snd (lambda_handler demo_constants E (demo_event false) empty_world) in
  s3 w' = s3 empty_world /\ assessment_table w' = assessment_table empty_world
  /\ (classifications w' <> classifications empty_world -> r = Raise ValueError).
Proof.
  exact (proj2 truncated_reply_not_persisted demo_constants
           (demo_env (2026, 1) truncated_reply) (demo_event false) empty_world
           truncated_reply (fun _ => eq_refl) eq_refl).
Defined.

(** ** Idempotence *)

Lemma reuse_hit K E event w tk the_meeting data ov rate :
  redactedTranscriptKey event = Some tk -> tk <> "" ->
  meetingId event = Some the_meeting -> the_meeting <> "" ->
  forceReprocess event = false ->
  s3 w !! case_key K (now_check E) the_meeting = Some (JDict data) ->
  dget_or "overall" (JDict []) data = JDict ov ->
  coerce_float (dget_or "pass_rate" (JFloat 0) ov) = Ok rate ->
  lambda_handler K E event w
  = (w, Ok {| caseData := JDict data;
              caseKey := case_key K (now_check E) the_meeting;
              passRate := rate; hasVulnerability := None;
              callAnalytics := None |}).
Proof.
  intros Htk Hne Hm Hme Hf Hs Hov Hrate. unfold lambda_handler.
  rewrite Htk, Hm, Hf. destruct tk; [congruence|].
  destruct the_meeting; [congruence|].
  unfold reuse_existing. rewrite Hs, Hov, Hrate. reflexivity.
Qed.

Lemma handler_ok_meeting K E event w w' out the_meeting :
  lambda_handler K E event w = (w', Ok out) ->
  meetingId event = Some the_meeting -> the_meeting <> "".
Proof.
  unfold lambda_handler. intros H Hm. rewrite Hm in H.
  destruct (redactedTranscriptKey event) as [[|c tk]|]; try discriminate.
  destruct the_meeting; [discriminate|congruence].
Qed.

(** What a successful run leaves in the store under the key it returns. *)
Lemma handler_ok_stored K E event w w' out :
  lambda_handler K E event w = (w', Ok out) ->
  exists data ov,
    caseData out = JDict data
    /\ s3 w' !! caseKey out = Some (JDict data)
    /\ dget_or "overall" (JDict []) data = JDict ov
    /\ coerce_float (dget_or "pass_rate" (JFloat 0) ov) = Ok (passRate out).
Proof.
  intros H. pose proof (lambda_handler_ending K E event w) as He.
  rewrite H in He. cbn [fst snd] in He.
  inversion He as [ | m o Hm Hf Hr | | tk m tr ca resp w1 w2 r Htk Hm Hwhy Hinv Hs Ht Hc Ha];
    subst.
  - apply reuse_existing_spec in Hr
      as (Hl & Hk & _ & _ & data & ov & Hd & Hov & Hrate).
    exists data, ov. rewrite Hk, Hl, Hd. auto.
  - apply after_response_ok in Ha
      as [_ (parsed & data & v & ov & _ & Hd & _ & _ & _ & Hov & Hrate & Hs3 & _)].
    exists data, ov. rewrite Hs3, lookup_insert_eq, Hd. auto.
Qed.

(** The initiating handler answers at once from a job item that is marked
    completed and names a stored payload. *)
Lemma fast_path_returns_stored K sam_local table objects the_meeting item st key
    rate payload :
  table !! the_meeting = Some item ->
  dget_or "caseCheckStatus" JNull item = JStr st -> upper st = "COMPLETED" ->
  dget_or "caseCheckKey" JNull item = JStr key ->
  key <> "" -> key <> "found_in_s3" ->
  coerce_float (dget_or "casePassRate" (JFloat 0) item) = Ok rate ->
  objects !! key = Some payload -> truthy payload = true ->
  completed_fast_path K sam_local (Some table) objects the_meeting false
  = Some [("message", JStr "Case check already completed");
          ("meetingId", JStr the_meeting);
          ("caseCheckKey", JStr key);
          ("casePassRate", JFloat rate);
          ("caseCheckStatus", JStr "COMPLETED");
          ("completed", JBool true);
          ("data", payload)].
Proof.
  intros Hi Hst Hup Hk Hne Hnf Hr Ho Ht.
  assert (Hts : truthy (JStr st) = true).
  { destruct st; [discriminate Hup | reflexivity]. }
  assert (Hn : Py.nonempty key = true).
  { destruct key; [congruence | reflexivity]. }
  assert (Hex : get_existing_case_check K sam_local (Some table) objects
                  the_meeting
                = Some [("caseCheckStatus", JStr "COMPLETED");
                        ("caseCheckKey", JStr key);
                        ("casePassRate", JFloat rate)]).
  { unfold get_existing_case_check. rewrite Hi, Hst, Hk, Hr, Hts, Hup.
    rewrite String.eqb_refl.
    change (truthy (JStr key)) with (Py.nonempty key). rewrite Hn.
    reflexivity. }
  unfold completed_fast_path. rewrite Hex.
  change (dget_or "caseCheckKey" JNull
            [("caseCheckStatus", JStr "COMPLETED"); ("caseCheckKey", JStr key);
             ("casePassRate", JFloat rate)]) with (JStr key).
  change (dget_or "casePassRate" JNull
            [("caseCheckStatus", JStr "COMPLETED"); ("caseCheckKey", JStr key);
             ("casePassRate", JFloat rate)]) with (JFloat rate).
  change (dget_or "caseCheckStatus" JNull
            [("caseCheckStatus", JStr "COMPLETED"); ("caseCheckKey", JStr key);
             ("casePassRate", JFloat rate)]) with (JStr "COMPLETED").
  apply String.eqb_neq in Hnf. cbv beta iota. rewrite Hn, Hnf. cbn [negb andb].
  rewrite Ho, Ht. reflexivity.
Qed.

(** C6, the code at the failing input: two requests for the same meeting
    without the force flag, one in January and one in February 2026.  The
    first is queued and started, and the case-check handler stores its
    payload under the key of January.  The second request finds no
    completed job item (the item is as the first request left it, QUEUED;
    nor does the bucket fallback used when the table cannot be read
    recognise the stored key), so it is queued and started again; the
    case-check handler then looks under the key of February, finds
    nothing, classifies again and returns a different payload with a
    different pass rate, while the payload of January is still in the
    bucket.  The source announces the opposite above that lookup:
    "Idempotency check: If case check already exists and not forcing
    reprocess, return it". *)
Lemma rerun_in_next_month_reclassifies :
  let queued1 := Initiate.initiate demo_constants
                   (platform_at "2026-01-15T10:00:00+00:00" ∅ true)
                   (demo_request false) fresh_state in
  let first := lambda_handler demo_constants (demo_env (2026, 1) first_reply)
                 (demo_event false) empty_world in
  let queued2 := Initiate.initiate demo_constants
                   (platform_at "2026-02-15T10:00:00+00:00" (s3 (fst first)) true)
                   (demo_request false) (fst queued1) in
  let second := lambda_handler demo_constants (demo_env (2026, 2) second_reply)
                  (demo_event false) (fst first) in
  forceReprocess (demo_event false) = false
  /\ Initiate.force_reprocess (demo_request false) = false
  /\ Initiate.meeting_id (demo_request false) = "m-42"
  /\ meetingId (demo_event false) = Some "m-42"
  /\ (exists body, snd queued1 = Initiate.Response 202 body)
  /\ (exists body, snd queued2 = Initiate.Response 202 body)
  /\ length (Initiate.started (fst queued2)) = 2%nat
  /\ completed_fast_path demo_constants false None (s3 (fst first)) "m-42" false
     = None
  /\ classifications (fst first) = 1%nat
  /\ classifications (fst second) = 2%nat
  /\ exists out1 out2,
       snd first = Ok out1 /\ snd second = Ok out2
       /\ caseData out2 <> caseData out1
       /\ (passRate out1 == 100)%Q /\ (passRate out2 == 50)%Q
       /\ s3 (fst second) !! caseKey out1 = Some (caseData out1).
Proof.
  cbv zeta. do 4 (split; [reflexivity|]).
  split; [eexists; vm_compute; reflexivity|].
  split; [eexists; vm_compute; reflexivity|].
  split; [vm_compute; reflexivity|].
  split; [vm_compute; reflexivity|].
  split; [vm_compute; reflexivity|].
  split; [vm_compute; reflexivity|].
  eexists. eexists. split; [vm_compute; reflexivity|].
  split; [vm_compute; reflexivity|].
  split; [vm_compute; intros H; discriminate H|].
  split; [reflexivity|]. split; [reflexivity|].
  vm_compute. reflexivity.
Qed.

(** What does hold of reruns (C6): a run without the force flag that finds,
    under the key of
    the current year and month, a stored payload whose [overall.pass_rate]
    is a number returns that payload and its pass rate and changes nothing
    (no classification, no write); so after a successful run, a second run
    for the same meeting that looks under the same key returns the same
    payload and pass rate; with the force flag a successful run classifies
    once and stores its payload under the key of the current year and
    month, replacing what was there.  The initiating handler, without the
    force flag, answers at once with the stored payload and the recorded
    pass rate when the job item of the meeting is marked COMPLETED and names
    the key of a stored payload; with the force flag it never does. *)
Theorem idempotent_within_partition :
  (forall K E event w tk the_meeting data ov rate,
      redactedTranscriptKey event = Some tk -> tk <> "" ->
      meetingId event = Some the_meeting -> the_meeting <> "" ->
      forceReprocess event = false ->
      s3 w !! case_key K (now_check E) the_meeting = Some (JDict data) ->
      dget_or "overall" (JDict []) data = JDict ov ->
      coerce_float (dget_or "pass_rate" (JFloat 0) ov) = Ok rate ->
      lambda_handler K E event w
      = (w, Ok {| caseData := JDict data;
                  caseKey := case_key K (now_check E) the_meeting;
                  passRate := rate; hasVulnerability := None;
                  callAnalytics := None |}))
  /\ (forall K E1 E2 event1 event2 w w1 out1 tk2 the_meeting,
         lambda_handler K E1 event1 w = (w1, Ok out1) ->
         meetingId event1 = Some the_meeting ->
         meetingId event2 = Some the_meeting ->
         redactedTranscriptKey event2 = Some tk2 -> tk2 <> "" ->
         forceReprocess event2 = false ->
         case_key K (now_check E2) the_meeting = caseKey out1 ->
         lambda_handler K E2 event2 w1
         = (w1, Ok {| caseData := caseData out1; caseKey := caseKey out1;
                      passRate := passRate out1; hasVulnerability := None;
                      callAnalytics := None |}))
  /\ (forall K E event w w' out,
         forceReprocess event = true ->
         lambda_handler K E event w = (w', Ok out) ->
         exists the_meeting,
           meetingId event = Some the_meeting
           /\ caseKey out = case_key K (now_save E) the_meeting
           /\ classifications w' = S (classifications w)
           /\ s3 w' = <[caseKey out := caseData out]> (s3 w))
  /\ (forall K sam_local table objects the_meeting item st key rate payload,
         table !! the_meeting = Some item ->
         dget_or "caseCheckStatus" JNull item = JStr st ->
         upper st = "COMPLETED" ->
         dget_or "caseCheckKey" JNull item = JStr key ->
         key <> "" -> key <> "found_in_s3" ->
         coerce_float (dget_or "casePassRate" (JFloat 0) item) = Ok rate ->
         objects !! key = Some payload -> truthy payload = true ->
         completed_fast_path K sam_local (Some table) objects the_meeting false
         = Some [("message", JStr "Case check already completed");
                 ("meetingId", JStr the_meeting);
                 ("caseCheckKey", JStr key);
                 ("casePassRate", JFloat rate);
                 ("caseCheckStatus", JStr "COMPLETED");
                 ("completed", JBool true);
                 ("data", payload)])
  /\ (forall K sam_local jobs objects the_meeting,
         completed_fast_path K sam_local jobs objects the_meeting true = None)
  /\ (forall K E event w w' out the_meeting,
         lambda_handler K E event w = (w', Ok out) ->
         meetingId event = Some the_meeting ->
         caseKey out = case_key K (now_check E) the_meeting
         \/ caseKey out = case_key K (now_save E) the_meeting).
Proof.
  split; [exact reuse_hit|].
  split; [|split; [|split; [exact fast_path_returns_stored
                           |split; [reflexivity|]]]].
  3:{ intros K E event w w' out m0 H Hm0.
      pose proof (lambda_handler_ending K E event w) as He.
      rewrite H in He. cbn [fst snd] in He.
      inversion He as [ | m o Hm Hf' Hr | | tk m tr ca resp w1 w2 r Htk Hm Hwhy Hinv Hs Ht Hc Ha];
        subst.
      - apply reuse_existing_spec in Hr as (_ & Hk & _). left. congruence.
      - apply after_response_ok in Ha
          as [_ (parsed & data & v & ov & _ & _ & Hk & _)].
        right. congruence. }
  - intros K E1 E2 ev1 ev2 w w1 out1 tk2 m H1 Hm1 Hm2 Htk Hne Hf Hkey.
    pose proof (handler_ok_meeting _ _ _ _ _ _ _ H1 Hm1) as Hme.
    destruct (handler_ok_stored _ _ _ _ _ _ H1) as (data & ov & Hd & Hl & Hov & Hr).
    rewrite <- Hkey in Hl.
    rewrite (reuse_hit K E2 ev2 w1 tk2 m data ov (passRate out1)
               Htk Hne Hm2 Hme Hf Hl Hov Hr).
    rewrite Hkey, Hd. reflexivity.
  - intros K E event w w' out Hf H.
    pose proof (lambda_handler_ending K E event w) as He.
    rewrite H in He. cbn [fst snd] in He.
    inversion He as [ | m o Hm Hf' Hr | | tk m tr ca resp w1 w2 r Htk Hm Hwhy Hinv Hs Ht Hc Ha];
      subst.
    + congruence.
    + apply after_response_ok in Ha
        as [_ (parsed & data & v & ov & _ & _ & Hk & _ & _ & _ & _ & Hs3 & Hcl)].
      exists m. repeat split; try assumption; congruence.
Qed.

Lemma idempotent_within_partition_witness :
  let first := lambda_handler demo_constants (demo_env (2026, 1) first_reply)
                 (demo_event false) empty_world in
  let out1 := match snd first with
              | Ok o => o
              | Raise _ => {| caseData := JNull; caseKey := ""; passRate := 0;
                              hasVulnerability := None; callAnalytics := None |}
              end in
  lambda_handler demo_constants (demo_env (2026, 1) second_reply)
    (demo_event false) (fst first)
  = (fst first, Ok {| caseData := caseData out1; caseKey := caseKey out1;
                      passRate := passRate out1; hasVulnerability := None;
                      callAnalytics := None |}).
Proof.
  cbv zeta.
  refine (proj1 (proj2 idempotent_within_partition) demo_constants
            (demo_env (2026, 1) first_reply) (demo_env (2026, 1) second_reply)
            (demo_event false) (demo_event false) empty_world _ _
            "summaries/t/redacted_transcript.txt" "m-42"
            _ eq_refl eq_refl eq_refl _ eq_refl _).
  - vm_compute. reflexivity.
  - discriminate.
  - vm_compute. reflexivity.
Defined.

(** ** Runs of the handler on the example setting *)

Lemma high_severity_flag_recomputed_witness :
  exists the_meeting call_analytics parsed,
    caseData (output_of (snd (run_with second_reply)))
    = JDict (fst (finalise STARTER_SESSION_CHECKS the_meeting
                    (MODEL_VERSION demo_constants)
                    (PROMPT_VERSION demo_constants) call_analytics parsed))
    /\ s3 (fst (run_with second_reply))
         !! caseKey (output_of (snd (run_with second_reply)))
       = Some (caseData (output_of (snd (run_with second_reply)))).
Proof.
  apply (proj2 high_severity_flag_recomputed demo_constants
           (demo_env (2026, 1) second_reply) (demo_event false) empty_world
           (fst (run_with second_reply))
           (output_of (snd (run_with second_reply)))).
  - vm_compute. reflexivity.
  - vm_compute. discriminate.
Defined.

Lemma vulnerability_flag_rule_witness :
  exists the_meeting call_analytics parsed,
    true = snd (finalise STARTER_SESSION_CHECKS the_meeting
                  (MODEL_VERSION demo_constants)
                  (PROMPT_VERSION demo_constants) call_analytics parsed)
    /\ caseData (output_of (snd (run_with (vulnerable_reply "Fail"))))
       = JDict (fst (finalise STARTER_SESSION_CHECKS the_meeting
                       (MODEL_VERSION demo_constants)
                       (PROMPT_VERSION demo_constants) call_analytics parsed)).
Proof.
  apply (proj2 (proj2 vulnerability_flag_rule) demo_constants
           (demo_env (2026, 1) (vulnerable_reply "Fail")) (demo_event false)
           empty_world (fst (run_with (vulnerable_reply "Fail")))
           (output_of (snd (run_with (vulnerable_reply "Fail")))) true).
  - vm_compute. reflexivity.
  - vm_compute. reflexivity.
Defined.

(** The vulnerability indicator for each status of the designated check. *)
Example vulnerability_by_status :
  map (fun st => hasVulnerability (output_of (snd (run_with (vulnerable_reply st)))))
      ["Competent"; "Fail"; "NotApplicable"; "Inconclusive";
       "CompetentWithDevelopment"]
  = [Some true; Some true; Some false; Some false; Some false].
Proof. vm_compute. reflexivity. Qed.

(** A failed high-severity check sets the flag in the stored payload even
    though the classifier sent no [overall] at all. *)
Example stored_flag_after_failure :
  exists data ov,
    s3 (fst (run_with second_reply))
      !! caseKey (output_of (snd (run_with second_reply)))
    = Some (JDict data)
    /\ dget "overall" data = Some (JDict ov)
    /\ dget "has_high_severity_failures" ov = Some (JBool true)
    /\ dget "failed_ids" ov = Some (JList [JStr "fees_charges_explained"]).
Proof.
  eexists. eexists. split; [vm_compute; reflexivity|].
  repeat split.
Qed.

(** * Further properties of the code *)

(** ** Rounding *)

(** ** The persisted payload *)

Lemma clamp01_bounds (x : Q) : (0 <= clamp01 x <= 1)%Q.
Proof.
  unfold clamp01.
  destruct (Qle_bool 1 x) eqn:H1.
  - simpl. split; [discriminate|apply Qle_refl].
  - destruct (Qle_bool x 0) eqn:H0.
    + split; [apply Qle_refl|discriminate].
    + assert (~ (1 <= x)%Q) by (rewrite <- Qle_bool_iff; congruence).
      assert (~ (x <= 0)%Q) by (rewrite <- Qle_bool_iff; congruence).
      lra.
Qed.

Lemma tidy_result_normal (r : CaseCheckResult) :
  (0 <= confidence (tidy_result r) <= 1)%Q
  /\ evidence_quote (tidy_result r) <> None
  /\ comment (tidy_result r) <> None.
Proof.
  split; [apply clamp01_bounds|]. simpl.
  split; [destruct (evidence_quote r) as [[|]|] | destruct (comment r) as [[|]|]];
    discriminate.
Qed.

(** X1: whatever the classifier sent, the payload stored by a classifying
    run carries the meeting id of the event and the model and prompt
    versions of the deployment, and each of its results has a confidence
    between 0 and 1 and a quote and a comment that are strings, never
    null. *)
Theorem persisted_payload_normalised K E event w w' out :
  lambda_handler K E event w = (w', Ok out) ->
  hasVulnerability out <> None ->
  exists the_meeting data rs,
    meetingId event = Some the_meeting
    /\ s3 w' !! caseKey out = Some (JDict data)
    /\ dget "meeting_id" data = Some (JStr the_meeting)
    /\ dget "model_version" data = Some (JStr (MODEL_VERSION K))
    /\ dget "prompt_version" data = Some (JStr (PROMPT_VERSION K))
    /\ dget "results" data = Some (JList (map dump_result rs))
    /\ Forall (fun r => (0 <= confidence r <= 1)%Q
                        /\ evidence_quote r <> None /\ comment r <> None) rs.
Proof.
  intros H Hv.
  destruct (handler_processed _ _ _ _ _ _ H Hv)
    as (m & ca & w1 & Hm & _ & _ & parsed & data & v & ov
        & Hfin & Hd & _ & _ & _ & _ & _ & Hs3 & _).
  exists m, data, (map tidy_result (results parsed)).
  split; [exact Hm|]. split.
  { rewrite Hs3, Hd. apply lookup_insert_eq. }
  unfold finalise in Hfin. injection Hfin as <- _.
  destruct (final_flags_from (severity_by_id STARTER_SESSION_CHECKS)
              (results parsed)
              {| tidied := []; has_high_severity_failures := false;
                 has_vulnerability := false |}) as (Ht & _).
  cbv zeta in Ht. unfold final_flags. rewrite Ht. cbn [tidied app].
  repeat split.
  apply List.Forall_forall. intros r Hr. apply in_map_iff in Hr as (r0 & <- & _).
  apply tidy_result_normal.
Qed.

Lemma persisted_payload_normalised_witness :
  exists the_meeting data rs,
    meetingId (demo_event false) = Some the_meeting
    /\ s3 (fst (run_with second_reply))
         !! caseKey (output_of (snd (run_with second_reply)))
       = Some (JDict data)
    /\ dget "meeting_id" data = Some (JStr the_meeting)
    /\ dget "model_version" data = Some (JStr (MODEL_VERSION demo_constants))
    /\ dget "prompt_version" data = Some (JStr (PROMPT_VERSION demo_constants))
    /\ dget "results" data = Some (JList (map dump_result rs))
    /\ Forall (fun r => (0 <= confidence r <= 1)%Q
                        /\ evidence_quote r <> None /\ comment r <> None) rs.
Proof.
  apply (persisted_payload_normalised demo_constants
           (demo_env (2026, 1) second_reply) (demo_event false) empty_world
           (fst (run_with second_reply))
           (output_of (snd (run_with second_reply)))).
  - vm_compute. reflexivity.
  - vm_compute. discriminate.
Defined.

(** ** The fallback [overall]: bounds *)

Lemma failure_fold_invariant checks rs f0 h0 f h :
  fold_left (failure_step checks) rs (Ok (f0, h0)) = Ok (f, h) ->
  (length f <= length f0 + length rs)%nat
  /\ (incl h0 f0 -> incl h f).
Proof.
  revert f0 h0. induction rs as [|r rs IH]; intros f0 h0; cbn [fold_left].
  - intros E. injection E as <- <-. simpl. split; [lia|auto].
  - assert (Hraise : forall e,
        fold_left (failure_step checks) rs (Raise e) = Raise e).
    { clear. induction rs as [|r rs IH]; intros e; [reflexivity|apply IH]. }
    destruct (failure_step checks (Ok (f0, h0)) r) as [[f1 h1]|e] eqn:Hs;
      [|rewrite Hraise; discriminate].
    intros E. destruct (IH _ _ E) as [Hl Hi].
    assert (Hstep : (length f1 <= S (length f0))%nat
                    /\ (incl h0 f0 -> incl h1 f1)).
    { unfold failure_step in Hs. cbn [bind fst snd] in Hs.
      destruct r; try (injection Hs as <- <-; split; [lia|auto]).
      destruct (is_str "Fail" (dget "status" kv));
        [|injection Hs as <- <-; split; [lia|auto]].
      destruct (severity_is_high _ _) as [[|]|]; try discriminate;
        cbn [bind] in Hs; injection Hs as <- <-;
        rewrite length_app; simpl; (split; [lia|]); intros Hsub x Hx.
      - apply in_app_iff in Hx as [Hx|Hx]; apply in_app_iff; auto.
      - apply in_app_iff. left. auto. }
    destruct Hstep as [Hl1 Hi1]. simpl. split; [lia|auto].
Qed.

(** X2: the [overall] computed when the classifier sent none has a pass
    rate between 0 and 100, lists every high-severity id among the failed
    ids, has no more failed ids than there are results, and raises its flag
    exactly when a high-severity id is listed. *)
Theorem fallback_overall_bounds checks validated_json filled :
  overall_missing validated_json = true ->
  fill_overall checks validated_json = Ok filled ->
  exists rate failed flags flag,
    dget "overall" filled = Some (overall_of rate failed flags flag)
    /\ (0 <= rate <= 100)%Q
    /\ incl flags failed
    /\ (flag = true <-> flags <> [])
    /\ (forall results_list,
           dget "results" validated_json = Some (JList results_list) ->
           (length failed <= length results_list)%nat).
Proof.
  intros Hmiss H. unfold fill_overall in H. rewrite Hmiss in H.
  unfold dget_or in H.
  destruct (dget "results" validated_json) as [rv|] eqn:Hres.
  2:{ (* no results: an empty list *)
      cbn in H. injection H as <-.
      exists (py_round1 0), [], [], false. rewrite dget_dset_same.
      repeat split; try discriminate; try (intros; congruence);
        try (intros x []). }
  destruct rv as [| | | | |rs|];
    try (injection H as <-;
         exists 0%Q, [], [], false; rewrite dget_dset_same;
         repeat split; try discriminate; try (intros; congruence);
         try (intros x [])).
  destruct (collect_failures checks rs) as [[f h]|e] eqn:Hc; [|discriminate].
  cbn [bind fst snd] in H. injection H as <-.
  destruct (failure_fold_invariant _ _ _ _ _ _ Hc) as [Hl Hi]. simpl in Hl.
  eexists _, f, h, _. rewrite dget_dset_same. split; [reflexivity|].
  split.
  { destruct rs as [|r rs'] eqn:Hrs.
    - vm_compute. split; discriminate.
    - rewrite <- Hrs in *. 
      assert (Hn : (0 < length rs)%nat) by (rewrite Hrs; simpl; lia).
      replace (0 <? length rs)%nat with true
        by (symmetry; apply Nat.ltb_lt; exact Hn).
      set (p := (Z.of_nat (length rs) - Z.of_nat (length f))%Z).
      set (t := Z.of_nat (length rs)).
      assert (Hp : (0 <= p <= t)%Z) by (unfold p, t; lia).
      assert (Ht : (0 < t)%Z) by (unfold t; lia).
      pose proof (rounded_percentage_spec p t Hp Ht) as (_ & Hr & _).
      exact Hr. }
  split; [apply Hi; intros x []|]. split.
  - destruct h; simpl; split; intros HH; try discriminate; try reflexivity.
    exfalso. apply HH. reflexivity.
  - intros rl E. injection E as <-. exact Hl.
Qed.

Lemma fallback_overall_bounds_witness :
  exists rate failed flags flag,
    dget "overall"
      (dset "overall" (overall_of 50 [JStr "a"] [JStr "a"] true) triage_input)
    = Some (overall_of rate failed flags flag)
    /\ (0 <= rate <= 100)%Q
    /\ incl flags failed
    /\ (flag = true <-> flags <> [])
    /\ (forall results_list,
           dget "results" triage_input = Some (JList results_list) ->
           (length failed <= length results_list)%nat).
Proof.
  apply (fallback_overall_bounds two_checks triage_input); reflexivity.
Defined.

(** ** Evidence spans after resolution *)

Lemma dget_dset_other (k k' : string) (v : json) (d : dict) :
  k' <> k -> dget k' (dset k v d) = dget k' d.
Proof.
  intros Hne. induction d as [|[k0 v0] d IH]; simpl.
  - destruct (String.eqb k' k) eqn:E; [|reflexivity].
    apply String.eqb_eq in E. congruence.
  - destruct (String.eqb k k0) eqn:E; simpl.
    + apply String.eqb_eq in E. subst k0.
      destruct (String.eqb k' k) eqn:E'; [|reflexivity].
      apply String.eqb_eq in E'. congruence.
    + rewrite IH. reflexivity.
Qed.

Lemma dget_or_dset_same (k : string) (v dflt : json) (d : dict) :
  dget_or k dflt (dset k v d) = v.
Proof. unfold dget_or. rewrite dget_dset_same. reflexivity. Qed.

Lemma dget_or_dset_other (k k' : string) (v dflt : json) (d : dict) :
  k' <> k -> dget_or k' dflt (dset k v d) = dget_or k' dflt d.
Proof. intros H. unfold dget_or. rewrite dget_dset_other by exact H. reflexivity. Qed.

Lemma valid_span_shape (span v : json) :
  valid_span span = Some v -> int_pair v.
Proof.
  unfold valid_span.
  destruct span as [| | | | |[|a [|b [|c l]]]|]; try discriminate.
  destruct (coerce_int a) as [x|]; [|discriminate].
  destruct (coerce_int b) as [y|]; [|discriminate].
  intros H. injection H as <-. exists x, y. reflexivity.
Qed.

Lemma kept_spans_shape (spans : list json) :
  Forall int_pair (valid_spans spans).
Proof.
  rewrite valid_spans_spec. unfold kept_spans_spec.
  induction spans as [|sp spans IH]; simpl; [constructor|].
  destruct (valid_span sp) as [v|] eqn:E; simpl; [|exact IH].
  constructor; [exact (valid_span_shape _ _ E)|exact IH].
Qed.

Lemma kept_spans_fixed (spans : list json) :
  Forall int_pair spans -> valid_spans spans = spans.
Proof.
  rewrite valid_spans_spec. unfold kept_spans_spec.
  induction 1 as [|sp spans (a & b & ->) _ IH]; simpl; [reflexivity|].
  rewrite IH. reflexivity.
Qed.

Lemma search_quote_cases (tr q : string) :
  search_quote tr q = None
  \/ search_quote tr q = Some (JList [])
  \/ exists p n, search_quote tr q = Some (span_at p n).
Proof.
  unfold search_quote.
  destruct (Py.nonempty (Py.strip q)); [|auto].
  destruct (Py.find tr (Py.strip q)); [eauto|].
  destruct (Py.find tr (Py.take 50 (Py.strip q))); eauto.
Qed.

(** The ways in which the spans of one result come out. *)
Lemma resolve_item_cases (tr : string) (d : dict) (r : json) :
  resolve_item tr (JDict d) = Ok r ->
  let q := dget_or "evidence_quote" (JStr "") d in
  let quiet :=
    truthy q = false \/ exists qs, q = JStr qs /\ search_quote tr qs = None in
  (r = JDict d /\ truthy (dget_or "evidence_spans" (JList []) d) = false
   /\ quiet)
  \/ exists X,
       r = JDict (dset "evidence_spans" (JList X) d)
       /\ Forall int_pair X
       /\ (X <> [] \/ quiet
           \/ exists qs, q = JStr qs /\ search_quote tr qs = Some (JList [])).
Proof.
  cbv zeta. unfold resolve_item.
  set (q := dget_or "evidence_quote" (JStr "") d).
  set (sp := dget_or "evidence_spans" (JList []) d).
  assert (Hsearch : forall (base : dict) qs r0,
    match search_quote tr qs with
    | Some spans => Ok (JDict (dset "evidence_spans" spans base))
    | None => Ok (JDict base)
    end = Ok r0 ->
    (r0 = JDict base /\ search_quote tr qs = None)
    \/ (r0 = JDict (dset "evidence_spans" (JList []) base)
        /\ search_quote tr qs = Some (JList []))
    \/ exists p n, r0 = JDict (dset "evidence_spans" (span_at p n) base)).
  { intros base qs r0.
    destruct (search_quote_cases tr qs) as [E|[E|(p & n & E)]]; rewrite E;
      intros H; injection H as <-; eauto 6. }
  destruct (truthy sp) eqn:Hsp.
  - destruct (py_iter sp) as [spans|e]; [|discriminate]. cbn [bind fst snd].
    pose proof (kept_spans_shape spans) as Hshape.
    destruct (valid_spans spans) as [|v vs] eqn:Hk.
    + cbn [truthy negb]. rewrite andb_true_r.
      destruct (truthy q) eqn:Hq.
      * destruct q as [| | | |qs| |] eqn:Eq; try discriminate.
        intros H. apply Hsearch in H as [[-> E]|[[-> E]|(p & n & ->)]].
        -- right. exists []. split; [reflexivity|]. split; [constructor|].
           right. left. right. eauto.
        -- right. exists []. rewrite dset_dset. split; [reflexivity|].
           split; [constructor|]. right. right. eauto.
        -- right. exists [JList [JInt (Z.of_nat p);
                                 JInt (Z.of_nat p + Z.of_nat n)]].
           rewrite dset_dset. split; [reflexivity|].
           split; [repeat constructor; eexists; eexists; reflexivity|].
           left. discriminate.
      * intros H. injection H as <-. right. exists [].
        split; [reflexivity|]. split; [constructor|]. right. left. left.
        reflexivity.
    + cbn [truthy negb]. rewrite andb_false_r.
      intros H. injection H as <-. right. exists (v :: vs).
      split; [reflexivity|]. split; [exact Hshape|]. left. discriminate.
  - cbn [bind fst snd]. rewrite Hsp. cbn [negb]. rewrite andb_true_r.
    destruct (truthy q) eqn:Hq.
    + destruct q as [| | | |qs| |] eqn:Eq; try discriminate.
      intros H. apply Hsearch in H as [[-> E]|[[-> E]|(p & n & ->)]].
      * left. split; [reflexivity|]. split; [reflexivity|]. right. eauto.
      * right. exists []. split; [reflexivity|]. split; [constructor|].
        right. right. eauto.
      * right. exists [JList [JInt (Z.of_nat p);
                               JInt (Z.of_nat p + Z.of_nat n)]].
        split; [reflexivity|].
        split; [repeat constructor; eexists; eexists; reflexivity|].
        left. discriminate.
    + intros H. injection H as <-. left. auto.
Qed.

(** X3: resolving the evidence of a result a second time changes nothing:
    whatever the first pass returned is returned again by a pass over it. *)
Theorem resolve_item_idempotent (full_transcript : string) (item item' : json) :
  resolve_item full_transcript item = Ok item' ->
  resolve_item full_transcript item' = Ok item'.
Proof.
  destruct item as [| | | | | |d];
    try (intros H; injection H as <-; reflexivity).
  intros H. apply resolve_item_cases in H. cbv zeta in H.
  assert (Hq : forall X,
    dget_or "evidence_quote" (JStr "") (dset "evidence_spans" X d)
    = dget_or "evidence_quote" (JStr "") d)
    by (intros; apply dget_or_dset_other; discriminate).
  destruct H as [(-> & Hsp & Hquiet)|(X & -> & Hshape & Hwhy)].
  - unfold resolve_item. rewrite Hsp. cbn [bind fst snd]. rewrite Hsp.
    cbn [negb]. rewrite andb_true_r.
    destruct Hquiet as [Hf|(qs & -> & Hs)].
    + rewrite Hf. reflexivity.
    + destruct (truthy (JStr qs)); [|reflexivity]. rewrite Hs. reflexivity.
  - unfold resolve_item. rewrite Hq, dget_or_dset_same.
    destruct X as [|x X'].
    + cbn [truthy bind fst snd negb]. rewrite andb_true_r.
      destruct Hwhy as [Hne|[[Hf|(qs & -> & Hs)]|(qs & -> & Hs)]].
      * congruence.
      * rewrite Hf. reflexivity.
      * destruct (truthy (JStr qs)); [|reflexivity]. rewrite Hs. reflexivity.
      * destruct (truthy (JStr qs)); [|reflexivity]. rewrite Hs, dset_dset.
        reflexivity.
    + cbn [truthy py_iter bind fst snd]. rewrite (kept_spans_fixed _ Hshape).
      cbn [truthy negb]. rewrite andb_false_r, dset_dset. reflexivity.
Qed.

Lemma resolve_item_idempotent_witness :
  resolve_item demo_transcript
    (JDict (dset "evidence_spans" (JList [JList [JInt 51; JInt 72]])
              quoted_result))
  = Ok (JDict (dset "evidence_spans" (JList [JList [JInt 51; JInt 72]])
                 quoted_result)).
Proof.
  apply (resolve_item_idempotent demo_transcript (JDict quoted_result)).
  vm_compute. reflexivity.
Defined.

(** X4: resolving the evidence of a result touches no field but
    [evidence_spans], and either leaves the result as it is or leaves in
    that field a list in which every span is a pair of integers. *)
Theorem resolved_spans_are_integer_pairs (full_transcript : string) (d : dict)
    (r : json) :
  resolve_item full_transcript (JDict d) = Ok r ->
  exists d',
    r = JDict d'
    /\ (forall k, k <> "evidence_spans" -> dget k d' = dget k d)
    /\ (d' = d
        \/ exists spans, dget "evidence_spans" d' = Some (JList spans)
                         /\ Forall int_pair spans).
Proof.
  intros H. apply resolve_item_cases in H. cbv zeta in H.
  destruct H as [(-> & _)|(X & -> & Hshape & _)].
  - exists d. auto.
  - exists (dset "evidence_spans" (JList X) d). split; [reflexivity|]. split.
    + intros k Hk. apply dget_dset_other. exact Hk.
    + right. exists X. rewrite dget_dset_same. auto.
Qed.

Lemma resolved_spans_are_integer_pairs_witness :
  exists d',
    JDict (dset "evidence_spans" (JList [JList [JInt 51; JInt 72]])
             quoted_result) = JDict d'
    /\ (forall k, k <> "evidence_spans" -> dget k d' = dget k quoted_result)
    /\ (d' = quoted_result
        \/ exists spans, dget "evidence_spans" d' = Some (JList spans)
                         /\ Forall int_pair spans).
Proof.
  apply (resolved_spans_are_integer_pairs demo_transcript quoted_result).
  vm_compute. reflexivity.
Defined.

(** ** What a run of the case-check handler writes *)

Lemma finalise_overall checks the_meeting model prompt call_analytics parsed :
  exists ov,
    dget_or "overall" (JDict []) (fst (finalise checks the_meeting model prompt
                                         call_analytics parsed)) = JDict ov.
Proof. eexists. reflexivity. Qed.

(** After the reply: nothing is written, or the payload has been stored and
    the rows of the meeting have been put. *)
Lemma after_response_stores K E the_meeting full_transcript call_analytics resp w w' r :
  after_response K E the_meeting full_transcript call_analytics resp w = (w', r) ->
  classifications w' = classifications w
  /\ ((w' = w /\ exists e, r = Raise e)
      \/ exists data ov,
           s3 w' = <[case_key K (now_save E) the_meeting := JDict data]> (s3 w)
           /\ assessment_table w'
              = save_checks_to_assessment_table the_meeting data
                  (assessment_table w)
           /\ dget_or "overall" (JDict []) data = JDict ov
           /\ match r with
              | Ok out => coerce_float (dget_or "pass_rate" (JFloat 0) ov)
                          = Ok (passRate out)
              | Raise e => coerce_float (dget_or "pass_rate" (JFloat 0) ov)
                           = Raise e
              end).
Proof.
  unfold after_response.
  destruct (first_tool_use (content resp)) as [tub|];
    [|intros H; injection H as <- <-; eauto].
  destruct (truthy tub); cbn [negb];
    [|intros H; injection H as <- <-; eauto].
  destruct (String.eqb (stopReason resp) "max_tokens");
    [intros H; injection H as <- <-; eauto|].
  match goal with
  | |- context [match ?p with Ok _ => _ | Raise _ => _ end] =>
      destruct p as [parsed|e]; [|intros H; injection H as <- <-; eauto]
  end.
  destruct (finalise_overall STARTER_SESSION_CHECKS the_meeting (MODEL_VERSION K)
              (PROMPT_VERSION K) call_analytics parsed) as (ov & Hov).
  destruct (finalise _ _ _ _ _ parsed) as [data vulnerable] eqn:Hfin.
  cbn [fst] in Hov. unfold save_case_json. rewrite Hov.
  destruct (coerce_float _) as [pr|e] eqn:Hpr;
    intros H; injection H as <- <-; (split; [reflexivity|]); right;
    exists data, ov; cbn; auto.
Qed.

Lemma put_check_other (the_meeting : string) th tbl r (m' a : string) :
  m' <> the_meeting ->
  put_check the_meeting th tbl r !! (m', a) = tbl !! (m', a).
Proof.
  intros Hne. unfold put_check.
  destruct r as [| | | | | |d]; try reflexivity.
  destruct (dget "id" d) as [[| | | |[|c i]| |]|]; try reflexivity.
  apply lookup_insert_ne. congruence.
Qed.

Lemma save_checks_other (the_meeting : string) data tbl (m' a : string) :
  m' <> the_meeting ->
  save_checks_to_assessment_table the_meeting data tbl !! (m', a)
  = tbl !! (m', a).
Proof.
  intros Hne. unfold save_checks_to_assessment_table.
  set (rs := match dget_or "results" (JList []) data with
             | JList l => l | _ => [] end).
  assert (Hfold : forall tbl0,
    fold_left (put_check the_meeting (theme_by_id STARTER_SESSION_CHECKS)) rs tbl0
      !! (m', a) = tbl0 !! (m', a)).
  { induction rs as [|r rs IH]; intros tbl0; simpl; [reflexivity|].
    rewrite IH. apply put_check_other. exact Hne. }
  destruct (dget_or "overall" (JDict []) data); try apply Hfold.
  destruct (coerce_float _); [|apply Hfold].
  rewrite lookup_insert_ne by congruence. apply Hfold.
Qed.

Lemma handler_footprint K E event w w' r :
  lambda_handler K E event w = (w', r) ->
  (forall k,
      (forall m, meetingId event = Some m -> k <> case_key K (now_save E) m) ->
      s3 w' !! k = s3 w !! k)
  /\ (forall m' a,
         meetingId event <> Some m' ->
         assessment_table w' !! (m', a) = assessment_table w !! (m', a)).
Proof.
  intros H. pose proof (lambda_handler_ending K E event w) as He.
  rewrite H in He. cbn [fst snd] in He.
  inversion He as [ | | tr w2 e Hinv Hs Ht Hc
                  | tk m tr ca resp w1 w2 r0 Htk Hm Hwhy Hinv Hs Ht Hc Ha];
    subst; try (split; intros; reflexivity).
  - rewrite Hs, Ht. split; intros; reflexivity.
  - apply after_response_stores in Ha as [_ [[-> _]|(data & ov & Hs3 & Htbl & _)]].
    + rewrite Hs, Ht. split; intros; reflexivity.
    + rewrite Hs3, Htbl, Hs, Ht. split.
      * intros k Hk. apply lookup_insert_ne. intros E'. exact (Hk m Hm (eq_sym E')).
      * intros m' a Hne. apply save_checks_other. congruence.
Qed.

(** X5: whatever its outcome, a run of the case-check handler leaves every
    object but the one at the case key of its meeting as it was, and
    leaves every row of the assessment table that belongs to another
    meeting as it was. *)
Theorem handler_writes_only_its_meeting K E event w w' r :
  lambda_handler K E event w = (w', r) ->
  (forall k,
      (forall m, meetingId event = Some m -> k <> case_key K (now_save E) m) ->
      s3 w' !! k = s3 w !! k)
  /\ (forall m' a,
         meetingId event <> Some m' ->
         assessment_table w' !! (m', a) = assessment_table w !! (m', a)).
Proof. apply handler_footprint. Qed.

Lemma handler_writes_only_its_meeting_witness :
  (forall k,
      (forall m, meetingId (demo_event false) = Some m ->
                 k <> case_key demo_constants
                        (now_save (demo_env (2026, 1) second_reply)) m) ->
      s3 (fst (run_with second_reply)) !! k = s3 empty_world !! k)
  /\ (forall m' a,
         meetingId (demo_event false) <> Some m' ->
         assessment_table (fst (run_with second_reply)) !! (m', a)
         = assessment_table empty_world !! (m', a)).
Proof.
  apply (handler_writes_only_its_meeting demo_constants
           (demo_env (2026, 1) second_reply) (demo_event false) empty_world
           (fst (run_with second_reply)) (snd (run_with second_reply))).
  apply surjective_pairing.
Defined.

(** X6: when the case-check handler raises, the object store and the
    assessment table are as they were, with one exception: when the error
    comes from reading [overall.pass_rate] of the payload as a float for
    the returned dict, the payload has already been stored at the case key
    and the rows of its results have already been put in the assessment
    table, one per result with a non-empty string id; the overall row has
    not been written. *)
Theorem handler_error_leaves_stores K E event w w' e :
  lambda_handler K E event w = (w', Raise e) ->
  (s3 w' = s3 w /\ assessment_table w' = assessment_table w)
  \/ exists m data ov,
       meetingId event = Some m
       /\ s3 w' = <[case_key K (now_save E) m := JDict data]> (s3 w)
       /\ assessment_table w'
          = fold_left (put_check m (theme_by_id STARTER_SESSION_CHECKS))
              (results_of data) (assessment_table w)
       /\ dget_or "overall" (JDict []) data = JDict ov
       /\ coerce_float (dget_or "pass_rate" (JFloat 0) ov) = Raise e.
Proof.
  intros H. pose proof (lambda_handler_ending K E event w) as He.
  rewrite H in He. cbn [fst snd] in He.
  inversion He as [ | | tr w2 e0 Hinv Hs Ht Hc
                  | tk m tr ca resp w1 w2 r0 Htk Hm Hwhy Hinv Hs Ht Hc Ha];
    subst; auto.
  apply after_response_stores
    in Ha as [_ [[-> _]|(data & ov & Hs3 & Htbl & Hov & Hpr)]].
  - auto.
  - right. exists m, data, ov. rewrite Hs3, Hs, Htbl, Ht.
    unfold save_checks_to_assessment_table, results_of. rewrite Hov, Hpr. auto.
Qed.

Lemma handler_error_leaves_stores_witness :
  let w' := fst (run_with unread_rate_reply) in
  (s3 w' = s3 empty_world /\ assessment_table w' = assessment_table empty_world)
  \/ exists m data ov,
       meetingId (demo_event false) = Some m
       /\ s3 w'
          = <[case_key demo_constants
                (now_save (demo_env (2026, 1) unread_rate_reply)) m
              := JDict data]> (s3 empty_world)
       /\ assessment_table w'
          = fold_left (put_check m (theme_by_id STARTER_SESSION_CHECKS))
              (results_of data) (assessment_table empty_world)
       /\ dget_or "overall" (JDict []) data = JDict ov
       /\ coerce_float (dget_or "pass_rate" (JFloat 0) ov) = Raise ValueError.
Proof.
  cbv zeta.
  apply (handler_error_leaves_stores demo_constants
           (demo_env (2026, 1) unread_rate_reply) (demo_event false) empty_world
           (fst (run_with unread_rate_reply)) ValueError).
  vm_compute. reflexivity.
Defined.

(** ** Caption segments: times and attribution *)

Lemma stamp_nonneg (g : string) (q : Q) :
  is_stamp g -> parse_timestamp g = Ok (Finite q) -> (0 <= q)%Q.
Proof.
  intros Hg Hq.
  destruct (parse_timestamp_stamp _ Hg)
    as (q' & h & m & sec & sep & frac & Hq' & -> & Hh & Hm & Hs & Hp & Hf & Hv).
  rewrite Hq' in Hq. injection Hq as <-.
  rewrite Hv.
  pose proof (num_nonneg _ Hh). pose proof (num_nonneg _ Hm).
  pose proof (decimal_value_nonneg _ _ Hs Hf).
  assert (0 <= inject_Z (num h * 3600))%Q
    by (change 0%Q with (inject_Z 0); rewrite <- Zle_Qle; lia).
  assert (0 <= inject_Z (num m * 60))%Q
    by (change 0%Q with (inject_Z 0); rewrite <- Zle_Qle; lia).
  lra.
Qed.

Lemma parse_vtt_segments_scan (content : string) :
  content <> "" ->
  parse_vtt_segments (Some content) = scan (caption_lines content).
Proof. destruct content; [congruence|reflexivity]. Qed.

Lemma segments_nonneg (vtt_content : option string) (segments : list segment) :
  parse_vtt_segments vtt_content = Ok segments ->
  Forall (fun seg => (0 <= fst (fst seg))%Q /\ (0 <= snd (fst seg))%Q) segments.
Proof.
  destruct vtt_content as [[|c content]|];
    try (intros H; injection H as <-; constructor).
  rewrite parse_vtt_segments_scan by discriminate.
  destruct (scan_segments (caption_lines (String c content)))
    as (segs & Hs & _ & Hall).
  rewrite Hs. intros H. injection H as <-.
  eapply List.Forall_impl; [|exact Hall].
  intros seg (_ & l & g1 & g2 & _ & Hm & H1 & H2).
  apply rmatch_some in Hm as (rest & Hin).
  apply timestamp_pattern_sound in Hin as (g1' & g2' & tail & E & Hg1 & Hg2 & _).
  injection E as -> ->.
  split; [exact (stamp_nonneg _ _ Hg1 H1)|exact (stamp_nonneg _ _ Hg2 H2)].
Qed.

(** X7: both times of every parsed segment are non-negative, whatever the
    caption file holds. *)
Theorem segment_times_nonnegative (vtt_content : option string)
    (segments : list segment) :
  parse_vtt_segments vtt_content = Ok segments ->
  Forall (fun seg => (0 <= fst (fst seg))%Q /\ (0 <= snd (fst seg))%Q) segments.
Proof. apply segments_nonneg. Qed.

Lemma segment_times_nonnegative_witness :
  Forall (fun seg => (0 <= fst (fst seg))%Q /\ (0 <= snd (fst seg))%Q)
    [(1.000%Q, 4.500%Q, "Jane Doe: Hello there, how are you");
     (5.000%Q, 7.000%Q, "Sam: Fine thanks")].
Proof.
  apply (segment_times_nonnegative (Some demo_captions)).
  vm_compute. reflexivity.
Defined.

Lemma attribute_from (coach_name_lower : string) (segments : list segment)
    (t : timing) :
  let t' := fold_left (attribute_segment coach_name_lower) segments t in
  (coach_duration_sec t' + client_duration_sec t'
   == coach_duration_sec t + client_duration_sec t + total_span segments)%Q.
Proof.
  revert t. induction segments as [|[[a b] text] segs IH]; intros t.
  - cbn [fold_left total_span fold_right]. cbv zeta. lra.
  - change (total_span ((a, b, text) :: segs))
      with (b - a + total_span segs)%Q.
    cbn [fold_left]. cbv zeta in IH |- *. rewrite IH.
    unfold attribute_segment.
    destruct (Re.rmatch speaker_pattern text) as [groups|].
    + destruct (_ || _); cbn [add_coach add_client coach_duration_sec
                               client_duration_sec]; lra.
    + cbn [add_client coach_duration_sec client_duration_sec]. lra.
Qed.

Lemma attribute_segment_split (coach_name_lower : string) (t : timing)
    (seg : segment) :
  coach_duration_sec (attribute_segment coach_name_lower t seg)
  = (if coach_segment coach_name_lower seg
     then add_span (coach_duration_sec t) seg else coach_duration_sec t)
  /\ client_duration_sec (attribute_segment coach_name_lower t seg)
     = (if coach_segment coach_name_lower seg
        then client_duration_sec t else add_span (client_duration_sec t) seg).
Proof.
  destruct seg as [[a b] text]. unfold coach_segment, attribute_segment.
  cbn [snd fst].
  destruct (rmatch speaker_pattern text) as [groups|]; [|split; reflexivity].
  destruct (Py.contains _ _ || Py.contains _ _); split; reflexivity.
Qed.

Lemma attribute_split (coach_name_lower : string) (segments : list segment)
    (t : timing) :
  let t' := fold_left (attribute_segment coach_name_lower) segments t in
  let is_coach := coach_segment coach_name_lower in
  coach_duration_sec t'
  = fold_left add_span (List.filter is_coach segments) (coach_duration_sec t)
  /\ client_duration_sec t'
     = fold_left add_span (List.filter (fun seg => negb (is_coach seg)) segments)
         (client_duration_sec t).
Proof.
  cbv zeta. revert t.
  induction segments as [|seg segs IH]; intros t; [split; reflexivity|].
  cbn [fold_left List.filter].
  destruct (IH (attribute_segment coach_name_lower t seg)) as [IHc IHl].
  destruct (attribute_segment_split coach_name_lower t seg) as [Hc Hl].
  rewrite IHc, IHl, Hc, Hl.
  destruct (coach_segment coach_name_lower seg); split; reflexivity.
Qed.

(** X8: [parse_vtt_with_speakers] never raises.  Without captions or
    without a coach name all four fields of its result are 0.  Otherwise
    the duration of every parsed segment, [end_sec - start_sec], is added
    to exactly one speaker, in the order of the segments: to the coach when
    the segment is a [coach_segment], to the client when it is not.  Hence,
    with the floats read as exact rationals (the binary64 sums of the
    source are rounded), the two durations add up to the summed length of
    the segments: the attribution loses and invents no time. *)
Theorem attribution_conserves_duration (vtt_content coach_name : option string) :
  exists segments t,
    parse_vtt_segments vtt_content = Ok segments
    /\ parse_vtt_with_speakers vtt_content coach_name = Ok t
    /\ match vtt_content, coach_name with
       | Some (String _ _), Some (String _ _ as name) =>
           let is_coach := coach_segment (Py.strip (Py.lower name)) in
           coach_duration_sec t = summed_spans (List.filter is_coach segments)
           /\ client_duration_sec t
              = summed_spans (List.filter (fun seg => negb (is_coach seg)) segments)
           /\ (coach_duration_sec t + client_duration_sec t
               == total_span segments)%Q
       | _, _ => t = no_timing
       end.
Proof.
  destruct vtt_content as [[|c content]|].
  1,3: exists [], no_timing; repeat split;
       destruct coach_name as [[|]|]; reflexivity.
  destruct (scan_segments (caption_lines (String c content)))
    as (segs & Hs & _).
  rewrite parse_vtt_segments_scan by discriminate.
  destruct coach_name as [[|n name]|].
  1,3: exists segs, no_timing; split; [exact Hs|split; reflexivity].
  exists segs, (attribute (Py.strip (Py.lower (String n name))) segs).
  split; [exact Hs|]. split.
  - unfold parse_vtt_with_speakers.
    rewrite parse_vtt_segments_scan by discriminate. rewrite Hs. reflexivity.
  - pose proof (attribute_split (Py.strip (Py.lower (String n name))) segs
                  no_timing) as [Hc Hl].
    split; [exact Hc|]. split; [exact Hl|].
    pose proof (attribute_from (Py.strip (Py.lower (String n name))) segs
                  no_timing) as H.
    cbv zeta in H. unfold attribute. rewrite H. simpl. lra.
Qed.

(** ** The duration read off the captions by the case-check source *)

Lemma findall_from_sound (r : re) (s : string) (k : nat) (g : string) :
  In g (Analytics.findall_from r k s) ->
  exists s' caps rest, In (caps, rest) (run r s') /\ g = nth 0 caps "".
Proof.
  revert k. induction s as [|c s IH]; intros k.
  - destruct k as [|k]; cbn [Analytics.findall_from]; [|intros []].
    destruct (run r "") as [|[caps rest] l] eqn:Hr; [intros []|].
    intros [<-|[]]. exists "", caps, rest. rewrite Hr. split; [left|]; reflexivity.
  - destruct k as [|k]; cbn [Analytics.findall_from]; [|apply IH].
    destruct (run r (String c s)) as [|[caps rest] l] eqn:Hr; [apply IH|].
    intros [<-|H]; [|exact (IH _ H)].
    exists (String c s), caps, rest. rewrite Hr. split; [left|]; reflexivity.
Qed.

Lemma end_stamp_pattern_sound (s : string) (caps : list string) (rest : string) :
  In (caps, rest) (run Analytics.end_stamp_pattern s) ->
  exists g, caps = [g] /\ is_stamp g.
Proof.
  unfold Analytics.end_stamp_pattern, Re.seq. intros H.
  apply in_run_cat in H as (c1 & s1 & c1' & H1 & H & ->).
  apply in_run_cat in H as (c2 & s2 & c2' & H2 & H & ->).
  apply in_run_cat in H as (c3 & s3 & c3' & H3 & H & ->).
  apply in_run_cat in H as (c4 & s4 & c4' & H4 & H5 & ->).
  apply in_run_chr in H1 as (-> & _).
  apply in_run_chr in H2 as (-> & _).
  apply in_run_chr in H3 as (-> & _).
  apply in_run_rep in H4 as (-> & _).
  apply in_run_grp in H5 as (d & H5 & ->).
  apply stamp_re_sound in H5 as (-> & g & -> & Hg).
  rewrite group_text. exists g. auto.
Qed.

(** On a timestamp accepted by the pattern, the inline computation of the
    case-check source and [parse_timestamp] agree. *)
Lemma stamp_seconds_parse (g : string) :
  is_stamp g ->
  exists q q',
    Analytics.stamp_seconds g = Ok q /\ parse_timestamp g = Ok (Finite q')
    /\ (q == q')%Q.
Proof.
  intros (h & m & sec & sep & frac & -> & Hh & Lh & Hm & Lm & Hs & Ls & Hp & Hf).
  destruct (parse_timestamp_three h m sec sep frac Hh Hm Hs Hp Hf)
    as (q' & Hq' & Hv).
  { apply short_below_limit. lia. }
  { apply short_below_limit. lia. }
  { apply short_stamp_value; try assumption; lia. }
  destruct (seconds_text_clean _ _ _ Hs Hp Hf) as (Hrep & Hsp & Hco).
  destruct (float_of_str_decimal _ _ Hs Hf) as (q & Hq & Hqv).
  pose proof (is_digits_all _ Hh) as Hh'. pose proof (is_digits_all _ Hm) as Hm'.
  exists (inject_Z (num h * 3600) + inject_Z (num m * 60) + q)%Q, q'.
  split; [|split; [exact Hq'|rewrite Hv, Hqv; reflexivity]].
  unfold Analytics.stamp_seconds, stamp_text.
  rewrite replace_char_app. simpl Py.replace_char.
  rewrite replace_char_app. simpl Py.replace_char.
  rewrite Hrep, !replace_comma_digits by assumption.
  rewrite split_on_cons by (apply digits_no_colon; assumption).
  rewrite split_on_cons by (apply digits_no_colon; assumption).
  rewrite split_on_single by assumption.
  rewrite (py_int_short h Hh) by (apply short_below_limit; lia).
  rewrite (py_int_short m Hm) by (apply short_below_limit; lia).
  unfold py_float. rewrite Hq. reflexivity.
Qed.

Lemma last_in {A} (l : list A) (x : A) : last l = Some x -> In x l.
Proof.
  induction l as [|a [|b l] IH]; simpl; [discriminate| |].
  - intros H. injection H as <-. left. reflexivity.
  - intros H. right. apply IH. exact H.
Qed.

Lemma get_vtt_duration_ok (vtt_content : option string) :
  exists q, Analytics.get_vtt_duration vtt_content = Ok q /\ (0 <= q)%Q.
Proof.
  destruct vtt_content as [[|c content]|];
    try (exists 0%Q; split; [reflexivity|discriminate]).
  cbn [Analytics.get_vtt_duration].
  destruct (last _) as [ts|] eqn:Hl.
  2:{ exists 0%Q. split; [reflexivity|discriminate]. }
  apply last_in, findall_from_sound in Hl as (s' & caps & rest & Hin & ->).
  apply end_stamp_pattern_sound in Hin as (g & -> & Hg). simpl nth.
  destruct (stamp_seconds_parse _ Hg) as (q & q' & Hq & Hq' & Hv).
  exists q. split; [exact Hq|]. rewrite Hv. exact (stamp_nonneg _ _ Hg Hq').
Qed.

(** X9: [get_vtt_duration] of the case-check source never raises and its
    result is never negative, whatever the caption file holds: every
    timestamp that its pattern extracts has three numeric parts. *)
Theorem caption_duration_total (vtt_content : option string) :
  exists q, Analytics.get_vtt_duration vtt_content = Ok q /\ (0 <= q)%Q.
Proof. apply get_vtt_duration_ok. Qed.

(** ** The counters of the local analytics *)

Section Tally.
Import Analytics.

Lemma count_line_ok (t : tally) (line : string) :
  tally_ok t -> tally_ok (count_line t line).
Proof.
  unfold count_line.
  destruct (negb (Py.nonempty (Py.strip line))); [auto|].
  destruct (label_match (Py.strip line)) as [groups|]; [|auto].
  intros (Hlast & Hc & Hk). unfold tally_ok, last_is in *.
  destruct (String.eqb (nth 0 groups "") "COACH");
    cbn [last_speaker_type t_coach_turns t_client_turns t_coach_words
         t_client_words];
    destruct (last_speaker_type t) as [l|].
  - destruct Hlast as [(-> & H1 & H2)|(-> & H1 & H2)].
    + change (String.eqb "COACH" "COACH") with true. cbv iota.
      split; [left; split; [reflexivity|lia]|split; intros; lia].
    + change (String.eqb "CLIENT" "COACH") with false. cbv iota.
      split; [left; split; [reflexivity|lia]|split; intros; lia].
  - split; [left; split; [reflexivity|lia]|split; intros; lia].
  - destruct Hlast as [(-> & H1 & H2)|(-> & H1 & H2)].
    + change (String.eqb "COACH" "CLIENT") with false. cbv iota.
      split; [right; split; [reflexivity|lia]|split; intros; lia].
    + change (String.eqb "CLIENT" "CLIENT") with true. cbv iota.
      split; [right; split; [reflexivity|lia]|split; intros; lia].
  - split; [right; split; [reflexivity|lia]|split; intros; lia].
Qed.

Lemma count_lines_ok (lines : list string) (t : tally) :
  tally_ok t -> tally_ok (fold_left count_line lines t).
Proof.
  revert t. induction lines as [|l lines IH]; intros t H; simpl; [exact H|].
  apply IH, count_line_ok, H.
Qed.

Lemma count_line_unlabelled (t : tally) (line : string) :
  is_labelled line = false -> count_line t line = t.
Proof.
  unfold is_labelled, count_line. intros H.
  destruct (negb _); [reflexivity|].
  destruct (label_match (Py.strip line)); [discriminate|reflexivity].
Qed.

Lemma count_lines_filter (lines : list string) (t : tally) :
  fold_left count_line (List.filter is_labelled lines) t
  = fold_left count_line lines t.
Proof.
  revert t. induction lines as [|l lines IH]; intros t; simpl; [reflexivity|].
  destruct (is_labelled l) eqn:E; simpl; [apply IH|].
  rewrite (count_line_unlabelled _ _ E). apply IH.
Qed.

End Tally.

(** ** Percentages *)

Lemma of_nat_pos (n : nat) : (0 < n)%nat -> (0 < Q_of_nat n)%Q.
Proof.
  intros H. unfold Q_of_nat. change 0%Q with (inject_Z 0).
  rewrite <- Zlt_Qlt. lia.
Qed.

Lemma of_nat_le (n m : nat) :
  (n <= m)%nat -> (Q_of_nat n <= Q_of_nat m)%Q.
Proof. intros H. unfold Q_of_nat. rewrite <- Zle_Qle. lia. Qed.

Lemma of_nat_add (n m : nat) :
  (Q_of_nat (n + m) == Q_of_nat n + Q_of_nat m)%Q.
Proof.
  unfold Q_of_nat. rewrite Nat2Z.inj_add, inject_Z_plus. reflexivity.
Qed.

(** A share of a positive total, as a rounded percentage, lies between 0
    and 100. *)
Lemma share_bounds (n total : nat) :
  (n <= total)%nat -> (0 < total)%nat ->
  (0 <= py_round1 (Q_of_nat n / Q_of_nat total * 100) <= 100)%Q.
Proof.
  intros Hle Hpos.
  pose proof (of_nat_pos _ Hpos) as Ht. pose proof (of_nat_le _ _ Hle) as Hn.
  assert (H0 : (0 <= Q_of_nat n)%Q) by (apply (of_nat_le 0); lia).
  assert (H3 : (0 <= Q_of_nat n / Q_of_nat total <= 1)%Q).
  { split.
    - apply Qle_shift_div_l; [exact Ht|]. lra.
    - apply Qle_shift_div_r; [exact Ht|]. lra. }
  assert (Hx0 : (inject_Z 0
                 <= Q_of_nat n / Q_of_nat total * 100 * 10)%Q)
    by (change (inject_Z 0) with 0%Q; lra).
  assert (Hx1 : (Q_of_nat n / Q_of_nat total * 100 * 10
                 <= inject_Z 1000)%Q)
    by (change (inject_Z 1000) with 1000%Q; lra).
  destruct (py_round1_between _ _ _ Hx0 Hx1) as [Hr0 Hr1]. split.
  - eapply Qle_trans; [|exact Hr0]. discriminate.
  - eapply Qle_trans; [exact Hr1|]. discriminate.
Qed.

(** The two shares of a positive total add up to 100 before rounding, so
    the rounded shares add up to 100 within a tenth. *)
Lemma shares_near_100 (a b : nat) :
  (0 < a + b)%nat ->
  ((999 # 10)
   <= py_round1 (Q_of_nat a / Q_of_nat (a + b) * 100)
      + py_round1 (Q_of_nat b / Q_of_nat (a + b) * 100)
   <= (1001 # 10))%Q.
Proof.
  intros Hpos. pose proof (of_nat_pos _ Hpos) as Ht.
  set (x := (Q_of_nat a / Q_of_nat (a + b) * 100)%Q).
  set (y := (Q_of_nat b / Q_of_nat (a + b) * 100)%Q).
  assert (Hsum : (x + y == 100)%Q).
  { unfold x, y. rewrite (of_nat_add a b) in *. field. lra. }
  pose proof (py_round1_near x). pose proof (py_round1_near y). lra.
Qed.

(** ** The local analytics *)

Lemma analytics_duration (vtt_content : option string) :
  exists d,
    match vtt_content with
    | Some (String _ _) => Analytics.get_vtt_duration vtt_content
    | _ => Ok 0%Q
    end = Ok d.
Proof.
  destruct vtt_content as [[|c content]|]; try (exists 0%Q; reflexivity).
  destruct (get_vtt_duration_ok (Some (String c content))) as (d & Hd & _).
  exists d. exact Hd.
Qed.

Lemma count_lines_tally (transcript : string) :
  tally_ok (Analytics.count_lines transcript).
Proof.
  apply count_lines_ok. unfold tally_ok. simpl. repeat split; lia.
Qed.

(** X10: [calculate_call_analytics] never raises, and its turn counts are
    those of an alternation: the coach's and the client's turns differ by at
    most one, and a speaker with counted words has at least one turn. *)
Theorem turns_alternate (transcript : string) (vtt_content : option string) :
  exists a,
    Analytics.calculate_call_analytics transcript vtt_content = Ok a
    /\ (Analytics.coach_turns a <= Analytics.client_turns a + 1)%nat
    /\ (Analytics.client_turns a <= Analytics.coach_turns a + 1)%nat
    /\ (Analytics.total_turns a
        = Analytics.coach_turns a + Analytics.client_turns a)%nat
    /\ ((0 < Analytics.coach_words a)%nat -> (0 < Analytics.coach_turns a)%nat)
    /\ ((0 < Analytics.client_words a)%nat
        -> (0 < Analytics.client_turns a)%nat).
Proof.
  unfold Analytics.calculate_call_analytics.
  destruct (analytics_duration vtt_content) as (d & ->). cbn [bind].
  eexists. split; [reflexivity|].
  cbn [Analytics.coach_turns Analytics.client_turns Analytics.total_turns
       Analytics.coach_words Analytics.client_words].
  destruct (count_lines_tally transcript) as (Hlast & Hc & Hk).
  destruct (Analytics.last_speaker_type _) as [l|];
    [destruct Hlast as [(_ & H1 & H2)|(_ & H1 & H2)]|destruct Hlast as [H1 H2]];
    repeat split; auto; lia.
Qed.

(** X11: the two talk ratios lie between 0 and 100; with no counted word
    both are 0, and otherwise they add up to 100 within the rounding step
    of one tenth. *)
Theorem talk_ratios_near_100 (transcript : string) (vtt_content : option string) :
  exists a,
    Analytics.calculate_call_analytics transcript vtt_content = Ok a
    /\ (0 <= Analytics.coach_talk_ratio a <= 100)%Q
    /\ (0 <= Analytics.client_talk_ratio a <= 100)%Q
    /\ (Analytics.total_words a = 0%nat ->
        Analytics.coach_talk_ratio a = 0%Q
        /\ Analytics.client_talk_ratio a = 0%Q)
    /\ ((0 < Analytics.total_words a)%nat ->
        ((999 # 10)
         <= Analytics.coach_talk_ratio a + Analytics.client_talk_ratio a
         <= (1001 # 10))%Q).
Proof.
  unfold Analytics.calculate_call_analytics.
  destruct (analytics_duration vtt_content) as (d & ->). cbn [bind].
  eexists. split; [reflexivity|].
  cbn [Analytics.coach_talk_ratio Analytics.client_talk_ratio
       Analytics.total_words].
  set (c := Analytics.t_coach_words (Analytics.count_lines transcript)).
  set (k := Analytics.t_client_words (Analytics.count_lines transcript)).
  destruct (0 <? c + k)%nat eqn:Hpos.
  - apply Nat.ltb_lt in Hpos.
    split; [apply share_bounds; lia|]. split; [apply share_bounds; lia|].
    split; [lia|]. intros _. apply shares_near_100. exact Hpos.
  - apply Nat.ltb_ge in Hpos.
    split; [split; discriminate|]. split; [split; discriminate|].
    split; [auto|]. lia.
Qed.

(** X12: the analytics depend on the labelled lines only, taken in order:
    two transcripts with the same labelled lines give the same analytics, so
    a blank or an unlabelled line neither adds words nor ends a turn. *)
Theorem analytics_ignore_unlabelled_lines (transcript transcript' : string)
    (vtt_content : option string) :
  List.filter is_labelled (Py.split_on nl transcript)
  = List.filter is_labelled (Py.split_on nl transcript') ->
  Analytics.calculate_call_analytics transcript vtt_content
  = Analytics.calculate_call_analytics transcript' vtt_content.
Proof.
  intros H.
  assert (E : Analytics.count_lines transcript
              = Analytics.count_lines transcript').
  { unfold Analytics.count_lines.
    rewrite <- (count_lines_filter (Py.split_on nl transcript)),
            <- (count_lines_filter (Py.split_on nl transcript')), H.
    reflexivity. }
  unfold Analytics.calculate_call_analytics. rewrite E. reflexivity.
Qed.

Lemma analytics_ignore_unlabelled_lines_witness :
  Analytics.calculate_call_analytics demo_labelled (Some demo_captions)
  = Analytics.calculate_call_analytics demo_labelled_only (Some demo_captions).
Proof.
  apply (analytics_ignore_unlabelled_lines demo_labelled demo_labelled_only).
  vm_compute. reflexivity.
Defined.

(** ** The label pattern *)

Lemma in_run_word (l : string) (s : string) (caps : list string) (rest : string) :
  In (caps, rest) (run (word l) s) <-> caps = [] /\ s = l ++ rest.
Proof.
  revert s caps. induction l as [|c l IH]; intros s caps.
  - unfold word. cbn [list_ascii_of_string map seq]. rewrite in_run_rep. split.
    + intros (-> & pre & -> & _ & _ & Hw). simpl in Hw.
      destruct pre; [auto|simpl in Hw; lia].
    + intros (-> & ->). split; [reflexivity|]. exists "".
      repeat split; simpl; lia.
  - destruct l as [|d l].
    + unfold word. cbn [list_ascii_of_string map seq]. unfold Lit.
      rewrite in_run_chr. split.
      * intros (-> & x & -> & Hx). apply lit_true in Hx as ->. auto.
      * intros (-> & ->). split; [reflexivity|]. exists c.
        split; [reflexivity|apply Ascii.eqb_refl].
    + change (word (String c (String d l)))
        with (Cat (Lit c) (word (String d l))).
      rewrite in_run_cat. split.
      * intros (c1 & mid & c2 & H1 & H2 & ->).
        apply in_run_chr in H1 as (-> & x & -> & Hx). apply lit_true in Hx as ->.
        apply IH in H2 as (-> & ->). auto.
      * intros (-> & ->). exists [], (String d l ++ rest), []. split.
        -- apply in_run_chr. split; [reflexivity|]. exists c.
           split; [reflexivity|apply Ascii.eqb_refl].
        -- split; [apply IH; auto|reflexivity].
Qed.

Lemma label_pattern_sound (label s : string) (caps : list string) (rest : string) :
  In (caps, rest) (run (label_pattern label) s) ->
  exists ws body,
    caps = [label; body]
    /\ s = label ++ String ":" (ws ++ body ++ rest)
    /\ Py.all_chars Py.isspace ws = true
    /\ Py.all_chars Py.isspace rest = true.
Proof.
  unfold label_pattern, Re.seq. intros H.
  apply in_run_cat in H as (c1 & s1 & c1' & H1 & H & ->).
  apply in_run_cat in H as (c2 & s2 & c2' & H2 & H & ->).
  apply in_run_cat in H as (c3 & s3 & c3' & H3 & H & ->).
  apply in_run_cat in H as (c4 & s4 & c4' & H4 & H5 & ->).
  apply in_run_grp in H1 as (d1 & H1 & ->).
  apply in_run_word in H1 as (-> & ->).
  apply in_run_chr in H2 as (-> & x & -> & Hx). apply lit_true in Hx as ->.
  apply in_run_rep in H3 as (-> & ws & -> & Hws & _).
  apply in_run_grp in H4 as (d4 & H4 & ->).
  apply in_run_rep in H4 as (-> & body & -> & Hb & _).
  apply in_run_eos in H5 as (-> & -> & Hr).
  rewrite !group_text.
  exists ws, body. repeat split; try assumption.
  destruct Hr as [->| ->]; reflexivity.
Qed.

Lemma label_pattern_complete (label tail : string) :
  Py.all_chars not_newline tail = true ->
  rmatch (label_pattern label) (label ++ String ":" tail) <> None.
Proof.
  intros Ht Hnone.
  apply (proj1 (rmatch_none _ _) Hnone [label; tail] "");
    unfold label_pattern, Re.seq;
    apply in_run_cat; exists [label], (String ":" tail), [tail]; (split;
    [apply in_run_grp; exists []; split;
     [apply in_run_word; auto|rewrite group_text; reflexivity]|]);
    (split; [|reflexivity]);
    apply in_run_cat; exists [], tail, [tail]; (split;
    [apply in_run_chr; split; [reflexivity|]; exists ":"%char; auto|]);
    (split; [|reflexivity]);
    apply in_run_cat; exists [], tail, [tail]; (split;
    [apply in_run_rep; split; [reflexivity|]; exists "";
     repeat split; simpl; lia|]);
    (split; [|reflexivity]);
    apply in_run_cat; exists [tail], "", []; (split;
    [apply in_run_grp; exists []; split;
     [apply in_run_rep; split; [reflexivity|]; exists tail;
      rewrite append_nil_r; repeat split; try assumption; simpl; lia
     |rewrite Nat.sub_0_r; simpl;
      pose proof (take_app_length tail "") as E;
      rewrite append_nil_r in E; rewrite E; reflexivity]|]);
    (split; [|reflexivity]);
    apply in_run_eos; auto.
Qed.

Lemma append_cancel_l (a x y : string) : a ++ x = a ++ y -> x = y.
Proof. induction a as [|c a IH]; simpl; [auto|]. intros H. injection H. auto. Qed.

(** What the groups hold when a line that starts with the label and a
    colon is matched. *)
Lemma label_groups (label tail : string) :
  Py.all_chars not_newline tail = true ->
  exists body,
    rmatch (label_pattern label) (label ++ String ":" tail)
    = Some [label; body]
    /\ Py.strip body = Py.strip tail.
Proof.
  intros Ht. pose proof (label_pattern_complete label tail Ht) as Hsome.
  destruct (rmatch _ _) as [caps|] eqn:Hm; [|congruence].
  apply rmatch_some in Hm as (rest & Hin).
  apply label_pattern_sound in Hin as (ws & body & -> & E & Hws & Hr).
  apply append_cancel_l in E. injection E as ->.
  exists body. split; [reflexivity|].
  symmetry. apply strip_padded; assumption.
Qed.

Lemma label_pattern_other (label s : string) :
  (forall tail, s <> label ++ String ":" tail) ->
  rmatch (label_pattern label) s = None.
Proof.
  intros H. apply rmatch_none. intros caps rest Hin.
  apply label_pattern_sound in Hin as (ws & body & _ & E & _).
  exact (H _ E).
Qed.

(** X13: which lines the analytics count.  A line whose stripped text
    starts with [COACH:] adds the words after the colon to the coach and
    opens a coach turn unless the coach spoke last; likewise for [CLIENT:];
    any other line, such as one with a lower-case label or a space before
    the colon, changes nothing. *)
Theorem labelled_line_policy :
  (forall t line tail,
      Py.strip line = "COACH" ++ String ":" tail ->
      Py.all_chars not_newline tail = true ->
      Analytics.count_line t line
      = {| Analytics.t_coach_words :=
             Analytics.t_coach_words t + word_count (Py.strip tail);
           Analytics.t_client_words := Analytics.t_client_words t;
           Analytics.t_coach_turns :=
             if Analytics.last_is "COACH" t then Analytics.t_coach_turns t
             else Analytics.t_coach_turns t + 1;
           Analytics.t_client_turns := Analytics.t_client_turns t;
           Analytics.last_speaker_type := Some "COACH" |})
  /\ (forall t line tail,
         Py.strip line = "CLIENT" ++ String ":" tail ->
         Py.all_chars not_newline tail = true ->
         Analytics.count_line t line
         = {| Analytics.t_coach_words := Analytics.t_coach_words t;
              Analytics.t_client_words :=
                Analytics.t_client_words t + word_count (Py.strip tail);
              Analytics.t_coach_turns := Analytics.t_coach_turns t;
              Analytics.t_client_turns :=
                if Analytics.last_is "CLIENT" t then Analytics.t_client_turns t
                else Analytics.t_client_turns t + 1;
              Analytics.last_speaker_type := Some "CLIENT" |})
  /\ (forall t line,
         (forall tail, Py.strip line <> "COACH" ++ String ":" tail) ->
         (forall tail, Py.strip line <> "CLIENT" ++ String ":" tail) ->
         Analytics.count_line t line = t).
Proof.
  split; [|split].
  - intros t line tail E Ht. unfold Analytics.count_line. rewrite E.
    destruct (label_groups "COACH" tail Ht) as (body & Hm & Hb).
    unfold label_match. rewrite Hm. cbn [nth]. rewrite Hb. reflexivity.
  - intros t line tail E Ht. unfold Analytics.count_line. rewrite E.
    destruct (label_groups "CLIENT" tail Ht) as (body & Hm & Hb).
    unfold label_match.
    rewrite (label_pattern_other "COACH") by (intros tl; discriminate).
    rewrite Hm. cbn [nth]. rewrite Hb. reflexivity.
  - intros t line Hc Hk. unfold Analytics.count_line.
    destruct (negb _); [reflexivity|]. unfold label_match.
    rewrite (label_pattern_other "COACH" _ Hc),
            (label_pattern_other "CLIENT" _ Hk).
    reflexivity.
Qed.

Lemma labelled_line_policy_witness :
  Analytics.count_line Analytics.no_tally "  COACH: hello there "
  = {| Analytics.t_coach_words := 0 + word_count (Py.strip " hello there");
       Analytics.t_client_words := 0;
       Analytics.t_coach_turns := 0 + 1;
       Analytics.t_client_turns := 0;
       Analytics.last_speaker_type := Some "COACH" |}
  /\ Analytics.count_line Analytics.no_tally "CLIENT:yes"
     = {| Analytics.t_coach_words := 0;
          Analytics.t_client_words := 0 + word_count (Py.strip "yes");
          Analytics.t_coach_turns := 0;
          Analytics.t_client_turns := 0 + 1;
          Analytics.last_speaker_type := Some "CLIENT" |}
  /\ Analytics.count_line Analytics.no_tally "coach: hello" = Analytics.no_tally.
Proof.
  split; [|split].
  - apply (proj1 labelled_line_policy Analytics.no_tally
             "  COACH: hello there " " hello there"); reflexivity.
  - apply (proj1 (proj2 labelled_line_policy) Analytics.no_tally
             "CLIENT:yes" "yes"); reflexivity.
  - apply (proj2 (proj2 labelled_line_policy) Analytics.no_tally
             "coach: hello"); intros tail; discriminate.
Defined.

(** ** The extracted metrics *)

Lemma parse_vtt_segments_ok (vtt_content : option string) :
  exists segments, parse_vtt_segments vtt_content = Ok segments.
Proof.
  destruct vtt_content as [[|c content]|]; try (exists []; reflexivity).
  rewrite parse_vtt_segments_scan by discriminate.
  destruct (scan_segments (caption_lines (String c content))) as (segs & Hs & _).
  exists segs. exact Hs.
Qed.

Lemma parse_vtt_with_speakers_ok (vtt_content coach_name : option string) :
  exists t, parse_vtt_with_speakers vtt_content coach_name = Ok t.
Proof.
  unfold parse_vtt_with_speakers.
  destruct vtt_content as [[|c content]|]; try (exists no_timing; reflexivity).
  destruct coach_name as [[|n name]|]; try (exists no_timing; reflexivity).
  destruct (parse_vtt_segments_ok (Some (String c content))) as (segs & ->).
  eexists. reflexivity.
Qed.

Lemma extract_metrics_ok (transcript : string)
    (vtt_content coach_name : option string) :
  exists m, Metrics.extract_metrics transcript vtt_content coach_name = Ok m.
Proof.
  unfold Metrics.extract_metrics.
  assert (Hseg : exists segs,
             (if Metrics.given vtt_content
              then parse_vtt_segments vtt_content else Ok []) = Ok segs).
  { destruct (Metrics.given vtt_content); [apply parse_vtt_segments_ok|eauto]. }
  destruct Hseg as (segs & ->). cbn [bind].
  destruct (Metrics.given vtt_content && Metrics.given coach_name).
  - destruct (parse_vtt_with_speakers_ok vtt_content coach_name) as (t & ->).
    cbn [bind]. eexists. reflexivity.
  - eexists. reflexivity.
Qed.


Lemma py_round1_zero (x : Q) : (x == 0)%Q -> py_round1 x = 0%Q.
Proof. intros H. rewrite (py_round1_compat _ _ H). reflexivity. Qed.

(** X14: [extract_metrics] never raises; and without captions the total
    duration, both speaking times and the coach's words per minute are 0,
    whatever the transcript and the coach name are: only the percentages
    are estimated from the transcript. *)
Theorem metrics_without_captions (transcript : string)
    (vtt_content coach_name : option string) :
  exists m,
    Metrics.extract_metrics transcript vtt_content coach_name = Ok m
    /\ (Metrics.given vtt_content = false ->
        Metrics.total_duration_min m = 0%Q
        /\ Metrics.coach_speaking_time_min m = 0%Q
        /\ Metrics.client_speaking_time_min m = 0%Q
        /\ Metrics.coach_wpm m = 0%Q).
Proof.
  destruct (extract_metrics_ok transcript vtt_content coach_name) as (m & Hm).
  exists m. split; [exact Hm|]. intros Hv.
  unfold Metrics.extract_metrics in Hm. rewrite Hv in Hm.
  cbn [bind andb Metrics.last_end last] in Hm.
  injection Hm as <-.
  cbn [Metrics.total_duration_min Metrics.coach_speaking_time_min
       Metrics.client_speaking_time_min Metrics.coach_wpm].
  set (total := (_ + _)%nat).
  assert (Ht : forall n,
    (if (0 <? total)%nat
     then py_round1 (Q_of_nat n / Q_of_nat total * (0 / 60))
     else 0%Q) = 0%Q).
  { intros n. destruct (0 <? total)%nat; [|reflexivity].
    apply py_round1_zero. unfold Qdiv. rewrite Qmult_0_l, Qmult_0_r.
    reflexivity. }
  rewrite !Ht. repeat split.
Qed.

Lemma metrics_without_captions_witness :
  exists m,
    Metrics.extract_metrics demo_labelled None (Some "Jane") = Ok m
    /\ Metrics.total_duration_min m = 0%Q
    /\ Metrics.coach_speaking_time_min m = 0%Q
    /\ Metrics.client_speaking_time_min m = 0%Q
    /\ Metrics.coach_wpm m = 0%Q.
Proof.
  destruct (metrics_without_captions demo_labelled None (Some "Jane"))
    as (m & Hm & H).
  exists m. split; [exact Hm|]. apply H. reflexivity.
Defined.




(** ** Keys of the metrics objects *)

Lemma string_of_uint_digits (d : Decimal.uint) :
  Py.all_chars Py.is_decimal (NilEmpty.string_of_uint d) = true.
Proof. induction d; simpl; try rewrite IHd; reflexivity. Qed.

Lemma to_uint_not_nil (n : N) : N.to_uint n <> Decimal.Nil.
Proof.
  rewrite <- (DecimalN.Unsigned.of_to n) at 1.
  rewrite DecimalN.Unsigned.to_of. unfold Decimal.unorm.
  destruct (Decimal.nzhead (N.to_uint n)); discriminate.
Qed.

Lemma decimal_digits (z : Z) : Py.all_chars Py.is_decimal (decimal z) = true.
Proof.
  unfold decimal, NilZero.string_of_uint.
  destruct (N.to_uint (Z.to_N z)) eqn:E; try reflexivity;
    rewrite <- E; apply string_of_uint_digits.
Qed.

Lemma decimal_inj (a b : Z) : 0 <= a -> 0 <= b -> decimal a = decimal b -> a = b.
Proof.
  intros Ha Hb H. unfold decimal in H.
  assert (E : Some (N.to_uint (Z.to_N a)) = Some (N.to_uint (Z.to_N b))).
  { rewrite <- (NilZero.usu _ (to_uint_not_nil (Z.to_N a))).
    rewrite <- (NilZero.usu _ (to_uint_not_nil (Z.to_N b))).
    rewrite H. reflexivity. }
  injection E as E. apply DecimalN.Unsigned.to_uint_inj in E. lia.
Qed.

Lemma append_cancel_r (a b s : string) : a ++ s = b ++ s -> a = b.
Proof.
  revert b. induction a as [|c a IH]; intros [|c' b] H; simpl in H.
  - reflexivity.
  - exfalso. apply (f_equal String.length) in H. simpl in H.
    rewrite length_append in H. lia.
  - exfalso. apply (f_equal String.length) in H. simpl in H.
    rewrite length_append in H. lia.
  - injection H as -> H. f_equal. apply IH, H.
Qed.

Lemma pad_text (k : nat) (d : Decimal.uint) :
  string_of_list_ascii (repeat "0"%char k) ++ NilEmpty.string_of_uint d
  = NilEmpty.string_of_uint (Nat.iter k Decimal.D0 d).
Proof. induction k as [|k IH]; simpl; [reflexivity|]. rewrite IH. reflexivity. Qed.

Lemma string_of_uint_inj (d d' : Decimal.uint) :
  NilEmpty.string_of_uint d = NilEmpty.string_of_uint d' -> d = d'.
Proof.
  intros H. assert (E : Some d = Some d').
  { rewrite <- (NilEmpty.usu d), <- (NilEmpty.usu d'), H. reflexivity. }
  injection E. auto.
Qed.

Lemma unorm_iter_D0 (k : nat) (d : Decimal.uint) :
  Decimal.unorm (Nat.iter k Decimal.D0 d) = Decimal.unorm d.
Proof. unfold Decimal.unorm. rewrite DecimalFacts.nzhead_iter_D0. reflexivity. Qed.

Lemma unorm_to_uint (n : N) : Decimal.unorm (N.to_uint n) = N.to_uint n.
Proof.
  rewrite <- DecimalN.Unsigned.to_of, DecimalN.Unsigned.of_to. reflexivity.
Qed.

Lemma decimal_text (z : Z) :
  decimal z = NilEmpty.string_of_uint (N.to_uint (Z.to_N z)).
Proof.
  unfold decimal, NilZero.string_of_uint.
  pose proof (to_uint_not_nil (Z.to_N z)) as H.
  destruct (N.to_uint (Z.to_N z)); [congruence|reflexivity..].
Qed.

(** Padding with zeros does not confuse two numbers. *)
Lemma zero_pad_decimal_inj (n : nat) (a b : Z) :
  0 <= a -> 0 <= b ->
  zero_pad n (decimal a) = zero_pad n (decimal b) -> a = b.
Proof.
  intros Ha Hb. unfold zero_pad. rewrite !decimal_text, !pad_text.
  intros H. apply string_of_uint_inj in H.
  apply (f_equal Decimal.unorm) in H.
  rewrite !unorm_iter_D0, !unorm_to_uint in H.
  apply DecimalN.Unsigned.to_uint_inj in H. lia.
Qed.

Lemma zero_pad_digits (n : nat) (z : Z) :
  Py.all_chars Py.is_decimal (zero_pad n (decimal z)) = true.
Proof.
  unfold zero_pad.
  induction (n - String.length (decimal z))%nat as [|k IH]; simpl.
  - apply decimal_digits.
  - exact IH.
Qed.

Lemma slash_not_decimal : Py.is_decimal "/" = false.
Proof. reflexivity. Qed.

(** Within one deployment and for one meeting, the key of the metrics
    object determines the year and the month. *)
Lemma metrics_key_inj (K : Constants) (meeting : string) (p q : Z * Z) :
  valid_period p -> valid_period q ->
  Metrics.metrics_key K p meeting = Metrics.metrics_key K q meeting -> p = q.
Proof.
  intros [Hp0 Hp1] [Hq0 Hq1]. destruct p as [y m], q as [y' m'].
  cbn [fst snd] in *. unfold Metrics.metrics_key. cbn [fst snd].
  destruct (ATHENA_PARTITIONED K); intros H.
  - do 4 apply append_cancel_l in H.
    change ("/month=" ++ ?x) with (String "/" ("month=" ++ x)) in H.
    apply run_unique with (p := Py.is_decimal) in H as (Hy & _ & H);
      try apply decimal_digits; try apply slash_not_decimal.
    apply append_cancel_l in H.
    change ("/meeting_id=" ++ ?x) with (String "/" ("meeting_id=" ++ x)) in H.
    apply run_unique with (p := Py.is_decimal) in H as (Hm & _);
      try apply zero_pad_digits; try apply slash_not_decimal.
    f_equal; [apply decimal_inj|apply (zero_pad_decimal_inj 2)]; assumption || lia.
  - do 2 apply append_cancel_l in H.
    change ("/" ++ ?x) with (String "/" x) in H.
    apply run_unique with (p := Py.is_decimal) in H as (Hy & _ & H);
      try apply decimal_digits; try apply slash_not_decimal.
    apply run_unique with (p := Py.is_decimal) in H as (Hm & _);
      try apply zero_pad_digits; try apply slash_not_decimal.
    f_equal; [apply decimal_inj|apply (zero_pad_decimal_inj 2)]; assumption || lia.
Qed.

(** ** Saving and loading the metrics *)

Lemma month_index_inj (p q : Z * Z) :
  valid_period p -> valid_period q -> month_index p = month_index q -> p = q.
Proof.
  destruct p as [y m], q as [y' m']. unfold valid_period, month_index.
  cbn [fst snd]. intros [? ?] [? ?] Heq. f_equal; lia.
Qed.

(** The year wrap of the look-back: each period tried is a calendar month,
    as many months before the current one as the offset says. *)
Lemma try_period_spec (now : Z * Z) (month_offset : Z) :
  1 <= fst now -> 1 <= snd now <= 12 -> -2 <= month_offset <= 0 ->
  valid_period (Metrics.try_period now month_offset)
  /\ month_index (Metrics.try_period now month_offset)
     = month_index now + month_offset.
Proof.
  destruct now as [y m]. unfold Metrics.try_period, valid_period, month_index.
  cbn [fst snd]. intros Hy Hm Ho.
  destruct (m + month_offset <? 1) eqn:E;
    [apply Z.ltb_lt in E|apply Z.ltb_ge in E]; cbn [fst snd]; lia.
Qed.

Lemma lookup_saved (K : Constants) (meeting : string) (v : json)
    (objects : gmap string json) (saved p : Z * Z) :
  valid_period saved -> valid_period p ->
  (forall p', objects !! Metrics.metrics_key K p' meeting = None) ->
  <[Metrics.metrics_key K saved meeting := v]> objects
    !! Metrics.metrics_key K p meeting
  = if month_index p =? month_index saved then Some v else None.
Proof.
  intros Hs Hp Hnone.
  destruct (month_index p =? month_index saved) eqn:E.
  - apply Z.eqb_eq in E. rewrite (month_index_inj _ _ Hp Hs E).
    apply lookup_insert_eq.
  - apply Z.eqb_neq in E. rewrite lookup_insert_ne; [apply Hnone|].
    intros Hk. apply metrics_key_inj in Hk; [|assumption..].
    apply E. rewrite Hk. reflexivity.
Qed.

(** X16: metrics saved in one month are found by [load_metrics_from_s3] in
    that month and in the two months that follow, across a change of year,
    and in no other month, when the bucket holds no other metrics object of
    the meeting. *)
Theorem metrics_lookback (K : Constants) (saved now : Z * Z)
    (now_iso meeting : string) (metrics : json) (objects : gmap string json)
    (put_error : string -> option exn) :
  valid_period saved -> 1 <= fst now -> 1 <= snd now <= 12 ->
  (forall p, objects !! Metrics.metrics_key K p meeting = None) ->
  put_error (Metrics.metrics_key K saved meeting) = None ->
  let saving :=
    Metrics.save_metrics_to_s3 K saved now_iso put_error meeting metrics
      None None objects in
  let months := month_index now - month_index saved in
  fst saving = Ok (Metrics.metrics_key K saved meeting)
  /\ Metrics.load_metrics_from_s3 K now (snd saving) meeting
     = if (0 <=? months) && (months <=? 2) then metrics else JNull.
Proof.
  intros Hs Hy Hm Hnone Hput. cbv zeta.
  unfold Metrics.save_metrics_to_s3, Metrics.or_now. cbn [snd fst].
  rewrite <- (surjective_pairing saved). rewrite Hput. cbn [fst snd].
  split; [reflexivity|].
  unfold Metrics.load_metrics_from_s3, Metrics.load_from.
  destruct (try_period_spec now 0 Hy Hm ltac:(lia)) as [V0 I0].
  destruct (try_period_spec now (-1) Hy Hm ltac:(lia)) as [V1 I1].
  destruct (try_period_spec now (-2) Hy Hm ltac:(lia)) as [V2 I2].
  rewrite !lookup_saved by assumption. rewrite I0, I1, I2.
  destruct (month_index now + 0 =? month_index saved) eqn:E0;
    [apply Z.eqb_eq in E0|apply Z.eqb_neq in E0].
  { replace (month_index now - month_index saved) with 0 by lia. reflexivity. }
  destruct (month_index now + -1 =? month_index saved) eqn:E1;
    [apply Z.eqb_eq in E1|apply Z.eqb_neq in E1].
  { replace (month_index now - month_index saved) with 1 by lia. reflexivity. }
  destruct (month_index now + -2 =? month_index saved) eqn:E2;
    [apply Z.eqb_eq in E2|apply Z.eqb_neq in E2].
  { replace (month_index now - month_index saved) with 2 by lia. reflexivity. }
  destruct (0 <=? _) eqn:A; [|reflexivity].
  destruct (_ <=? 2) eqn:B; [|reflexivity].
  apply Z.leb_le in A, B. lia.
Qed.

Lemma metrics_lookback_witness :
  Metrics.load_metrics_from_s3 demo_constants (2026, 1)
    (snd (Metrics.save_metrics_to_s3 demo_constants (2025, 11)
            "2025-11-30T10:00:00+00:00" (fun _ => None) "m-42"
            (JDict [("coach_wpm", JFloat 120)]) None None ∅))
    "m-42"
  = JDict [("coach_wpm", JFloat 120)].
Proof.
  apply (metrics_lookback demo_constants (2025, 11) (2026, 1)
           "2025-11-30T10:00:00+00:00" "m-42"
           (JDict [("coach_wpm", JFloat 120)]) ∅ (fun _ => None)).
  - split; simpl; lia.
  - simpl; lia.
  - simpl; lia.
  - intros p. apply lookup_empty.
  - reflexivity.
Defined.

(** ** The metrics handler *)

Lemma dump_truthy (m : Metrics.call_metrics) : truthy (Metrics.dump_metrics m) = true.
Proof. reflexivity. Qed.

Lemma try_period_now (now : Z * Z) :
  1 <= snd now -> Metrics.try_period now 0 = now.
Proof.
  destruct now as [y m]. unfold Metrics.try_period. cbn [fst snd]. intros H.
  rewrite Z.add_0_r. destruct (m <? 1) eqn:E; [|reflexivity].
  apply Z.ltb_lt in E. lia.
Qed.

(** The ways in which the metrics handler can end. *)
Lemma metrics_handler_cases K E event objects objects' out :
  Metrics.lambda_handler K E event objects = (objects', out) ->
  (objects' = objects
   /\ ((exists msg, out = Metrics.Invalid msg
        /\ (Metrics.given (Metrics.transcriptKey event) = false
            \/ Metrics.given (Metrics.meetingId event) = false))
       \/ (exists tk e, out = Metrics.Failed e
           /\ Metrics.transcriptKey event = Some tk
           /\ Metrics.get_transcript_from_s3 E tk = Raise e)
       \/ (exists tk meeting transcript e, out = Metrics.Failed e
           /\ Metrics.transcriptKey event = Some tk
           /\ Metrics.meetingId event = Some meeting
           /\ Metrics.get_transcript_from_s3 E tk = Ok transcript
           /\ Metrics.put_object_error E
                (Metrics.metrics_key K (Metrics.now_save E) meeting) = Some e)
       \/ (exists tk meeting existing,
             Metrics.transcriptKey event = Some tk
             /\ Metrics.meetingId event = Some meeting
             /\ Metrics.forceReprocess event = false
             /\ existing
                = Metrics.load_metrics_from_s3 K (Metrics.now_load E) objects
                    meeting
             /\ truthy existing = true
             /\ out = Metrics.Returned
                        [("redactedTranscriptKey", JStr tk);
                         ("meetingId", JStr meeting);
                         ("source", Metrics.source event);
                         ("callMetrics", existing);
                         ("metricsKey", JStr "cached")])))
  \/ exists tk meeting transcript m,
       Metrics.transcriptKey event = Some tk
       /\ Metrics.meetingId event = Some meeting /\ meeting <> ""
       /\ Metrics.get_transcript_from_s3 E tk = Ok transcript
       /\ Metrics.extract_metrics transcript (Metrics.get_vtt_from_s3 E tk)
            (Metrics.coachName event) = Ok m
       /\ Metrics.put_object_error E
            (Metrics.metrics_key K (Metrics.now_save E) meeting) = None
       /\ objects'
          = <[Metrics.metrics_key K (Metrics.now_save E) meeting
              := JDict [("meeting_id", JStr meeting);
                        ("extracted_at", JStr (Metrics.now_iso E));
                        ("metrics", Metrics.dump_metrics m)]]> objects
       /\ out = Metrics.Returned
                  [("callMetrics", Metrics.dump_metrics m);
                   ("metricsKey",
                    JStr (Metrics.metrics_key K (Metrics.now_save E) meeting))].
Proof.
  unfold Metrics.lambda_handler.
  destruct (Metrics.transcriptKey event) as [[|c tk]|] eqn:Htk;
    try (intros H; injection H as <- <-; left; split; [reflexivity|];
         left; eexists; split; [reflexivity|]; left; reflexivity).
  destruct (Metrics.meetingId event) as [[|c' meeting]|] eqn:Hm;
    try (intros H; injection H as <- <-; left; split; [reflexivity|];
         left; eexists; split; [reflexivity|]; right; reflexivity).
  destruct (truthy _) eqn:Hex.
  - intros H. injection H as <- <-. left. split; [reflexivity|].
    right. right. right.
    destruct (Metrics.forceReprocess event); [discriminate|].
    eexists _, _, _. repeat split. exact Hex.
  - destruct (Metrics.get_transcript_from_s3 E (String c tk)) as [tr|e] eqn:Hg.
    2:{ intros H. injection H as <- <-. left. split; [reflexivity|].
        right. left. eauto. }
    destruct (extract_metrics_ok tr (Metrics.get_vtt_from_s3 E (String c tk))
                (Metrics.coachName event)) as (m & Hx).
    rewrite Hx. unfold Metrics.save_metrics_to_s3, Metrics.or_now.
    rewrite <- (surjective_pairing (Metrics.now_save E)).
    destruct (Metrics.put_object_error E _) as [e|] eqn:Hput;
      intros H; injection H as <- <-.
    + left. split; [reflexivity|]. right. right. left.
      exists (String c tk), (String c' meeting), tr, e. auto.
    + right. exists (String c tk), (String c' meeting), tr, m.
      repeat split; try assumption. discriminate.
Qed.

(** X17: after a run of the metrics handler that extracted and saved, a
    run for the same meeting in the same month without [forceReprocess]
    returns the saved metrics with the key ["cached"] and writes nothing,
    whatever the transcript and the captions then are. *)
Theorem metrics_rerun_is_cached K E E' event event' objects objects'
    (m : json) (key tk' meeting : string) :
  Metrics.lambda_handler K E event objects
  = (objects', Metrics.Returned [("callMetrics", m); ("metricsKey", JStr key)]) ->
  Metrics.meetingId event = Some meeting ->
  Metrics.meetingId event' = Some meeting ->
  Metrics.transcriptKey event' = Some tk' -> tk' <> "" ->
  Metrics.forceReprocess event' = false ->
  Metrics.now_load E' = Metrics.now_save E -> 1 <= snd (Metrics.now_save E) ->
  Metrics.lambda_handler K E' event' objects'
  = (objects',
     Metrics.Returned [("redactedTranscriptKey", JStr tk');
                       ("meetingId", JStr meeting);
                       ("source", Metrics.source event');
                       ("callMetrics", m);
                       ("metricsKey", JStr "cached")]).
Proof.
  intros H Hm Hm' Htk Hne Hf Hnow Hmonth.
  apply metrics_handler_cases in H as [[_ H]|H].
  { destruct H as [(msg & H & _)|[(tk & e & H & _)
                                 |[(tk & mt & tr & e & H & _)
                                  |(tk & mt & ex & _ & _ & _ & _ & _ & H)]]];
      discriminate H. }
  destruct H as (tk & meeting0 & tr & cm & _ & Hm0 & Hmne & _ & _ & _ & ->
                 & Hout).
  rewrite Hm in Hm0. injection Hm0 as <-. injection Hout as -> _.
  assert (Hload : Metrics.load_metrics_from_s3 K (Metrics.now_load E')
                    (<[Metrics.metrics_key K (Metrics.now_save E) meeting
                       := JDict [("meeting_id", JStr meeting);
                                 ("extracted_at", JStr (Metrics.now_iso E));
                                 ("metrics", Metrics.dump_metrics cm)]]> objects)
                    meeting = Metrics.dump_metrics cm).
  { unfold Metrics.load_metrics_from_s3, Metrics.load_from.
    rewrite Hnow, (try_period_now _ Hmonth), lookup_insert_eq. reflexivity. }
  unfold Metrics.lambda_handler. rewrite Htk, Hm', Hf, Hload.
  destruct tk' as [|c tk']; [congruence|].
  destruct meeting as [|c' meeting]; [congruence|].
  rewrite dump_truthy. reflexivity.
Qed.

Lemma metrics_rerun_is_cached_witness :
  let first :=
    Metrics.lambda_handler demo_constants (metrics_env (2026, 1) (Ok demo_labelled))
      (metrics_event false) ∅ in
  exists m,
    Metrics.lambda_handler demo_constants
      (metrics_env (2026, 1) (Raise NoSuchKey)) (metrics_event false) (fst first)
    = (fst first,
       Metrics.Returned [("redactedTranscriptKey", JStr "summaries/t/transcript.txt");
                         ("meetingId", JStr "m-42");
                         ("source", JStr "zoom");
                         ("callMetrics", m);
                         ("metricsKey", JStr "cached")]).
Proof.
  cbv zeta. eexists.
  eapply (metrics_rerun_is_cached demo_constants
            (metrics_env (2026, 1) (Ok demo_labelled))
            (metrics_env (2026, 1) (Raise NoSuchKey))
            (metrics_event false) (metrics_event false) ∅).
  - vm_compute. reflexivity.
  - reflexivity.
  - reflexivity.
  - reflexivity.
  - discriminate.
  - reflexivity.
  - reflexivity.
  - simpl. lia.
Defined.

(** X18: the metrics handler fails only for a missing [transcriptKey] or
    [meetingId], for a transcript that cannot be fetched, and for a
    [put_object] that raises when the metrics are saved: neither the
    captions nor the transcript text can make it raise.  When it fails, and
    when it answers from the cache, the bucket is as it was (a
    [put_object] that raises is taken to have stored nothing); otherwise
    the one object written is the one at the metrics key of the meeting,
    and it holds the returned metrics. *)
Theorem metrics_handler_effects K E event objects objects' out :
  Metrics.lambda_handler K E event objects = (objects', out) ->
  match out with
  | Metrics.Invalid _ =>
      objects' = objects
      /\ (Metrics.given (Metrics.transcriptKey event) = false
          \/ Metrics.given (Metrics.meetingId event) = false)
  | Metrics.Failed e =>
      objects' = objects
      /\ exists tk, Metrics.transcriptKey event = Some tk
           /\ (Metrics.get_transcript_from_s3 E tk = Raise e
               \/ exists meeting transcript,
                    Metrics.meetingId event = Some meeting
                    /\ Metrics.get_transcript_from_s3 E tk = Ok transcript
                    /\ Metrics.put_object_error E
                         (Metrics.metrics_key K (Metrics.now_save E) meeting)
                       = Some e)
  | Metrics.Returned response =>
      (objects' = objects
       /\ dget "metricsKey" response = Some (JStr "cached"))
      \/ exists meeting data,
           Metrics.meetingId event = Some meeting
           /\ Metrics.put_object_error E
                (Metrics.metrics_key K (Metrics.now_save E) meeting) = None
           /\ dget "metricsKey" response
              = Some (JStr (Metrics.metrics_key K (Metrics.now_save E) meeting))
           /\ objects' !! Metrics.metrics_key K (Metrics.now_save E) meeting
              = Some (JDict data)
           /\ dget "metrics" data = dget "callMetrics" response
           /\ forall k, k <> Metrics.metrics_key K (Metrics.now_save E) meeting ->
                        objects' !! k = objects !! k
  end.
Proof.
  intros H. apply metrics_handler_cases in H as [[-> H]|H].
  - destruct H as [(msg & -> & H)|[(tk & e & -> & H)
                                  |[(tk & mt & tr & e & -> & Htk & Hm & Hg & Hp)
                                   |(tk & mt & ex & _ & _ & _ & _ & _ & ->)]]].
    + auto.
    + split; [reflexivity|]. destruct H as [Htk Hg]. eauto.
    + split; [reflexivity|]. exists tk. split; [exact Htk|]. right. eauto.
    + left. auto.
  - destruct H as (tk & meeting & tr & m & _ & Hm & _ & _ & _ & Hp & -> & ->).
    right. eexists meeting, _. split; [exact Hm|]. split; [exact Hp|].
    split; [reflexivity|].
    split; [apply lookup_insert_eq|]. split; [reflexivity|].
    intros k Hk. apply lookup_insert_ne. congruence.
Qed.

Lemma metrics_handler_effects_witness :
  fst (Metrics.lambda_handler demo_constants
         (failing_put_env (2026, 1)) (metrics_event true) ∅) = ∅
  /\ exists tk,
       Metrics.transcriptKey (metrics_event true) = Some tk
       /\ (Metrics.get_transcript_from_s3 (failing_put_env (2026, 1)) tk
           = Raise ServiceError
           \/ exists meeting transcript,
                Metrics.meetingId (metrics_event true) = Some meeting
                /\ Metrics.get_transcript_from_s3 (failing_put_env (2026, 1)) tk
                   = Ok transcript
                /\ Metrics.put_object_error (failing_put_env (2026, 1))
                     (Metrics.metrics_key demo_constants
                        (Metrics.now_save (failing_put_env (2026, 1))) meeting)
                   = Some ServiceError).
Proof.
  apply (metrics_handler_effects demo_constants
           (failing_put_env (2026, 1)) (metrics_event true) ∅
           (fst (Metrics.lambda_handler demo_constants
                   (failing_put_env (2026, 1)) (metrics_event true) ∅))
           (Metrics.Failed ServiceError)).
  vm_compute. reflexivity.
Defined.

(** ** Queueing a case check *)

Lemma set_queued_spec (now_iso : string) (item : dict) :
  dget "caseCheckStatus" (Initiate.set_queued now_iso item) = Some (JStr "QUEUED")
  /\ dget "caseCheckUpdatedAt" (Initiate.set_queued now_iso item)
     = Some (JStr now_iso)
  /\ dget "createdAt" (Initiate.set_queued now_iso item)
     = Some (dget_or "createdAt" (JStr now_iso) item)
  /\ forall k, k <> "caseCheckStatus" -> k <> "caseCheckUpdatedAt" ->
               k <> "createdAt" ->
               dget k (Initiate.set_queued now_iso item) = dget k item.
Proof.
  unfold Initiate.set_queued. repeat split.
  - rewrite !dget_dset_other by discriminate. apply dget_dset_same.
  - rewrite dget_dset_other by discriminate. apply dget_dset_same.
  - apply dget_dset_same.
  - intros k H1 H2 H3. rewrite !dget_dset_other by assumption. reflexivity.
Qed.

Lemma fast_path_none (K : Constants) (sam_local : bool)
    (jobs : option (gmap string dict)) (objects : gmap string json)
    (meeting : string) :
  completed_fast_path K sam_local jobs objects meeting false = None ->
  get_existing_case_check K sam_local jobs objects meeting = None.
Proof.
  unfold completed_fast_path.
  destruct (get_existing_case_check K sam_local jobs objects meeting) as [d|];
    [|reflexivity].
  discriminate.
Qed.

Lemma state_eta (st : Initiate.State) :
  {| Initiate.jobs := Initiate.jobs st; Initiate.started := Initiate.started st |}
  = st.
Proof. destruct st. reflexivity. Qed.

(** The ways in which [_mark_queued] can end. *)
Lemma mark_queued_cases K P meeting force jobs :
  let item := Initiate.item_of jobs meeting in
  match Initiate.mark_queued K P meeting force jobs with
  | Initiate.Marked jobs' =>
      (Initiate.aws_sam_local P = true /\ jobs' = jobs)
      \/ (Initiate.aws_sam_local P = false
          /\ Initiate.update_item_fault P = None
          /\ force || Initiate.may_queue item = true
          /\ jobs' = <[meeting := Initiate.set_queued (Initiate.clock_iso P) item]>
                       jobs)
  | Initiate.AlreadyCompleted _ | Initiate.CompletedWithoutData =>
      Initiate.aws_sam_local P = false
      /\ (Initiate.update_item_fault P = Some "ConditionalCheckFailedException"
          \/ (Initiate.update_item_fault P = None
              /\ force || Initiate.may_queue item = false))
  | Initiate.UpdateFailed =>
      Initiate.aws_sam_local P = false
      /\ exists code, Initiate.update_item_fault P = Some code
                      /\ code <> "ConditionalCheckFailedException"
  end.
Proof.
  cbv zeta. unfold Initiate.mark_queued, Initiate.update_item_error.
  destruct (Initiate.aws_sam_local P); [left; auto|].
  destruct (Initiate.update_item_fault P) as [code|].
  - destruct (String.eqb code "ConditionalCheckFailedException") eqn:E.
    + apply String.eqb_eq in E. subst code.
      destruct (get_existing_case_check _ _ _ _ _); auto.
    + apply String.eqb_neq in E. eauto.
  - destruct (force || _) eqn:Hc; [right; auto|].
    cbn [String.eqb Ascii.eqb Bool.eqb andb].
    destruct (get_existing_case_check _ _ _ _ _); auto.
Qed.

(** X19: without [forceReprocess], a meeting whose [caseCheckStatus] is
    [COMPLETED] is never queued again and no workflow is started for it:
    whatever the services do, the job table and the executions are as they
    were.  The deployed handler answers 200 (from the fast path, or from
    the data read after the refused update), or raises [ValidationError],
    or raises [ExternalServiceError] when [update_item] fails for a reason
    of the service; it never answers 202.  With every call to DynamoDB
    succeeding it answers 200 when the fast path recognises the completed
    check and raises [ValidationError] when it does not (the item has no
    [caseCheckKey]).  Under SAM local, where nothing is written or started,
    it answers 200 or the mock 202. *)
Theorem completed_check_is_not_requeued K P rq st st' r (item : dict) :
  Initiate.force_reprocess rq = false ->
  Initiate.jobs st !! Initiate.meeting_id rq = Some item ->
  dget "caseCheckStatus" item = Some (JStr "COMPLETED") ->
  Initiate.initiate K P rq st = (st', r) ->
  let fast :=
    completed_fast_path K (Initiate.aws_sam_local P)
      (if Initiate.get_item_ok P then Some (Initiate.jobs st) else None)
      (Initiate.bucket P) (Initiate.meeting_id rq) false in
  st' = st
  /\ (forall body, fast = Some body -> r = Initiate.Response 200 body)
  /\ (if Initiate.aws_sam_local P then
        (exists body, r = Initiate.Response 200 body)
        \/ r = Initiate.Response 202
                 [("message", JStr "Case check workflow started");
                  ("meetingId", JStr (Initiate.meeting_id rq));
                  ("executionArn",
                   JStr (Initiate.mock_arn (Initiate.meeting_id rq)))]
      else
        (exists body, r = Initiate.Response 200 body)
        \/ r = Initiate.ValidationError
        \/ (r = Initiate.ExternalServiceError "dynamodb"
            /\ exists code, Initiate.update_item_fault P = Some code
                 /\ code <> "ConditionalCheckFailedException"))
  /\ (Initiate.aws_sam_local P = false ->
      Initiate.update_item_fault P = None ->
      Initiate.get_item_ok P = true -> Initiate.get_item_ok_again P = true ->
      match fast with
      | Some body => r = Initiate.Response 200 body
      | None => r = Initiate.ValidationError
      end).
Proof.
  intros Hf Hitem Hst. cbv zeta. unfold Initiate.initiate. rewrite Hf.
  destruct (completed_fast_path _ _ _ _ _ false) as [body|] eqn:Hfast.
  { intros H. injection H as <- <-. split; [reflexivity|].
    split; [intros b Hb; congruence|].
    split; [destruct (Initiate.aws_sam_local P); eauto|]. reflexivity. }
  pose proof (mark_queued_cases K P (Initiate.meeting_id rq) false
                (Initiate.jobs st)) as Hcases.
  cbv zeta in Hcases. unfold Initiate.item_of, Initiate.may_queue in Hcases.
  rewrite Hitem, Hst in Hcases.
  cbn [is_str String.eqb Ascii.eqb Bool.eqb negb orb andb] in Hcases.
  destruct (Initiate.mark_queued _ _ _ _ _) as [jobs'|details| |] eqn:Hmark.
  - destruct Hcases as [[Hsam ->]|(_ & _ & Hno & _)]; [|discriminate].
    rewrite Hsam. rewrite state_eta.
    intros H. injection H as <- <-. split; [reflexivity|].
    split; [discriminate|]. split; [right; reflexivity|]. discriminate.
  - destruct Hcases as [Hsam Hwhy]. rewrite Hsam.
    assert (Hagain : Initiate.update_item_fault P = None ->
                     Initiate.get_item_ok P = true ->
                     Initiate.get_item_ok_again P = true -> False).
    { intros Hnf H1 H2. unfold Initiate.mark_queued in Hmark.
      rewrite Hsam in Hmark. unfold Initiate.update_item_error in Hmark.
      rewrite Hnf in Hmark. unfold Initiate.item_of, Initiate.may_queue in Hmark.
      rewrite Hitem, Hst in Hmark.
      cbn [is_str String.eqb Ascii.eqb Bool.eqb negb orb andb] in Hmark.
      rewrite Hsam, H1 in Hfast. rewrite H2 in Hmark.
      rewrite (fast_path_none _ _ _ _ _ Hfast) in Hmark. discriminate. }
    destruct (truthy _); intros H; injection H as <- <-;
      (split; [reflexivity|]); (split; [discriminate|]);
      (split; [eauto|]); intros _ Hnf H1 H2; destruct (Hagain Hnf H1 H2).
  - destruct Hcases as [Hsam Hwhy]. rewrite Hsam.
    intros H. injection H as <- <-. split; [reflexivity|].
    split; [discriminate|]. split; [auto|]. reflexivity.
  - destruct Hcases as [Hsam (code & Hcode & Hne)]. rewrite Hsam.
    intros H. injection H as <- <-. split; [reflexivity|].
    split; [discriminate|]. split; [eauto 6|].
    intros _ Hnf. congruence.
Qed.

Lemma completed_check_is_not_requeued_witness :
  let run := Initiate.initiate demo_constants demo_platform (demo_request false)
               demo_state in
  fst run = demo_state /\ exists body, snd run = Initiate.Response 200 body.
Proof.
  cbv zeta.
  destruct (completed_check_is_not_requeued demo_constants demo_platform
              (demo_request false) demo_state _ _
              [("meetingId", JStr "m-42");
               ("summaryStatus", JStr "COMPLETED");
               ("createdAt", JStr "2026-01-01T09:00:00+00:00");
               ("caseCheckStatus", JStr "COMPLETED");
               ("caseCheckKey",
                JStr "summaries/2026/01/m-42/case_check.v1.0.json");
               ("casePassRate", JFloat 87.5)]
              eq_refl ltac:(vm_compute; reflexivity) eq_refl
              (surjective_pairing _)) as (H1 & H2 & _).
  split; [exact H1|]. eexists. apply H2. vm_compute. reflexivity.
Defined.

(** X20: how a request ends, whatever the services do.  A 200 answer and a
    [ValidationError] leave the job table and the executions as they were,
    and so does the [ExternalServiceError] raised when [update_item] fails
    for a reason of the service.  A 202 answer of the deployed handler
    means that the update was allowed (forced, or the item was not
    COMPLETED), that the job table is the old one with the item of the
    meeting updated by the [SET] expression, and that exactly one
    execution was started, with the input built from the request.  When
    starting the execution fails the handler raises
    [ExternalServiceError] for Step Functions and the job table is that
    same updated table: the meeting stays marked QUEUED.  Under SAM local a
    202 answer carries the mock ARN and nothing has changed.  In the
    updated table the item of the meeting has [caseCheckStatus] QUEUED and
    the update time, keeps its [createdAt] if it had one and all its other
    attributes, and every other item is as it was. *)
Theorem initiate_outcomes K P rq st st' r :
  Initiate.initiate K P rq st = (st', r) ->
  let meeting := Initiate.meeting_id rq in
  let old := Initiate.item_of (Initiate.jobs st) meeting in
  let queued :=
    <[meeting := Initiate.set_queued (Initiate.clock_iso P) old]>
      (Initiate.jobs st) in
  let started_message (execution_arn : string) : dict :=
    [("message", JStr "Case check workflow started");
     ("meetingId", JStr meeting);
     ("executionArn", JStr execution_arn)] in
  match r with
  | Initiate.Response code body =>
      (code = 200 /\ st' = st)
      \/ (code = 202 /\ Initiate.aws_sam_local P = false
          /\ Initiate.force_reprocess rq || Initiate.may_queue old = true
          /\ Initiate.jobs st' = queued
          /\ Initiate.started st'
             = (Initiate.started st ++ [Initiate.step_input rq])%list
          /\ exists execution_arn,
               Initiate.start_execution P (Initiate.step_input rq)
               = Some execution_arn
               /\ body = started_message execution_arn)
      \/ (code = 202 /\ Initiate.aws_sam_local P = true /\ st' = st
          /\ body = started_message (Initiate.mock_arn meeting))
  | Initiate.ValidationError =>
      st' = st /\ Initiate.aws_sam_local P = false
  | Initiate.ExternalServiceError service =>
      Initiate.aws_sam_local P = false
      /\ ((service = "dynamodb" /\ st' = st
           /\ exists code, Initiate.update_item_fault P = Some code
                /\ code <> "ConditionalCheckFailedException")
          \/ (service = "stepfunctions"
              /\ Initiate.force_reprocess rq || Initiate.may_queue old = true
              /\ Initiate.jobs st' = queued
              /\ Initiate.started st' = Initiate.started st
              /\ Initiate.start_execution P (Initiate.step_input rq) = None))
  end
  /\ (exists item',
        queued !! meeting = Some item'
        /\ dget "caseCheckStatus" item' = Some (JStr "QUEUED")
        /\ dget "caseCheckUpdatedAt" item' = Some (JStr (Initiate.clock_iso P))
        /\ dget "createdAt" item'
           = Some (dget_or "createdAt" (JStr (Initiate.clock_iso P)) old)
        /\ forall k, k <> "caseCheckStatus" -> k <> "caseCheckUpdatedAt" ->
                     k <> "createdAt" -> dget k item' = dget k old)
  /\ (forall m, m <> meeting -> queued !! m = Initiate.jobs st !! m).
Proof.
  intros H. cbv zeta. split; [|split].
  - revert H. unfold Initiate.initiate.
    destruct (completed_fast_path _ _ _ _ _ _) as [body|].
    { intros H. injection H as <- <-. auto. }
    pose proof (mark_queued_cases K P (Initiate.meeting_id rq)
                  (Initiate.force_reprocess rq) (Initiate.jobs st)) as Hcases.
    cbv zeta in Hcases.
    destruct (Initiate.mark_queued _ _ _ _ _) as [jobs'|details| |].
    + destruct Hcases as [[Hsam ->]|(Hsam & Hnf & Hok & ->)]; rewrite Hsam.
      * rewrite state_eta. intros H. injection H as <- <-.
        right. right. auto.
      * destruct (Initiate.start_execution P (Initiate.step_input rq))
          as [arn|] eqn:Hstart; intros H; injection H as <- <-.
        -- right. left. repeat split; try assumption. eauto.
        -- split; [reflexivity|]. right. auto.
    + destruct Hcases as [Hsam _].
      destruct (truthy _); intros H; injection H as <- <-; auto.
    + destruct Hcases as [Hsam _]. intros H. injection H as <- <-. auto.
    + destruct Hcases as [Hsam Hcode]. intros H. injection H as <- <-.
      split; [exact Hsam|]. left. auto.
  - destruct (set_queued_spec (Initiate.clock_iso P)
                (Initiate.item_of (Initiate.jobs st) (Initiate.meeting_id rq)))
      as (H1 & H2 & H3 & H4).
    eexists. split; [apply lookup_insert_eq|]. auto.
  - intros m Hm. apply lookup_insert_ne. congruence.
Qed.

(** A start that fails leaves the meeting marked QUEUED. *)
Lemma initiate_outcomes_witness :
  let run := Initiate.initiate demo_constants no_start_platform
               (demo_request true) demo_state in
  snd run = Initiate.ExternalServiceError "stepfunctions"
  /\ exists item',
       Initiate.jobs (fst run) !! "m-42" = Some item'
       /\ dget "caseCheckStatus" item' = Some (JStr "QUEUED")
       /\ dget "createdAt" item' = Some (JStr "2026-01-01T09:00:00+00:00")
       /\ dget "summaryStatus" item' = Some (JStr "COMPLETED").
Proof.
  cbv zeta. split; [vm_compute; reflexivity|].
  pose proof (initiate_outcomes demo_constants no_start_platform
                (demo_request true) demo_state _ _ (surjective_pairing _))
    as (H & (item' & H1 & H2 & _ & H4 & H5) & _).
  cbv zeta in H.
  change (snd (Initiate.initiate demo_constants no_start_platform
                 (demo_request true) demo_state))
    with (Initiate.ExternalServiceError "stepfunctions") in H.
  destruct H as (_ & [(Hd & _)|(_ & _ & Hjobs & _)]); [discriminate Hd|].
  exists item'. rewrite Hjobs. split; [exact H1|]. split; [exact H2|].
  split.
  - rewrite H4. vm_compute. reflexivity.
  - rewrite H5 by discriminate. vm_compute. reflexivity.
Defined.

(** X21: the input of a started workflow always carries the meeting id and
    the force flag; with a redacted transcript key it carries that key and
    neither a coach name nor a transcript nor a Zoom meeting id; and it
    never carries both a transcript and a Zoom meeting id. *)
Theorem step_input_sources (rq : Initiate.Request) :
  let input_data := Initiate.step_input rq in
  dget "meetingId" input_data = Some (JStr (Initiate.meeting_id rq))
  /\ dget "forceReprocess" input_data
     = Some (JBool (Initiate.force_reprocess rq))
  /\ (Initiate.redacted_transcript_key rq <> "" ->
      dget "redactedTranscriptKey" input_data
      = Some (JStr (Initiate.redacted_transcript_key rq))
      /\ dget "coachName" input_data = None
      /\ dget "transcript" input_data = None
      /\ dget "zoomMeetingId" input_data = None)
  /\ (Initiate.redacted_transcript_key rq = "" ->
      dget "redactedTranscriptKey" input_data = None)
  /\ (dget "transcript" input_data = None
      \/ dget "zoomMeetingId" input_data = None).
Proof.
  cbv zeta. unfold Initiate.step_input.
  destruct (Initiate.redacted_transcript_key rq) as [|c k] eqn:Hk;
    cbn [Py.nonempty].
  - destruct (Py.nonempty (Initiate.coach_name rq));
      destruct (truthy (Initiate.transcript rq));
      try destruct (truthy (Initiate.zoom_meeting_id rq));
      repeat split; try reflexivity; try congruence;
      try (left; reflexivity); try (right; reflexivity).
  - repeat split; try reflexivity; try congruence. left. reflexivity.
Qed.

Lemma step_input_sources_witness :
  dget "coachName"
    (Initiate.step_input
       {| Initiate.meeting_id := "m-42"; Initiate.coach_name := "Jane Doe";
          Initiate.transcript := JStr "COACH: hello";
          Initiate.zoom_meeting_id := JStr "123456789";
          Initiate.redacted_transcript_key := "summaries/t/redacted.txt";
          Initiate.force_reprocess := false |}) = None
  /\ dget "transcript"
       (Initiate.step_input
          {| Initiate.meeting_id := "m-42"; Initiate.coach_name := "Jane Doe";
             Initiate.transcript := JStr "COACH: hello";
             Initiate.zoom_meeting_id := JStr "123456789";
             Initiate.redacted_transcript_key := "summaries/t/redacted.txt";
             Initiate.force_reprocess := false |}) = None.
Proof.
  destruct (step_input_sources
              {| Initiate.meeting_id := "m-42"; Initiate.coach_name := "Jane Doe";
                 Initiate.transcript := JStr "COACH: hello";
                 Initiate.zoom_meeting_id := JStr "123456789";
                 Initiate.redacted_transcript_key := "summaries/t/redacted.txt";
                 Initiate.force_reprocess := false |})
    as (_ & _ & H & _).
  destruct (H ltac:(discriminate)) as (_ & H1 & H2 & _). auto.
Defined.

(** ** Keys of the case-check objects *)

(** The key of a case-check object determines the year, the month and the
    meeting. *)
Lemma case_key_inj (K : Constants) (p q : Z * Z) (m m' : string) :
  0 <= fst p -> 0 <= snd p -> 0 <= fst q -> 0 <= snd q ->
  case_key K p m = case_key K q m' -> p = q /\ m = m'.
Proof.
  destruct p as [y mo], q as [y' mo']. cbn [fst snd].
  intros Hy Hmo Hy' Hmo'. unfold case_key. cbn [fst snd].
  destruct (ATHENA_PARTITIONED K); intros H.
  - do 4 apply append_cancel_l in H.
    change ("/month=" ++ ?x) with (String "/" ("month=" ++ x)) in H.
    apply run_unique with (p := Py.is_decimal) in H as (Ey & _ & H);
      try apply decimal_digits; try apply slash_not_decimal.
    apply append_cancel_l in H.
    change ("/meeting_id=" ++ ?x) with (String "/" ("meeting_id=" ++ x)) in H.
    apply run_unique with (p := Py.is_decimal) in H as (Em & _ & H);
      try apply zero_pad_digits; try apply slash_not_decimal.
    apply append_cancel_l, append_cancel_r in H.
    apply decimal_inj in Ey; [|assumption..].
    apply zero_pad_decimal_inj in Em; [|assumption..].
    subst. auto.
  - do 2 apply append_cancel_l in H.
    change ("/" ++ ?x) with (String "/" x) in H.
    apply run_unique with (p := Py.is_decimal) in H as (Ey & _ & H);
      try apply zero_pad_digits; try apply slash_not_decimal.
    apply run_unique with (p := Py.is_decimal) in H as (Em & _ & H);
      try apply zero_pad_digits; try apply slash_not_decimal.
    apply append_cancel_r in H.
    apply zero_pad_decimal_inj in Ey; [|assumption..].
    apply zero_pad_decimal_inj in Em; [|assumption..].
    subst. auto.
Qed.

(** X22: the key of a case-check object determines its meeting, year and
    month, so a run of the handler for one meeting leaves the case-check
    object of every other meeting, of whatever month, as it was. *)
Theorem other_meetings_untouched K E event w w' r (m m' : string) (p : Z * Z) :
  lambda_handler K E event w = (w', r) ->
  meetingId event = Some m -> m' <> m ->
  0 <= fst (now_save E) -> 0 <= snd (now_save E) ->
  0 <= fst p -> 0 <= snd p ->
  s3 w' !! case_key K p m' = s3 w !! case_key K p m'.
Proof.
  intros H Hm Hne Hy Hmo Hpy Hpm.
  apply (proj1 (handler_footprint _ _ _ _ _ _ H)).
  intros m0 Hm0 Hk. rewrite Hm in Hm0. injection Hm0 as <-.
  apply case_key_inj in Hk as [_ Hk]; try assumption. congruence.
Qed.

Lemma other_meetings_untouched_witness :
  s3 (fst (run_with second_reply)) !! case_key demo_constants (2026, 1) "m-43"
  = s3 empty_world !! case_key demo_constants (2026, 1) "m-43".
Proof.
  apply (other_meetings_untouched demo_constants
           (demo_env (2026, 1) second_reply) (demo_event false) empty_world
           (fst (run_with second_reply)) (snd (run_with second_reply))
           "m-42" "m-43" (2026, 1)).
  - apply surjective_pairing.
  - reflexivity.
  - discriminate.
  - simpl; lia.
  - simpl; lia.
  - simpl; lia.
  - simpl; lia.
Defined.

(** ** The two word counts agree *)

Lemma counts_agree (lines : list string) (acc : nat * nat)
    (t : Analytics.tally) :
  fst acc = Analytics.t_coach_words t ->
  snd acc = Analytics.t_client_words t ->
  fst (fold_left Metrics.count_words_line lines acc)
  = Analytics.t_coach_words (fold_left Analytics.count_line lines t)
  /\ snd (fold_left Metrics.count_words_line lines acc)
     = Analytics.t_client_words (fold_left Analytics.count_line lines t).
Proof.
  revert acc t. induction lines as [|l lines IH]; intros acc t H1 H2;
    cbn [fold_left]; [auto|].
  apply IH; unfold Metrics.count_words_line, Analytics.count_line;
    destruct (negb _); try assumption;
    destruct (label_match _); try assumption;
    destruct (String.eqb _ "COACH"); cbn; congruence.
Qed.

(** X23: the word-count fallback of [extract_metrics] and the local
    analytics of the case check, which are written separately, count the
    same words: on the same transcript the fallback percentages are the
    talk ratios. *)
Theorem fallback_agrees_with_analytics (transcript : string)
    (vtt_content coach_name vtt_content' : option string) :
  Metrics.given vtt_content && Metrics.given coach_name = false ->
  exists m a,
    Metrics.extract_metrics transcript vtt_content coach_name = Ok m
    /\ Analytics.calculate_call_analytics transcript vtt_content' = Ok a
    /\ Metrics.coach_speaking_pct m = Analytics.coach_talk_ratio a
    /\ Metrics.client_speaking_pct m = Analytics.client_talk_ratio a.
Proof.
  intros Hmode.
  unfold Metrics.extract_metrics, Analytics.calculate_call_analytics.
  assert (Hseg : exists segs,
             (if Metrics.given vtt_content
              then parse_vtt_segments vtt_content else Ok []) = Ok segs).
  { destruct (Metrics.given vtt_content); [apply parse_vtt_segments_ok|eauto]. }
  destruct Hseg as (segs & ->). rewrite Hmode.
  destruct (analytics_duration vtt_content') as (d & ->). cbn [bind].
  eexists. eexists. split; [reflexivity|]. split; [reflexivity|].
  cbn [Metrics.coach_speaking_pct Metrics.client_speaking_pct
       Analytics.coach_talk_ratio Analytics.client_talk_ratio].
  destruct (counts_agree (Py.split_on nl transcript) (0%nat, 0%nat)
              Analytics.no_tally eq_refl eq_refl) as [Hc Hk].
  unfold Analytics.count_lines. rewrite <- Hc, <- Hk. split; reflexivity.
Qed.

Lemma fallback_agrees_with_analytics_witness :
  exists m a,
    Metrics.extract_metrics demo_labelled (Some demo_captions) None = Ok m
    /\ Analytics.calculate_call_analytics demo_labelled None = Ok a
    /\ Metrics.coach_speaking_pct m = Analytics.coach_talk_ratio a
    /\ Metrics.client_speaking_pct m = Analytics.client_talk_ratio a.
Proof.
  apply (fallback_agrees_with_analytics demo_labelled (Some demo_captions)
           None None).
  reflexivity.
Defined.

(** ** Line endings of the captions *)

Lemma replace_crlf_cons (c : ascii) (s : string) :
  c <> cr -> Py.replace_crlf (String c s) = String c (Py.replace_crlf s).
Proof.
  intros H. destruct c as [[] [] [] [] [] [] [] []]; try reflexivity.
  exfalso. apply H. reflexivity.
Qed.

Lemma plain_cons (c : ascii) (l : string) :
  plain_line (String c l) = true -> c <> cr /\ c <> nl /\ plain_line l = true.
Proof.
  unfold plain_line. simpl. intros H.
  apply andb_true_iff in H as [H Hl]. apply andb_true_iff in H as [H1 H2].
  apply negb_true_iff in H1, H2. apply Ascii.eqb_neq in H1, H2. auto.
Qed.

Lemma replace_crlf_plain (l x : string) :
  plain_line l = true -> Py.replace_crlf (l ++ x) = l ++ Py.replace_crlf x.
Proof.
  induction l as [|c l IH]; intros H; [reflexivity|].
  apply plain_cons in H as (Hc & _ & Hl).
  cbn [String.append]. rewrite replace_crlf_cons by exact Hc.
  rewrite IH by exact Hl. reflexivity.
Qed.

Lemma replace_cr_plain (l x : string) :
  plain_line l = true ->
  Py.replace_char cr nl (l ++ x) = l ++ Py.replace_char cr nl x.
Proof.
  induction l as [|c l IH]; intros H; [reflexivity|].
  apply plain_cons in H as (Hc & _ & Hl).
  cbn [String.append Py.replace_char]. rewrite IH by exact Hl.
  apply Ascii.eqb_neq in Hc. rewrite Hc. reflexivity.
Qed.

Lemma split_nl_plain (l x : string) :
  plain_line l = true ->
  Py.split_on nl (l ++ String nl x) = l :: Py.split_on nl x.
Proof.
  induction l as [|c l IH]; intros H; [reflexivity|].
  apply plain_cons in H as (_ & Hc & Hl).
  cbn [String.append Py.split_on]. rewrite IH by exact Hl.
  apply Ascii.eqb_neq in Hc. rewrite Hc. reflexivity.
Qed.

Lemma split_nl_single (l : string) :
  plain_line l = true -> Py.split_on nl l = [l].
Proof.
  induction l as [|c l IH]; intros H; [reflexivity|].
  apply plain_cons in H as (_ & Hc & Hl).
  cbn [Py.split_on]. rewrite IH by exact Hl.
  apply Ascii.eqb_neq in Hc. rewrite Hc. reflexivity.
Qed.

Lemma split_join_lines (lines : list string) :
  lines <> [] -> Forall (fun l => plain_line l = true) lines ->
  Py.split_on nl (join_lines (String nl "") lines) = lines.
Proof.
  induction lines as [|l [|l2 rest] IH]; intros Hne Hall; [congruence| |].
  - inversion Hall; subst. apply split_nl_single. assumption.
  - inversion Hall as [|? ? Hl Hrest]; subst.
    change (join_lines (String nl "") (l :: l2 :: rest))
      with (l ++ String nl (join_lines (String nl "") (l2 :: rest))).
    rewrite split_nl_plain by exact Hl. rewrite IH; [reflexivity|discriminate|].
    exact Hrest.
Qed.

Lemma replace_crlf_id (l : string) :
  plain_line l = true -> Py.replace_crlf l = l.
Proof.
  intros H. pose proof (replace_crlf_plain l "" H) as E.
  cbn [Py.replace_crlf] in E. rewrite !append_nil_r in E. exact E.
Qed.

Lemma replace_cr_id (l : string) :
  plain_line l = true -> Py.replace_char cr nl l = l.
Proof.
  intros H. pose proof (replace_cr_plain l "" H) as E.
  cbn [Py.replace_char] in E. rewrite !append_nil_r in E. exact E.
Qed.

(** Without a line feed there is no pair to replace. *)
Lemma replace_crlf_no_nl (s : string) :
  Py.all_chars not_newline s = true -> Py.replace_crlf s = s.
Proof.
  induction s as [|c s IH]; intros H; [reflexivity|].
  simpl in H. apply andb_true_iff in H as [_ Hs].
  destruct (Ascii.eqb_spec c cr) as [->|Hc].
  - destruct s as [|d s]; [reflexivity|].
    pose proof Hs as Hs'. simpl in Hs'. apply andb_true_iff in Hs' as [Hd _].
    unfold not_newline in Hd. apply negb_true_iff, Ascii.eqb_neq in Hd.
    specialize (IH Hs).
    destruct d as [[] [] [] [] [] [] [] []];
      try (cbn [Py.replace_crlf] in IH |- *; rewrite IH; reflexivity).
    exfalso. apply Hd. reflexivity.
  - rewrite replace_crlf_cons by exact Hc. rewrite IH by exact Hs. reflexivity.
Qed.

Lemma plain_no_nl (l : string) :
  plain_line l = true -> Py.all_chars not_newline l = true.
Proof.
  apply all_chars_impl. intros c H. apply andb_true_iff in H as [_ H]. exact H.
Qed.

Lemma join_cr_no_nl (lines : list string) :
  Forall (fun l => plain_line l = true) lines ->
  Py.all_chars not_newline (join_lines (String cr "") lines) = true.
Proof.
  induction lines as [|l [|l2 rest] IH]; intros Hall; [reflexivity| |].
  - inversion Hall; subst. apply plain_no_nl. assumption.
  - inversion Hall as [|? ? Hl Hrest]; subst.
    change (join_lines (String cr "") (l :: l2 :: rest))
      with (l ++ String cr (join_lines (String cr "") (l2 :: rest))).
    rewrite all_chars_app. rewrite (plain_no_nl _ Hl). simpl.
    apply IH, Hrest.
Qed.

(** Normalising the line endings of lines joined by any of the three
    conventions gives the lines joined by line feeds. *)
Lemma normalise_join_crlf (lines : list string) :
  Forall (fun l => plain_line l = true) lines ->
  Py.replace_char cr nl
    (Py.replace_crlf (join_lines (String cr (String nl "")) lines))
  = join_lines (String nl "") lines.
Proof.
  induction lines as [|l [|l2 rest] IH]; intros Hall; [reflexivity| |].
  - inversion Hall; subst. cbn [join_lines].
    rewrite replace_crlf_id, replace_cr_id by assumption. reflexivity.
  - inversion Hall as [|? ? Hl Hrest]; subst. specialize (IH Hrest).
    set (tail := l2 :: rest) in *.
    change (join_lines ?sep (l :: tail))
      with (l ++ sep ++ join_lines sep tail).
    cbn [String.append]. rewrite replace_crlf_plain by exact Hl.
    change (Py.replace_crlf (String cr (String nl ?x)))
      with (String nl (Py.replace_crlf x)).
    rewrite replace_cr_plain by exact Hl.
    cbn [Py.replace_char]. rewrite IH. reflexivity.
Qed.

Lemma normalise_join_cr (lines : list string) :
  Forall (fun l => plain_line l = true) lines ->
  Py.replace_char cr nl (Py.replace_crlf (join_lines (String cr "") lines))
  = join_lines (String nl "") lines.
Proof.
  intros Hall. rewrite replace_crlf_no_nl by (apply join_cr_no_nl, Hall).
  induction lines as [|l [|l2 rest] IH]; [reflexivity| |].
  - inversion Hall; subst. cbn [join_lines]. apply replace_cr_id. assumption.
  - inversion Hall as [|? ? Hl Hrest]; subst. specialize (IH Hrest).
    set (tail := l2 :: rest) in *.
    change (join_lines ?sep (l :: tail))
      with (l ++ sep ++ join_lines sep tail).
    cbn [String.append]. rewrite replace_cr_plain by exact Hl.
    cbn [Py.replace_char]. rewrite IH. reflexivity.
Qed.

Lemma normalise_join_nl (lines : list string) :
  Forall (fun l => plain_line l = true) lines ->
  Py.replace_char cr nl (Py.replace_crlf (join_lines (String nl "") lines))
  = join_lines (String nl "") lines.
Proof.
  induction lines as [|l [|l2 rest] IH]; intros Hall; [reflexivity| |].
  - inversion Hall; subst. cbn [join_lines].
    rewrite replace_crlf_id, replace_cr_id by assumption. reflexivity.
  - inversion Hall as [|? ? Hl Hrest]; subst. specialize (IH Hrest).
    set (tail := l2 :: rest) in *.
    change (join_lines ?sep (l :: tail))
      with (l ++ sep ++ join_lines sep tail).
    cbn [String.append]. rewrite replace_crlf_plain by exact Hl.
    rewrite replace_crlf_cons by discriminate.
    rewrite replace_cr_plain by exact Hl.
    cbn [Py.replace_char]. rewrite IH. reflexivity.
Qed.

Lemma join_lines_empty (sep : string) (lines : list string) :
  sep <> "" -> join_lines sep lines = "" -> lines = [] \/ lines = [""].
Proof.
  intros Hsep. destruct lines as [|l [|l2 rest]]; cbn [join_lines]; auto.
  - intros ->. auto.
  - intros H. exfalso. destruct l; [|discriminate].
    destruct sep; [congruence|discriminate].
Qed.

(** The segments of lines joined by one line-ending convention are the scan
    of the lines. *)
Lemma parse_joined (sep : string) (lines : list string) :
  sep <> "" ->
  Forall (fun l => plain_line l = true) lines ->
  Py.replace_char cr nl (Py.replace_crlf (join_lines sep lines))
  = join_lines (String nl "") lines ->
  parse_vtt_segments (Some (join_lines sep lines)) = scan lines.
Proof.
  intros Hsep Hall Hnorm.
  destruct (join_lines sep lines) as [|c content] eqn:Hj.
  - apply join_lines_empty in Hj as [->| ->]; [reflexivity..|exact Hsep].
  - cbn [parse_vtt_segments]. rewrite Hnorm.
    rewrite split_join_lines; [reflexivity| |exact Hall].
    intros ->. discriminate.
Qed.

(** X24: the line-ending convention of the caption file does not matter:
    lines joined by CR LF, by CR or by LF give the same segments, those of
    the scan over the lines. *)
Theorem line_endings_equivalent (lines : list string) :
  Forall (fun l => plain_line l = true) lines ->
  parse_vtt_segments (Some (join_lines (String cr (String nl "")) lines))
  = scan lines
  /\ parse_vtt_segments (Some (join_lines (String cr "") lines)) = scan lines
  /\ parse_vtt_segments (Some (join_lines (String nl "") lines)) = scan lines.
Proof.
  intros Hall. repeat split; apply parse_joined; try discriminate;
    try exact Hall.
  - apply normalise_join_crlf, Hall.
  - apply normalise_join_cr, Hall.
  - apply normalise_join_nl, Hall.
Qed.

Lemma line_endings_equivalent_witness :
  parse_vtt_segments
    (Some (join_lines (String cr (String nl ""))
             ["00:00:01.000 --> 00:00:04.500"; "Jane Doe: Hello"; ""]))
  = scan ["00:00:01.000 --> 00:00:04.500"; "Jane Doe: Hello"; ""]
  /\ parse_vtt_segments
       (Some (join_lines (String cr "")
                ["00:00:01.000 --> 00:00:04.500"; "Jane Doe: Hello"; ""]))
     = scan ["00:00:01.000 --> 00:00:04.500"; "Jane Doe: Hello"; ""]
  /\ parse_vtt_segments
       (Some (join_lines (String nl "")
                ["00:00:01.000 --> 00:00:04.500"; "Jane Doe: Hello"; ""]))
     = scan ["00:00:01.000 --> 00:00:04.500"; "Jane Doe: Hello"; ""].
Proof.
  apply (line_endings_equivalent
           ["00:00:01.000 --> 00:00:04.500"; "Jane Doe: Hello"; ""]).
  repeat constructor.
Defined.

(** ** The duration reported by the metrics *)

Lemma last_end_nonneg (segments : list segment) :
  Forall (fun seg => (0 <= fst (fst seg))%Q /\ (0 <= snd (fst seg))%Q) segments ->
  (0 <= Metrics.last_end segments)%Q.
Proof.
  intros Hall. unfold Metrics.last_end.
  destruct (last segments) as [seg|] eqn:Hl; [|discriminate].
  apply last_in in Hl. rewrite List.Forall_forall in Hall.
  apply (Hall seg Hl).
Qed.

(** X25: [get_vtt_duration] of the metrics source never raises and is
    never negative, and [extract_metrics], which repeats its computation
    instead of calling it, reports that duration in minutes, rounded to one
    decimal. *)
Theorem reported_duration (transcript : string)
    (vtt_content coach_name : option string) :
  exists d m,
    Metrics.get_vtt_duration vtt_content = Ok d
    /\ (0 <= d)%Q
    /\ Metrics.extract_metrics transcript vtt_content coach_name = Ok m
    /\ Metrics.total_duration_min m = py_round1 (d / 60).
Proof.
  unfold Metrics.get_vtt_duration, Metrics.extract_metrics.
  destruct (Metrics.given vtt_content) eqn:Hv.
  - destruct (parse_vtt_segments_ok vtt_content) as (segs & Hs).
    rewrite Hs. cbn [bind].
    exists (Metrics.last_end segs).
    destruct (andb true (Metrics.given coach_name)).
    + destruct (parse_vtt_with_speakers_ok vtt_content coach_name) as (t & ->).
      cbn [bind]. eexists. split; [reflexivity|].
      split; [exact (last_end_nonneg _ (segments_nonneg _ _ Hs))|].
      split; reflexivity.
    + eexists. split; [reflexivity|].
      split; [exact (last_end_nonneg _ (segments_nonneg _ _ Hs))|].
      split; reflexivity.
  - cbn [bind andb]. exists 0%Q. eexists. split; [reflexivity|].
    split; [discriminate|]. split; reflexivity.
Qed.
